(** * Sidecar: the observation -> extraction -> retrieval -> planning pipeline

    A shallow embedding of the Python sources of the sidecar agent
    (extract/generic.py, agent/agent.py, providers/*.py, rag/retriever.py,
    utils/redact.py) together with the properties its specification states.

    Conventions.
    - A Python [str] is a [string] (a sequence of 8-bit characters; the
      sources only inspect ASCII classes).
    - A Python [dict] is a finite map ([gmap]) when only lookups matter, and
      an association list when it is decoded JSON.
    - An exception is a value of [result]; code that catches it matches on it.
*)

From Stdlib Require Import ZArith Ascii String List Bool Lia.
From stdpp Require Import base option list gmap strings fin_maps pretty sorting.

Set Warnings "-register-all".

Local Open Scope list_scope.

(** ** Fact sets (extract/generic.py) *)

Module Facts.

(** The elements of a leaf: strings everywhere, except [artifacts.ports]
    which holds integers. *)
Inductive atom :=
| AStr (s : string)
| AInt (n : Z).

#[global] Instance atom_eq_dec : EqDecision atom.
Proof. solve_decision. Defined.

(** The top-level values of "our simple shapes": a list leaf ([errors],
    [indicators]) or a category, a dict of list leaves. *)
Inductive value :=
| VList (l : list atom)
| VDict (d : gmap string (list atom)).

#[global] Instance value_eq_dec : EqDecision value.
Proof. solve_decision. Defined.

(** [_empty()] *)
Definition _empty : gmap string value :=
  <["entities" := VDict (<["ips" := []]> (<["ipv6" := []]> (<["urls" := []]>
                          (<["domains" := []]> (<["emails" := []]> ∅)))))]>
  (<["artifacts" := VDict (<["ports" := []]> (<["services" := []]>
                          (<["files" := []]> (<["banners" := []]> ∅))))]>
  (<["vulns" := VDict (<["cves" := []]> ∅)]>
  (<["creds" := VDict (<["usernames" := []]> (<["passwords" := []]>
                          (<["pairs" := []]> ∅)))]>
  (<["errors" := VList []]>
  (<["indicators" := VList []]> ∅))))).

(** [_extend_unique(a, b)]: [seen] is [set(a)] and is kept equal to the set
    of elements of [a] by the loop, so [x not in seen] is [x ∉ a] for the
    current [a]. The updated [a] is returned. *)
Fixpoint _extend_unique (a b : list atom) : list atom :=
  match b with
  | [] => a
  | x :: b' =>
      if decide (x ∈ a) then _extend_unique a b'
      else _extend_unique (a ++ [x]) b'
  end.

(** What [for x in v] enumerates: the elements of a list, the keys of a
    dict. (Python enumerates keys in insertion order; a [gmap] has no
    insertion order, its canonical enumeration stands for it.) *)
Definition iter_value (v : value) : list atom :=
  match v with
  | VList l => l
  | VDict d => AStr <$> (map_to_list d).*1
  end.

(** The body of [for k in base] for one key: [inc] is
    [incoming.get(k, None)]. *)
Definition merge_value (v : value) (inc : option value) : value :=
  match v with
  | VDict d =>
      match inc with
      | Some (VDict d') =>
          VDict (map_imap
                   (λ sk l, Some (_extend_unique l (default [] (d' !! sk)))) d)
      | _ => VDict d
      end
  | VList a =>
      VList (_extend_unique a (from_option iter_value [] inc))
  end.

(** [if not base: base = _empty()] *)
Definition or_empty (base : gmap string value) : gmap string value :=
  if decide (base = ∅) then _empty else base.

(** [merge_facts(base, incoming)]. The second loop only adds the keys of
    [incoming] that [base] lacks: a left-biased union. *)
Definition merge_facts (base incoming : gmap string value)
  : gmap string value :=
  let base := or_empty base in
  if decide (incoming = ∅) then base
  else map_imap (λ k v, Some (merge_value v (incoming !! k))) base ∪ incoming.

(** A fact set [v'] keeps everything of [v] and only appends: leaves keep
    their old elements as a prefix, the appended part has no repetition and
    nothing that was already there; a category keeps its sub-keys. *)
Definition leaf_extends (l l' : list atom) : Prop :=
  ∃ extra, l' = l ++ extra ∧ NoDup extra ∧ ∀ x, x ∈ extra → x ∉ l.

Definition value_extends (v v' : value) : Prop :=
  match v, v' with
  | VList a, VList a' => leaf_extends a a'
  | VDict d, VDict d' =>
      dom d' = dom d ∧
      ∀ sk l, d !! sk = Some l → ∃ l', d' !! sk = Some l' ∧ leaf_extends l l'
  | _, _ => False
  end.

(** [va] brings nothing new to [vm]. *)
Definition absorbs (vm va : value) : Prop :=
  match vm, va with
  | VList a, _ => ∀ x, x ∈ iter_value va → x ∈ a
  | VDict d, VDict d' =>
      ∀ sk l, d !! sk = Some l → ∀ x, x ∈ default [] (d' !! sk) → x ∈ l
  | VDict _, VList _ => True
  end.

Definition Absorbs (m A : gmap string value) : Prop :=
  ∀ k va, A !! k = Some va → ∃ vm, m !! k = Some vm ∧ absorbs vm va.

(** Sample data: the category [_empty()] starts [entities] with, an incoming
    fact set that carries a sub-key and a top-level key unknown to it, and a
    fact set as [extract_from_file] returns it for an unreadable file. *)
Definition empty_entities : gmap string (list atom) :=
  <["ips" := []]> (<["ipv6" := []]> (<["urls" := []]>
  (<["domains" := []]> (<["emails" := []]> ∅)))).

Definition sample_entities : gmap string (list atom) :=
  <["ips" := [AStr "10.0.0.5"]]> (<["hostnames" := [AStr "gateway"]]> ∅).

Definition sample_incoming : gmap string value :=
  <["entities" := VDict sample_entities]>
  (<["tickets" := VList [AStr "T-1"]]> ∅).

Definition sample_error_facts : gmap string value :=
  <["indicators" := VList [AStr "extract_error:/tmp/out.txt:denied"]]> ∅.

End Facts.

(** ** Python values *)

Module Py.

(** The outcome of code that may raise: a value, or the exception raised
    (its text, as [str(e)] gives it). *)
Inductive result (A : Type) :=
| Ok (a : A)
| Raise (e : string).
Arguments Ok {A} a.
Arguments Raise {A} e.

#[global] Instance result_ret : MRet result := @Ok.
#[global] Instance result_bind : MBind result := λ A B k r,
  match r with
  | Ok a => k a
  | Raise e => Raise e
  end.

(** *** str methods *)

Definition dquote : ascii := "034"%char.
Definition squote : ascii := "039"%char.

(** [c.isspace()] for a character below 256. *)
Definition is_space (c : ascii) : bool :=
  let n := nat_of_ascii c in
  ((9 <=? n) && (n <=? 13)) || ((28 <=? n) && (n <=? 32))
  || (n =? 133) || (n =? 160).

(** [c.lower()] for a character below 256. *)
Definition lower_char (c : ascii) : ascii :=
  let n := nat_of_ascii c in
  if ((65 <=? n) && (n <=? 90))
     || ((192 <=? n) && (n <=? 222) && negb (n =? 215))
  then ascii_of_nat (n + 32) else c.

Fixpoint map_chars (f : ascii → ascii) (s : string) : string :=
  match s with
  | EmptyString => EmptyString
  | String c r => String (f c) (map_chars f r)
  end.

Definition lower (s : string) : string := map_chars lower_char s.

(** [s.replace(a, b)] for one-character [a] and [b]. *)
Definition replace_char (a b : ascii) (s : string) : string :=
  map_chars (λ c, if Ascii.eqb c a then b else c) s.

Fixpoint lstrip_by (p : ascii → bool) (s : string) : string :=
  match s with
  | EmptyString => EmptyString
  | String c r => if p c then lstrip_by p r else s
  end.

Fixpoint rstrip_by (p : ascii → bool) (s : string) : string :=
  match s with
  | EmptyString => EmptyString
  | String c r =>
      match rstrip_by p r with
      | EmptyString => if p c then EmptyString else String c EmptyString
      | r' => String c r'
      end
  end.

(** [s.strip()] and [s.strip(c)] *)
Definition strip (s : string) : string := lstrip_by is_space (rstrip_by is_space s).
Definition strip_char (c : ascii) (s : string) : string :=
  lstrip_by (Ascii.eqb c) (rstrip_by (Ascii.eqb c) s).

(** [s.find(c)] and [s.rfind(c)] for a one-character [c]: [None] is [-1]. *)
Fixpoint find_char (c : ascii) (s : string) : option nat :=
  match s with
  | EmptyString => None
  | String d r => if Ascii.eqb d c then Some 0 else S <$> find_char c r
  end.

Fixpoint rfind_char (c : ascii) (s : string) : option nat :=
  match s with
  | EmptyString => None
  | String d r =>
      match rfind_char c r with
      | Some i => Some (S i)
      | None => if Ascii.eqb d c then Some 0 else None
      end
  end.

(** [s[i:j]] for [0 <= i], [0 <= j], and [s[:n]]. *)
Definition slice (i j : nat) (s : string) : string := String.substring i (j - i) s.
Definition prefix (n : nat) (s : string) : string := String.substring 0 n s.

(** [sep.join(l)] *)
Fixpoint join (sep : string) (l : list string) : string :=
  match l with
  | [] => EmptyString
  | [x] => x
  | x :: r => x +:+ sep +:+ join sep r
  end.

(** [s.startswith(p)] *)
Definition startswith (p s : string) : bool := String.prefix p s.

(** *** Decoded JSON

    What [json.loads] returns and what the code builds from it; [None] is
    [JNull]. Numbers are integers (no source inspects a float). A dict keeps
    its entries in insertion order, its keys distinct. *)
Inductive json :=
| JNull
| JBool (b : bool)
| JInt (n : Z)
| JStr (s : string)
| JList (l : list json)
| JDict (d : list (string * json)).

Fixpoint assoc {A} (k : string) (d : list (string * A)) : option A :=
  match d with
  | [] => None
  | (k', v) :: r => if String.eqb k' k then Some v else assoc k r
  end.

(** [d[k] = v] *)
Fixpoint assoc_set {A} (k : string) (v : A) (d : list (string * A))
  : list (string * A) :=
  match d with
  | [] => [(k, v)]
  | (k', v') :: r =>
      if String.eqb k' k then (k, v) :: r else (k', v') :: assoc_set k v r
  end.

(** [d.get(k)] and [d.get(k, dflt)] *)
Definition get (k : string) (d : list (string * json)) : json :=
  default JNull (assoc k d).
Definition get_or (k : string) (dflt : json) (d : list (string * json)) : json :=
  default dflt (assoc k d).

(** [bool(x)] *)
Definition truthy (x : json) : bool :=
  match x with
  | JNull => false
  | JBool b => b
  | JInt n => negb (n =? 0)%Z
  | JStr s => negb (String.eqb s EmptyString)
  | JList l => match l with [] => false | _ => true end
  | JDict d => match d with [] => false | _ => true end
  end.

(** [x or y] *)
Definition or_else (x y : json) : json := if truthy x then x else y.

Definition chars (s : string) : list string :=
  (λ c, String c EmptyString) <$> list_ascii_of_string s.

(** [list(x)]: the elements of a list, the characters of a string, the
    keys of a dict; anything else is not iterable. *)
Definition to_list (x : json) : result (list json) :=
  match x with
  | JList l => Ok l
  | JStr s => Ok (JStr <$> chars s)
  | JDict d => Ok (JStr <$> d.*1)
  | _ => Raise "TypeError: object is not iterable"
  end.

(** *** A JSON decoder

    [json.loads] belongs to the standard library; the providers below take
    it as a parameter. [loads] decodes the fragment of JSON without
    fractions, exponents and [\u] escapes, and serves where a concrete
    decoder is wanted. *)
Module Decoder.

Definition is_ws (c : ascii) : bool :=
  let n := nat_of_ascii c in (n =? 32) || (n =? 9) || (n =? 10) || (n =? 13).

Definition is_digit (c : ascii) : bool :=
  let n := nat_of_ascii c in (48 <=? n) && (n <=? 57).

Fixpoint skip_ws (s : list ascii) : list ascii :=
  match s with
  | c :: r => if is_ws c then skip_ws r else s
  | [] => []
  end.

Definition unescape (c : ascii) : option ascii :=
  let n := nat_of_ascii c in
  if n =? 34 then Some "034"%char
  else if n =? 92 then Some "092"%char
  else if n =? 47 then Some "047"%char
  else if n =? 110 then Some "010"%char
  else if n =? 116 then Some "009"%char
  else if n =? 114 then Some "013"%char
  else if n =? 98 then Some "008"%char
  else if n =? 102 then Some "012"%char
  else None.

(** The characters after an opening quote, up to the closing one. *)
Fixpoint string_body (s : list ascii) (acc : list ascii)
  : option (string * list ascii) :=
  match s with
  | [] => None
  | c :: r =>
      let n := nat_of_ascii c in
      if n =? 34 then Some (string_of_list_ascii (reverse acc), r)
      else if n =? 92 then
        match r with
        | e :: r' =>
            match unescape e with
            | Some u => string_body r' (u :: acc)
            | None => None
            end
        | [] => None
        end
      else if n <? 32 then None
      else string_body r (c :: acc)
  end.

Fixpoint digits (s : list ascii) (acc : list ascii) : list ascii * list ascii :=
  match s with
  | c :: r => if is_digit c then digits r (c :: acc) else (reverse acc, s)
  | [] => (reverse acc, [])
  end.

Definition digits_value (ds : list ascii) : Z :=
  foldl (λ v c, v * 10 + Z.of_nat (nat_of_ascii c - 48))%Z 0%Z ds.

Definition ends_number (r : list ascii) : bool :=
  match r with
  | c :: _ =>
      let n := nat_of_ascii c in negb ((n =? 46) || (n =? 101) || (n =? 69))
  | [] => true
  end.

Definition number (neg : bool) (s : list ascii) : option (json * list ascii) :=
  match digits s [] with
  | ([], _) => None
  | (d :: ds, r) =>
      if (nat_of_ascii d =? 48) && negb (bool_decide (ds = [])) then None
      else if ends_number r
      then Some (JInt (if neg then - digits_value (d :: ds)
                       else digits_value (d :: ds))%Z, r)
      else None
  end.

Fixpoint literal (w : list ascii) (s : list ascii) : option (list ascii) :=
  match w with
  | [] => Some s
  | c :: w' =>
      match s with
      | d :: r => if Ascii.eqb c d then literal w' r else None
      | [] => None
      end
  end.

(** What the decoder is reading: a value, the rest of an array after its
    opening bracket or a comma, or the rest of an object likewise. *)
Inductive task :=
| TValue
| TElems (acc : list json)
| TMembers (acc : list (string * json)).

Fixpoint parse (fuel : nat) (t : task) (s : list ascii)
  : option (json * list ascii) :=
  match fuel with
  | 0 => None
  | S fuel =>
      match t with
      | TValue =>
          match skip_ws s with
          | [] => None
          | c :: r =>
              let n := nat_of_ascii c in
              if n =? 123 then
                match skip_ws r with
                | d :: r' => if nat_of_ascii d =? 125 then Some (JDict [], r')
                             else parse fuel (TMembers []) r
                | [] => None
                end
              else if n =? 91 then
                match skip_ws r with
                | d :: r' => if nat_of_ascii d =? 93 then Some (JList [], r')
                             else parse fuel (TElems []) r
                | [] => None
                end
              else if n =? 34 then
                '(str, r') ← string_body r []; Some (JStr str, r')
              else if n =? 45 then number true r
              else if is_digit c then number false (c :: r)
              else if n =? 116 then
                r' ← literal (list_ascii_of_string "rue") r; Some (JBool true, r')
              else if n =? 102 then
                r' ← literal (list_ascii_of_string "alse") r; Some (JBool false, r')
              else if n =? 110 then
                r' ← literal (list_ascii_of_string "ull") r; Some (JNull, r')
              else None
          end
      | TElems acc =>
          '(v, r) ← parse fuel TValue s;
          match skip_ws r with
          | c :: r' =>
              if nat_of_ascii c =? 44 then parse fuel (TElems (acc ++ [v])) r'
              else if nat_of_ascii c =? 93 then Some (JList (acc ++ [v]), r')
              else None
          | [] => None
          end
      | TMembers acc =>
          match skip_ws s with
          | q :: r =>
              if nat_of_ascii q =? 34 then
                '(k, r1) ← string_body r [];
                match skip_ws r1 with
                | c :: r2 =>
                    if nat_of_ascii c =? 58 then
                      '(v, r3) ← parse fuel TValue r2;
                      match skip_ws r3 with
                      | e :: r4 =>
                          if nat_of_ascii e =? 44
                          then parse fuel (TMembers (assoc_set k v acc)) r4
                          else if nat_of_ascii e =? 125
                          then Some (JDict (assoc_set k v acc), r4)
                          else None
                      | [] => None
                      end
                    else None
                | [] => None
                end
              else None
          | [] => None
          end
      end
  end.

Definition loads (s : string) : option json :=
  let cs := list_ascii_of_string s in
  '(v, r) ← parse (2 * length cs + 2) TValue cs;
  match skip_ws r with
  | [] => Some v
  | _ => None
  end.

End Decoder.

End Py.

(** ** Plans and their normalisation
    (providers/local_ollama.py, agent/agent.py) *)

Module Plan.
Import Py.

(** An entry of [next_actions] and a plan, as [_shape_plan] builds them. *)
Record suggestion := Suggestion {
  cmd : string;
  reason : string;
  noise : string;
  safety : string
}.

Record plan := MkPlan {
  next_actions : list suggestion;
  notes : list string;
  escalation_paths : list string
}.

(** The plan as the Python dict it is. *)
Definition suggestion_json (a : suggestion) : json :=
  JDict [("cmd", JStr (cmd a)); ("reason", JStr (reason a));
         ("noise", JStr (noise a)); ("safety", JStr (safety a))].

Definition plan_json (p : plan) : json :=
  JDict [("next_actions", JList (suggestion_json <$> next_actions p));
         ("notes", JList (JStr <$> notes p));
         ("escalation_paths", JList (JStr <$> escalation_paths p))].

(** [{"next_actions": [], "notes": ns, "escalation_paths": []}] *)
Definition note_plan (ns : list string) : plan := MkPlan [] ns [].

(** What [_coerce_plan] returns: the three lists, their entries as found. *)
Record coerced := Coerced {
  c_next_actions : list json;
  c_notes : list json;
  c_escalation_paths : list json
}.

(** [_coerce_plan(obj)] *)
Definition _coerce_plan (obj : json) : result coerced :=
  match obj with
  | JDict d =>
      na ← to_list (get_or "next_actions" (JList []) d);
      ns ← to_list (get_or "notes" (JList []) d);
      es ← to_list (get_or "escalation_paths" (JList []) d);
      Ok (Coerced na ns es)
  | JStr s =>
      if truthy (JStr (strip s)) then Ok (Coerced [] [JStr (strip s)] [])
      else Ok (Coerced [] [JStr "empty_model_response"] [])
  | _ => Ok (Coerced [] [JStr "empty_model_response"] [])
  end.

(** [block] is what lies between the first opening and the last closing
    brace of [s], braces included. *)
Definition brace_span (s block : string) : Prop :=
  ∃ pre mid post,
    s = pre +:+ block +:+ post
    ∧ block = String "{" (mid +:+ "}")
    ∧ find_char "{" pre = None
    ∧ rfind_char "}" post = None.

Section Shape.

(** [repr] of a list or a dict, and [json.loads] ([None] when it raises):
    library code. *)
Variable py_repr : json → string.
Variable json_loads : string → option json.

(** [str(x)] *)
Definition py_str (x : json) : string :=
  match x with
  | JStr s => s
  | JNull => "None"
  | JBool true => "True"
  | JBool false => "False"
  | JInt n => pretty n
  | _ => py_repr x
  end.

(** [_sanitize(s)] *)
Definition _sanitize (x : json) : string :=
  strip (replace_char "]" ")" (replace_char "[" "(" (py_str x))).

(** [_extract_json(s)] *)
Definition _extract_json (s : string) : option json :=
  if negb (truthy (JStr s)) then None
  else
    match find_char "{" s, rfind_char "}" s with
    | Some first, Some last =>
        if last <=? first then None
        else json_loads (slice first (last + 1) s)
    | _, _ => None
    end.

(** One round of the loop over [na]: [None] for an entry that is skipped. *)
Definition shape_action (a : json) : option suggestion :=
  match a with
  | JDict e =>
      Some {| cmd := _sanitize (get_or "cmd" (JStr "") e);
              reason := _sanitize (get_or "reason" (JStr "") e);
              noise := lower (_sanitize
                         (or_else (get_or "noise" (JStr "") e) (JStr "low")));
              safety := lower (_sanitize
                         (or_else (get_or "safety" (JStr "") e) (JStr "read-only"))) |}
  | _ => None
  end.

(** [notes] and [escalation_paths]: a list, a single string, or neither. *)
Definition shape_texts (x : json) : list string :=
  match x with
  | JList l => _sanitize <$> filter (λ n, truthy n = true) l
  | JStr _ => [_sanitize x]
  | _ => []
  end.

(** [_shape_plan(obj)] *)
Definition _shape_plan (obj : json) : plan :=
  match obj with
  | JDict d =>
      let na := or_else (or_else (get "next_actions" d) (get "actions" d))
                        (JList []) in
      {| next_actions :=
           match na with
           | JList l =>
               filter (λ a, truthy (JStr (cmd a)) = true) (omap shape_action l)
           | _ => []
           end;
         notes := shape_texts (or_else (get "notes" d) (JList []));
         escalation_paths :=
           shape_texts (or_else (get "escalation_paths" d) (JList [])) |}
  | _ => MkPlan [] [] []
  end.

(** The decoding step of [plan_with_ollama]: from the text of the
    response to the plan, [notes] being what was noted before. *)
Definition normalize_response (notes0 : list string) (raw : string) : plan :=
  match _extract_json raw with
  | Some obj =>
      if truthy obj then
        let p := _shape_plan obj in
        if bool_decide (notes0 = []) then p
        else MkPlan (next_actions p) (notes p ++ notes0) (escalation_paths p)
      else note_plan (notes0 ++ ["parse_error:response_not_json";
                                   _sanitize (JStr (prefix 240 raw))])
  | None => note_plan (notes0 ++ ["parse_error:response_not_json";
                                    _sanitize (JStr (prefix 240 raw))])
  end.

End Shape.

(** Sample data: a response wrapped in prose, one whose outermost braces
    do not enclose JSON, and the object inside it. *)
Definition q (s : string) : string := replace_char squote dquote s.

Definition sample_response : string :=
  q "some text with {'next_actions':[{'cmd':'nmap -sV target'}]} trailing".
Definition sample_block : string :=
  q "{'next_actions':[{'cmd':'nmap -sV target'}]}".
Definition sample_object : json :=
  JDict [("next_actions", JList [JDict [("cmd", JStr "nmap -sV target")]])].

Definition sample_two_blocks : string :=
  q "{see below} {'next_actions':[{'cmd':'id'}]}".
Definition sample_inner_block : string :=
  q "{'next_actions':[{'cmd':'id'}]}".

(** [repr] for the samples, which hold no list or dict where [str] is
    applied. *)
Definition no_repr (x : json) : string := "".

End Plan.

(** ** Topics (agent/agent.py, [run_agent]) *)

Module Topics.
Import Facts Py.

(** [facts.get(cat, {}).get(sub)] as a condition: a missing category or
    sub-key and an empty leaf are false; a list has no [get]. *)
Definition sub_get (facts : gmap string value) (cat sub : string) : result bool :=
  match facts !! cat with
  | None => Ok false
  | Some (VDict d) => Ok (bool_decide (default [] (d !! sub) ≠ []))
  | Some (VList _) => Raise "AttributeError: 'list' object has no attribute 'get'"
  end.

(** [a or b] as a condition: [b] is evaluated only when [a] is false. *)
Definition or_lazy (a b : result bool) : result bool :=
  x ← a; if x : bool then Ok true else b.

Definition topic_if (b : bool) (t : string) : list string :=
  if b then [t] else [].

(** The topics of an event, from [topics: List[str] = []] to
    [topics.append("General")]. *)
Definition derive_topics (facts : gmap string value) : result (list string) :=
  web ← or_lazy (sub_get facts "entities" "urls")
                (sub_get facts "entities" "domains");
  net ← or_lazy (sub_get facts "entities" "ips")
                (sub_get facts "artifacts" "ports");
  vul ← sub_get facts "vulns" "cves";
  cre ← or_lazy (sub_get facts "creds" "pairs")
                (sub_get facts "creds" "passwords");
  let topics := topic_if web "Web" ++ topic_if net "Network"
                ++ topic_if vul "Vulnerabilities" ++ topic_if cre "Credentials" in
  Ok (if bool_decide (topics = []) then ["General"] else topics).

(** [topics[:3]], the topics retrieval is asked about. *)
Definition retrieval_topics (topics : list string) : list string := take 3 topics.

(** The leaf [facts[cat][sub]], empty where there is none. *)
Definition leaf (facts : gmap string value) (cat sub : string) : list atom :=
  match facts !! cat with
  | Some (VDict d) => default [] (d !! sub)
  | _ => []
  end.

(** The leaf holds something. *)
Definition has (facts : gmap string value) (cat sub : string) : Prop :=
  leaf facts cat sub ≠ [].

(** The topics in the order of their rules. *)
Definition priority : list string :=
  ["Web"; "Network"; "Vulnerabilities"; "Credentials"].

Definition categories : list string := ["entities"; "artifacts"; "vulns"; "creds"].

(** No category holds a list where a dict is expected. *)
Definition categories_are_dicts (facts : gmap string value) : Prop :=
  ∀ cat, cat ∈ categories → ∀ l, facts !! cat ≠ Some (VList l).

(** The facts of an event: [merge_facts] starts from [{}] and receives the
    facts of the command, then those of each file. *)
Definition event_facts (x : gmap string value) (xs : list (gmap string value))
  : gmap string value :=
  foldl merge_facts (merge_facts ∅ x) xs.

Definition sample_url_facts : gmap string value :=
  <["entities" := VDict (<["urls" := [AStr "http://10.0.0.5/login"]]> ∅)]> ∅.

End Topics.

(** ** Patterns (the [re] module, as far as [RE_IPV4] needs it) *)

Module Regex.
Import Py.

(** Patterns without repetition of unbounded length. *)
Inductive re :=
| Eps
| Chr (p : ascii → bool)
| Seq (r1 r2 : re)
| Alt (r1 r2 : re)
| WordB.

(** [r?], greedy: [r] is tried first. *)
Definition Opt (r : re) : re := Alt r Eps.

(** [r{n}] *)
Fixpoint Rep (n : nat) (r : re) : re :=
  match n with
  | 0 => Eps
  | S n => Seq r (Rep n r)
  end.

Definition lit (c : ascii) : re := Chr (Ascii.eqb c).
Definition range (a b : ascii) : re :=
  Chr (λ c, (nat_of_ascii a <=? nat_of_ascii c) && (nat_of_ascii c <=? nat_of_ascii b)).
(** [\d] *)
Definition digit : re := range "0" "9".

(** [\w] for a character below 256. *)
Definition is_word (c : ascii) : bool :=
  let n := nat_of_ascii c in
  ((48 <=? n) && (n <=? 57)) || ((65 <=? n) && (n <=? 90))
  || ((97 <=? n) && (n <=? 122)) || (n =? 95)
  || (n =? 170) || (n =? 178) || (n =? 179) || (n =? 181) || (n =? 185)
  || (n =? 186) || ((188 <=? n) && (n <=? 190))
  || ((192 <=? n) && (n <=? 214)) || ((216 <=? n) && (n <=? 246))
  || (248 <=? n).

Definition word_before (prev : option ascii) : bool := from_option is_word false prev.
Definition word_after (s : list ascii) : bool := from_option is_word false (head s).

(** Backtracking matching at one position: [prev] is the character before
    it, [s] the text from it on, [k] what remains to be matched. The
    result is the text left after the whole match. Alternatives are tried
    in order, and the next one only when everything after the first
    fails. *)
Fixpoint rmatch (r : re) (prev : option ascii) (s : list ascii)
    (k : option ascii → list ascii → option (list ascii))
  : option (list ascii) :=
  match r with
  | Eps => k prev s
  | Chr p =>
      match s with
      | c :: s' => if p c then k (Some c) s' else None
      | [] => None
      end
  | Seq r1 r2 => rmatch r1 prev s (λ prev' s', rmatch r2 prev' s' k)
  | Alt r1 r2 =>
      match rmatch r1 prev s k with
      | Some rest => Some rest
      | None => rmatch r2 prev s k
      end
  | WordB => if xorb (word_before prev) (word_after s) then k prev s else None
  end.

(** The match that starts here, if there is one. *)
Definition match_here (r : re) (prev : option ascii) (s : list ascii)
  : option (list ascii) :=
  (λ rest, take (length s - length rest) s) <$> rmatch r prev s (λ _ rest, Some rest).

(** The scan of [findall]: leftmost matches that do not overlap; [skip]
    counts the characters of the last match still to be passed. *)
Fixpoint scan (r : re) (prev : option ascii) (s : list ascii) (skip : nat)
  : list string :=
  match s with
  | [] =>
      match skip, match_here r prev [] with
      | 0, Some _ => [EmptyString]
      | _, _ => []
      end
  | c :: s' =>
      match skip with
      | S n => scan r (Some c) s' n
      | 0 =>
          match match_here r prev s with
          | Some m =>
              string_of_list_ascii m :: scan r (Some c) s' (length m - 1)
          | None => scan r (Some c) s' 0
          end
      end
  end.

(** [r.findall(text)] for a pattern without groups. *)
Definition findall (r : re) (text : string) : list string :=
  scan r None (list_ascii_of_string text) 0.

End Regex.

(** ** Extraction (extract/generic.py) *)

Module Extract.
Import Facts Py Regex.

(** [(?:25[0-5]|2[0-4]\d|[01]?\d?\d)] *)
Definition octet : re :=
  Alt (Seq (lit "2") (Seq (lit "5") (range "0" "5")))
      (Alt (Seq (lit "2") (Seq (range "0" "4") digit))
           (Seq (Opt (range "0" "1")) (Seq (Opt digit) digit))).

(** [RE_IPV4] *)
Definition RE_IPV4 : re :=
  Seq WordB (Seq (Rep 3 (Seq octet (lit "."))) (Seq octet WordB)).

(** [sorted(set(l))] for strings and for integers. *)
Definition sorted_set (l : list string) : list string :=
  merge_sort String.le (remove_dups l).
Definition sorted_set_Z (l : list Z) : list Z :=
  merge_sort Z.le (remove_dups l).

(** What the other patterns find in a text: the results of [findall], the
    whole matches of [finditer] for [RE_BANNER] and [RE_ERROR], groups 3 and
    6 for [RE_USERPASS], both groups for [RE_PAIR]. *)
Record matches := Matches {
  m_ipv6 : list string;
  m_url : list string;
  m_dom : list string;
  m_email : list string;
  m_cve : list string;
  m_port : list string;
  m_service : list string;
  m_file : list string;
  m_banner : list string;
  m_error : list string;
  m_userpass : list (string * string);
  m_pair : list (string * string)
}.

(** [s.split(sep)[-1]] for a [sep] that cannot overlap itself: what follows
    the last [sep], all of [s] when there is none. *)
Fixpoint after_last_go (sep : string) (s : string) : option string :=
  match s with
  | EmptyString => None
  | String c r =>
      match after_last_go sep r with
      | Some rest => Some rest
      | None =>
          if startswith sep s
          then Some (String.substring (String.length sep) (String.length s) s)
          else None
      end
  end.

Definition after_last (sep : string) (s : string) : string :=
  default s (after_last_go sep s).

(** [s.split(c)[0]] *)
Fixpoint before_first (c : ascii) (s : string) : string :=
  match s with
  | EmptyString => EmptyString
  | String d r => if Ascii.eqb d c then EmptyString else String d (before_first c r)
  end.

(** [u.split("://")[-1].split("/")[0].lower()] *)
Definition url_host (u : string) : string :=
  lower (before_first "/" (after_last "://" u)).

(** [int(p)] for a string of digits. *)
Definition int_of (p : string) : Z := Decoder.digits_value (list_ascii_of_string p).

(** [f"{label}:{len(l)}"] when [l] is not empty. *)
Definition indicator {A} (label : string) (l : list A) : list atom :=
  match l with
  | [] => []
  | _ => [AStr (label +:+ ":" +:+ pretty (length l))]
  end.

Section ExtractFromText.

Variable other : string → matches.

(** [extract_from_text(text)] *)
Definition extract_from_text (text : string) : gmap string value :=
  if bool_decide (text = EmptyString) then _empty
  else
    let m := other text in
    let ips := findall RE_IPV4 text in
    let urls := m_url m in
    let doms := filter (λ d, lower d ∉ (url_host <$> urls)) (m_dom m) in
    let ports := int_of <$> m_port m in
    let pairs :=
      ((λ '(u, p), u +:+ ":" +:+ p) <$> m_userpass m)
      ++ ((λ '(u, p), u +:+ ":" +:+ p)
            <$> filter (λ '(u, p), ¬ (String.length u ≤ 2 ∨ String.length p ≤ 2))
                       (m_pair m)) in
    <["entities" := VDict (<["ips" := AStr <$> sorted_set ips]>
                          (<["ipv6" := AStr <$> sorted_set (m_ipv6 m)]>
                          (<["urls" := AStr <$> sorted_set urls]>
                          (<["domains" := AStr <$> sorted_set doms]>
                          (<["emails" := AStr <$> sorted_set (m_email m)]> ∅)))))]>
    (<["artifacts" := VDict (<["ports" := AInt <$> sorted_set_Z ports]>
                            (<["services" := AStr <$> sorted_set (lower <$> m_service m)]>
                            (<["files" := AStr <$> sorted_set (m_file m)]>
                            (<["banners" :=
                                 _extend_unique [] (AStr <$> (strip <$> m_banner m))]> ∅))))]>
    (<["vulns" := VDict (<["cves" := AStr <$> sorted_set (m_cve m)]> ∅)]>
    (<["creds" := VDict (<["usernames" := AStr <$> (m_userpass m).*1]>
                        (<["passwords" := AStr <$> (m_userpass m).*2]>
                        (<["pairs" := AStr <$> pairs]> ∅)))]>
    (<["errors" := VList (_extend_unique [] (AStr <$> (strip <$> m_error m)))]>
    (<["indicators" :=
         VList (indicator "ips" ips ++ indicator "urls" urls
                ++ indicator "cves" (m_cve m) ++ indicator "creds" pairs
                ++ indicator "ports" ports)]> ∅))))).

(** [extract_from_text(text)["entities"]["ips"]] *)
Definition entities_ips (text : string) : list atom :=
  Topics.leaf (extract_from_text text) "entities" "ips".

End ExtractFromText.

(** Sample data: a command line naming three addresses, one of them
    twice, and a text where no other pattern finds anything. *)
Definition sample_scan : string :=
  "nmap 192.168.1.10 10.0.0.5 8.8.8.8 && ping 192.168.1.10".

Definition no_matches (text : string) : matches :=
  Matches [] [] [] [] [] [] [] [] [] [] [] [].

End Extract.

(** ** The retrieval store (rag/retriever.py) *)

Module Retriever.
Import Py.

(** [s.split()]: the maximal runs of characters that are not white space. *)
Fixpoint split_ws_go (cur : option string) (s : string) : list string :=
  match s with
  | EmptyString => option_list (String.rev <$> cur)
  | String c r =>
      if is_space c then option_list (String.rev <$> cur) ++ split_ws_go None r
      else split_ws_go (Some (String c (default EmptyString cur))) r
  end.
Definition split_ws (s : string) : list string := split_ws_go None s.

(** [s.split(c)] for a one-character [c]. *)
Fixpoint split_char_go (c : ascii) (cur : string) (s : string) : list string :=
  match s with
  | EmptyString => [String.rev cur]
  | String d r =>
      if Ascii.eqb d c then String.rev cur :: split_char_go c EmptyString r
      else split_char_go c (String d cur) r
  end.
Definition split_char (c : ascii) (s : string) : list string :=
  split_char_go c EmptyString s.

(** [_norm(s)] *)
Definition _norm (s : string) : string := join " " (split_ws s).

Definition newline : string := String "010" EmptyString.

(** A parsed document, as far as [_chunk_html] looks at it: the name and
    the text ([el.get_text(" ", strip=True)]) of each element that
    [find_all(["h1", "h2", "p", "li", "pre", "code"])] returns, in order,
    and the text of the whole document ([soup.get_text(" ", strip=True)]). *)
Record soup := Soup {
  elements : list (string * string);
  whole_text : string
}.

Record chunk := Chunk {
  title : string;
  text : string;
  tags : string
}.

(** The variables of the loop of [_chunk_html]. *)
Record chunker := Chunker {
  chunks_so_far : list chunk;
  cur_title : option string;
  cur_buf : list string;
  cur_tag : string
}.

Definition lower_name (name : string) : string := lower name.

(** [if cur_title and cur_buf: chunks.append(...)] *)
Definition flush (st : chunker) : list chunk :=
  match cur_title st with
  | Some t =>
      if truthy (JStr t) && bool_decide (cur_buf st ≠ [])
      then chunks_so_far st
             ++ [Chunk (_norm t) (_norm (join newline (cur_buf st))) (cur_tag st)]
      else chunks_so_far st
  | None => chunks_so_far st
  end.

(** One round of the loop over the elements. *)
Definition chunk_step (st : chunker) (el : string * string) : chunker :=
  let '(name, txt) := el in
  if bool_decide (lower_name name = "h1") || bool_decide (lower_name name = "h2")
  then Chunker (flush st) (Some txt) [] txt
  else if truthy (JStr txt)
       then Chunker (chunks_so_far st) (cur_title st) (cur_buf st ++ [txt]) (cur_tag st)
       else st.

(** [_chunk_html(soup)] *)
Definition _chunk_html (doc : soup) : list chunk :=
  let chunks := flush (foldl chunk_step (Chunker [] None [] EmptyString) (elements doc)) in
  match chunks with
  | [] =>
      let whole := _norm (whole_text doc) in
      if truthy (JStr whole) then [Chunk "Notes" (prefix (60 * 100) whole) "General"]
      else []
  | _ => chunks
  end.

(** The tags of a chunk as [ingest_html] stores them. *)
Definition tags_csv (ch : chunk) : string :=
  let raw := if truthy (JStr (tags ch)) then tags ch else "General" in
  let parts := filter (λ t, truthy (JStr t) = true) (strip <$> split_char "," raw) in
  let csv := join "," parts in
  if truthy (JStr csv) then csv else "General".

(** A row of [chunks] without its id, and of [chunks_fts]: title, text,
    tags. *)
Definition row : Type := string * string * string.

(** The database: the table [chunks], keyed by [id], each row with its
    rowid, and the full-text table [chunks_fts], keyed by rowid. *)
Record db := Db {
  chunks : gmap string (nat * row);
  chunks_fts : gmap nat row
}.

(** The rowid a new row of [chunks] receives: one more than the largest. *)
Definition fresh_rowid (t : gmap string (nat * row)) : nat :=
  S (map_fold (λ _ '(r, _) m, max r m) 0 t).

(** The rowid of [cid] once the first statement of [_upsert_chunk] has
    run: an existing row keeps its own. *)
Definition rowid_for (t : gmap string (nat * row)) (cid : string) : nat :=
  match t !! cid with
  | Some (r, _) => r
  | None => fresh_rowid t
  end.

(** [_upsert_chunk(con, cid, title, text, tags_csv)] *)
Definition _upsert_chunk (d : db) (entry : string * row) : db :=
  let '(cid, rw) := entry in
  let rowid := rowid_for (chunks d) cid in
  Db (<[cid := (rowid, rw)]> (chunks d)) (<[rowid := rw]> (chunks_fts d)).

Section Ingest.

(** [hashlib.sha1(s.encode("utf-8")).hexdigest()] *)
Variable sha1_hex : string → string.

(** [cid] in the loop of [ingest_html]. *)
Definition chunk_id (path : string) (i : nat) (title : string) : string :=
  sha1_hex (path +:+ ":" +:+ pretty i +:+ ":" +:+ title).

(** What the loop of [ingest_html] passes to [_upsert_chunk]. *)
Definition entries (path : string) (cs : list chunk) : list (string * row) :=
  imap (λ i ch, (chunk_id path i (title ch), (title ch, text ch, tags_csv ch))) cs.

(** The ids of the chunks of a document. *)
Definition chunk_ids (path : string) (doc : soup) : list string :=
  (entries path (_chunk_html doc)).*1.

(** [ingest_html(path)], [doc] being what the parser makes of the file
    under [path]: the database afterwards and the count returned. *)
Definition ingest_html (path : string) (doc : soup) (d : db) : db * nat :=
  let cs := _chunk_html doc in
  (foldl _upsert_chunk d (entries path cs), length cs).

End Ingest.

(** The statements of a run of upserts: each writes a row of [chunks]
    under an id and a row of [chunks_fts] under a rowid. *)
Definition write (d : db) (w : string * nat * row) : db :=
  let '(cid, rowid, rw) := w in
  Db (<[cid := (rowid, rw)]> (chunks d)) (<[rowid := rw]> (chunks_fts d)).

Fixpoint trace (t : gmap string (nat * row)) (es : list (string * row))
  : list (string * nat * row) :=
  match es with
  | [] => []
  | (cid, rw) :: es' =>
      let rowid := rowid_for t cid in
      (cid, rowid, rw) :: trace (<[cid := (rowid, rw)]> t) es'
  end.

(** The writes of a trace to each of the two tables. *)
Definition chunk_write (w : string * nat * row) : string * (nat * row) :=
  let '(cid, rowid, rw) := w in (cid, (rowid, rw)).
Definition fts_write (w : string * nat * row) : nat * row :=
  let '(_, rowid, rw) := w in (rowid, rw).

(** [t[k] = v] for each pair of a list, in order. *)
Definition put `{Countable K} {V} (t : gmap K V) (kv : K * V) : gmap K V :=
  <[kv.1 := kv.2]> t.

(** Sample data: a document of two sections and a hash for it. *)
Definition sample_doc : soup :=
  Soup [("h1", "Recon"); ("p", "Start with  passive  sources."); ("li", "whois");
        ("h2", "Web"); ("p", "Enumerate virtual hosts.")] "".

Definition sample_hash (s : string) : string := "sha1(" +:+ s +:+ ")".

End Retriever.

(** ** The backends (utils/redact.py, utils/prompt.py,
    providers/openai_client.py, providers/anthropic_client.py) *)

Module Providers.
Import Py Plan.

(** [x[:n]] and [x[-n:]] for [0 < n]; only sequences can be sliced. *)
Definition last_n {A} (n : nat) (l : list A) : list A := drop (length l - n) l.
Definition sdrop (n : nat) (s : string) : string :=
  String.substring n (String.length s) s.

Definition slice_first (n : nat) (x : json) : result json :=
  match x with
  | JList l => Ok (JList (take n l))
  | JStr s => Ok (JStr (prefix n s))
  | _ => Raise "TypeError: object is not subscriptable"
  end.

Definition slice_last (n : nat) (x : json) : result json :=
  match x with
  | JList l => Ok (JList (last_n n l))
  | JStr s => Ok (JStr (sdrop (String.length s - n) s))
  | _ => Raise "TypeError: object is not subscriptable"
  end.

(** [x.get(k)] and [x.get(k, dflt)] for an [x] that may not be a dict. *)
Definition dict_get_or (k : string) (dflt : json) (x : json) : result json :=
  match x with
  | JDict d => Ok (get_or k dflt d)
  | _ => Raise "AttributeError: object has no attribute 'get'"
  end.
Definition dict_get (k : string) (x : json) : result json := dict_get_or k JNull x.

(** [s.find(sub)] *)
Fixpoint find_sub (sub s : string) : option nat :=
  if startswith sub s then Some 0
  else match s with
       | EmptyString => None
       | String _ r => S <$> find_sub sub r
       end.

(** [os.environ.get(k)] as a condition and as a value. *)
Definition getenv (env : gmap string string) (k : string) : string :=
  default EmptyString (env !! k).

(** A request to a hosted backend and the response to it. *)
Record request := Request {
  rq_model : string;
  rq_system : string;
  rq_user : string
}.

Record response := Response {
  status_code : nat;
  r_text : string;
  r_json : result json
}.

Section Hosted.

(** Library code: [json.loads], [json.dumps], [repr]. *)
Variable json_loads : string → option json.
Variable json_dumps : json → string.
Variable py_repr : json → string.

(** [_redact_text]: the substitutions of the table [_PATTERNS], which no
    property below looks into. *)
Variable _redact_text : string → string.

(** [os.environ] *)
Variable env : gmap string string.

(** [walk] of [redact] *)
Fixpoint walk (x : json) : json :=
  match x with
  | JDict d => JDict (map (λ kv, match kv with (k, v) => (k, walk v) end) d)
  | JList l => JList (map walk l)
  | JStr s => JStr (_redact_text s)
  | _ => x
  end.

(** [redact(payload, allow_cloud)] *)
Definition redact (payload : json) (allow_cloud : bool) : json :=
  if allow_cloud then payload else walk payload.

(** *** OpenAI *)

(** [_system_prompt()], a constant text. *)
Variable system_prompt : string.

(** [client.responses.create] followed by the reading of its output text
    (first argument [true]) and [client.chat.completions.create] followed
    by [r.choices[0].message.content or ""] (first argument [false]): the
    text obtained, or the exception raised. *)
Variable openai_create : bool → request → result string.

Definition _want_responses_api (model : string) : bool :=
  let m := lower model in startswith "gpt-5" m || startswith "o5" m.

(** [_user_payload(payload)] *)
Definition _user_payload (payload : json) : result string :=
  profile ← dict_get "profile" payload;
  last_cmd ← dict_get "last_cmd" payload;
  cwd ← dict_get "cwd" payload;
  exit ← dict_get "exit" payload;
  facts ← dict_get "parsed_facts" payload;
  events ← dict_get_or "recent_events" (JList []) payload;
  recent ← slice_last 8 events;
  snippets ← dict_get_or "retrieved_snippets" (JList []) payload;
  first ← slice_first 4 snippets;
  Ok (json_dumps (JDict [("profile", profile); ("last_cmd", last_cmd);
                         ("cwd", cwd); ("exit", exit); ("parsed_facts", facts);
                         ("recent_events", recent);
                         ("retrieved_snippets", first)])).

Definition _fallback_plan (msg : string) : json := plan_json (note_plan [msg]).

(** [_coerce_json(text)] *)
Definition _coerce_json (text : string) : json :=
  match json_loads text with
  | Some v => v
  | None =>
      _fallback_plan ("openai_error:could_not_parse_json: " +:+ prefix 180 text)
  end.

(** [models_to_try] *)
Definition default_fallbacks : list string :=
  ["gpt-4o-mini"; "gpt-4o-mini-2024-07-18"; "gpt-4o"].

Definition env_fallbacks : list string :=
  filter (λ m, truthy (JStr m) = true)
         (strip <$> Retriever.split_char "," (getenv env "AIC_OPENAI_FALLBACKS")).

Definition models_to_try (model : string) : list string :=
  model :: (if truthy (JStr (getenv env "AIC_OPENAI_FALLBACKS"))
            then env_fallbacks else default_fallbacks).

(** One call: [_call_responses] or [_call_chat]. *)
Definition call_model (rq : request) : result json :=
  if _want_responses_api (rq_model rq)
  then out ← openai_create true rq; Ok (_coerce_json out)
  else txt ← openai_create false rq; Ok (_coerce_json (strip txt)).

(** The loop [for m in models_to_try]: the requests made so far, the last
    exception, and the result when a call returned. *)
Fixpoint try_models (ms : list string) (user_blob : string)
    (sent : list request) (last_err : option string)
  : list request * option string * option json :=
  match ms with
  | [] => (sent, last_err, None)
  | m :: ms' =>
      let rq := Request m system_prompt user_blob in
      match call_model rq with
      | Ok plan => (sent ++ [rq], last_err, Some plan)
      | Raise e => try_models ms' user_blob (sent ++ [rq]) (Some e)
      end
  end.

(** [plan_with_openai(model, payload, allow_cloud)]: the requests made, in
    order, and the value returned. *)
Definition plan_with_openai (model : string) (payload : json) (allow_cloud : bool)
  : result (list request * json) :=
  if negb (truthy (JStr (getenv env "OPENAI_API_KEY")))
  then Ok ([], _fallback_plan "openai_error:missing_api_key")
  else
    user_blob ← _user_payload (redact payload allow_cloud);
    let chain := models_to_try model in
    match try_models chain user_blob [] None with
    | (sent, _, Some plan) => Ok (sent, plan)
    | (sent, last_err, None) =>
        Ok (sent,
            _fallback_plan ("openai_error:" +:+ from_option id "None" last_err
                            +:+ "; model_chain_tried="
                            +:+ py_repr (JList (JStr <$> chain))))
    end.

(** *** Anthropic *)

(** [TEMPLATE.format(input_blob=s)] for the constant text [TEMPLATE]. *)
Variable TEMPLATE_format : string → string.

(** [requests.post(ANTHROPIC_URL, ...)] for a model and a prompt, the rest
    of the request being constant: the response, or the exception. *)
Variable anthropic_post : string → string → result response.

(** [build_prompt(payload)] *)
Definition build_prompt (payload : json) : result string :=
  profile ← dict_get "profile" payload;
  last_cmd ← dict_get "last_cmd" payload;
  exit ← dict_get "exit" payload;
  cwd ← dict_get "cwd" payload;
  facts ← dict_get "parsed_facts" payload;
  snippets ← dict_get_or "retrieved_snippets" (JList []) payload;
  first ← slice_first 3 snippets;
  events ← dict_get_or "recent_events" (JList []) payload;
  recent ← slice_last 6 events;
  es ← to_list recent;
  cmds ← mapM (dict_get "cmd") es;
  Ok (TEMPLATE_format
        (json_dumps (JDict [("profile", profile); ("last_cmd", last_cmd);
                            ("exit", exit); ("cwd", cwd); ("facts", facts);
                            ("retrieved_snippets", first);
                            ("recent_cmds", JList cmds)]))).

(** [_shape_plan(obj)] of anthropic_client.py *)
Definition shape_action_a (a : json) : option suggestion :=
  match a with
  | JDict e =>
      Some {| cmd := strip (py_str py_repr (get_or "cmd" (JStr "") e));
              reason := strip (py_str py_repr (get_or "reason" (JStr "") e));
              noise := strip (py_str py_repr
                         (or_else (get_or "noise" (JStr "") e) (JStr "low")));
              safety := strip (py_str py_repr
                         (or_else (get_or "safety" (JStr "") e) (JStr "read-only"))) |}
  | _ => None
  end.

Definition shape_texts_a (x : json) : list string :=
  match x with
  | JList l => py_str py_repr <$> filter (λ n, truthy n = true) l
  | JStr s => [s]
  | _ => []
  end.

Definition _shape_plan_a (obj : json) : plan :=
  match obj with
  | JDict d =>
      let na := or_else (or_else (get "next_actions" d) (get "actions" d))
                        (JList []) in
      {| next_actions :=
           match na with
           | JList l =>
               filter (λ a, truthy (JStr (cmd a)) = true) (omap shape_action_a l)
           | _ => []
           end;
         notes := shape_texts_a (get "notes" d);
         escalation_paths := shape_texts_a (get "escalation_paths" d) |}
  | _ => MkPlan [] [] []
  end.

(** [re.sub(r"```.*?```", "", s, flags=re.S)]: each fenced block, from an
    opening fence to the next one, is removed. *)
Definition fence : string := "```".

Fixpoint remove_fences (fuel : nat) (s : string) : string :=
  match fuel with
  | 0 => s
  | S fuel =>
      match s with
      | EmptyString => EmptyString
      | String c r =>
          if startswith fence s then
            match find_sub fence (sdrop 3 s) with
            | Some i => remove_fences fuel (sdrop (3 + i + 3) s)
            | None => String c (remove_fences fuel r)
            end
          else String c (remove_fences fuel r)
      end
  end.

(** [_sanitize_for_markup(s)] *)
Definition _sanitize_for_markup (s : string) : string :=
  replace_char "]" ")" (replace_char "[" "(" (remove_fences (String.length s) s)).

(** The text of a response: the [text] of its blocks of type "text". *)
Definition block_text (block : json) : result (option string) :=
  match block with
  | JDict b =>
      if match get "type" b with JStr t => String.eqb t "text" | _ => false end then
        match get_or "text" (JStr "") b with
        | JStr t => Ok (Some t)
        | _ => Raise "TypeError: sequence item: expected str instance"
        end
      else Ok None
  | _ => Ok None
  end.

Definition response_text (r : response) : result string :=
  data ← r_json r;
  content ← dict_get "content" data;
  blocks ← to_list (or_else content (JList []));
  texts ← mapM block_text blocks;
  Ok (join "" (omap id texts)).

(** [plan_with_anthropic(model, payload, allow_cloud)]: the requests
    posted, as model and prompt, and the value returned. *)
Definition plan_with_anthropic (model : string) (payload : json)
    (allow_cloud : bool) : result (list (string * string) * plan) :=
  if negb (truthy (JStr (getenv env "ANTHROPIC_API_KEY")))
  then Ok ([], note_plan ["missing ANTHROPIC_API_KEY"])
  else
    let model :=
      strip_char dquote (strip_char squote (strip
        (if truthy (JStr model) then model else getenv env "AIC_ANTHROPIC_MODEL"))) in
    if negb (truthy (JStr model))
    then Ok ([], note_plan ["anthropic_error:empty_model"])
    else
      prompt ← build_prompt (redact payload allow_cloud);
      let sent := [(model, prompt)] in
      match anthropic_post model prompt with
      | Raise e => Ok (sent, note_plan ["anthropic_request_error:" +:+ e])
      | Ok r =>
          if 400 <=? status_code r
          then Ok (sent, note_plan ["anthropic_error:" +:+ pretty (status_code r);
                                    _sanitize_for_markup (prefix 200 (r_text r))])
          else
            match response_text r with
            | Raise e => Ok (sent, note_plan ["anthropic_bad_json:" +:+ e])
            | Ok text =>
                match _extract_json json_loads text with
                | Some obj =>
                    if truthy obj then
                      let p := _shape_plan_a obj in
                      Ok (sent, MkPlan (next_actions p)
                                       (_sanitize_for_markup <$> notes p)
                                       (escalation_paths p))
                    else Ok (sent, note_plan ["unparsable_llm_output";
                                              prefix 300 (_sanitize_for_markup text)])
                | None => Ok (sent, note_plan ["unparsable_llm_output";
                                               prefix 300 (_sanitize_for_markup text)])
                end
            end
      end.

End Hosted.

(** The models a run of [plan_with_openai] called. *)
Definition models_called (r : result (list request * json)) : list string :=
  match r with
  | Ok (sent, _) => rq_model <$> sent
  | Raise _ => []
  end.

(** Sample data: an environment with both keys and a fallback list, a
    payload with a private address in it, stand-ins for the library
    functions, a redactor that masks everything, and backends that refuse
    the model "m1" and answer every other one. *)
Definition sample_env : gmap string string :=
  <["OPENAI_API_KEY" := "sk-test"]>
  (<["ANTHROPIC_API_KEY" := "sk-ant-test"]>
  (<["AIC_OPENAI_FALLBACKS" := "m2, m3"]>
  (<["AIC_ANTHROPIC_FALLBACKS" := "m2, m3"]> ∅))).

Definition sample_payload : json :=
  JDict [("profile", JStr "prod-safe"); ("recent_events", JList []);
         ("last_cmd", JStr "ssh root@10.0.0.5"); ("cwd", JStr "/root");
         ("exit", JInt 0); ("parsed_facts", JDict []);
         ("retrieved_snippets", JList [])].

Definition sample_dumps (x : json) : string :=
  match x with
  | JDict d => match assoc "last_cmd" d with Some (JStr c) => c | _ => "" end
  | _ => ""
  end.

Definition sample_redact_text (s : string) : string := "<redacted>".

Definition sample_openai (responses : bool) (rq : request) : result string :=
  if String.eqb (rq_model rq) "m1" then Raise "model_not_found" else Ok "{}".

Definition sample_post (model prompt : string) : result response :=
  if String.eqb model "m1" then Raise "connection refused"
  else Ok (Response 200 "" (Ok (JDict []))).

End Providers.

(** ** The local backend (providers/local_ollama.py) *)

Module Ollama.
Import Py Plan Providers.

(** [r.ok] *)
Definition ok (r : response) : bool := status_code r <? 400.

(** How [subprocess.run(["ollama", "pull", tag], check=True, ...)] ends:
    it returns, the binary is missing, or the command fails, with its
    output and the text of the exception. *)
Inductive pull_outcome :=
| PullDone
| PullNoBinary
| PullFailed (stdout : string) (msg : string).

Section Local.

Variable json_loads : string → option json.
Variable json_dumps : json → string.
Variable py_repr : json → string.
Variable env : gmap string string.

(** The f-string of [_build_prompt], as a function of what fills its
    holes: cwd, last_cmd, exit_code, the facts, the recent lines, the
    snippet lines. *)
Variable instruction : string → string → string → string → string → string → string.

(** The outside world: the [n]-th [GET /api/version] (the first is that of
    [_ensure_server]), whether [Popen(["ollama", "serve"])] returns,
    [GET /api/tags], the [n]-th [ollama pull], and the [n]-th
    [POST /api/generate] for a model and a prompt. *)
Variable get_version : nat → result response.
Variable popen_serve : bool.
Variable get_tags : result response.
Variable run_pull : nat → string → pull_outcome.
Variable post_generate : nat → string → string → result response.

(** [_clean_tag(tag)] *)
Definition _clean_tag (tag : string) : string :=
  if truthy (JStr tag) then strip_char squote (strip_char dquote (strip tag))
  else EmptyString.

(** [_try_start_server()] *)
Definition _try_start_server : bool :=
  popen_serve &&
  existsb (λ i, match get_version (S i) with
                | Ok r => ok r
                | Raise _ => false
                end) (seq 0 10).

(** [_ensure_server()] *)
Definition _ensure_server : option string :=
  match get_version 0 with
  | Ok r => if ok r then None
            else Some ("ollama_error:http_" +:+ pretty (status_code r))
  | Raise _ => if _try_start_server then None
               else Some "ollama_error:server_unreachable"
  end.

(** [_installed_models()] *)
Definition _installed_models : list json :=
  match (r ← get_tags;
         if ok r then
           data ← r_json r;
           models ← dict_get_or "models" (JList []) data;
           ms ← to_list models;
           names ← mapM (λ m, name ← dict_get "name" m;
                              name' ← dict_get_or "name" (JStr "") m;
                              Ok (if truthy name then Some name' else None)) ms;
           Ok (omap id names)
         else Ok []) with
  | Ok l => l
  | Raise _ => []
  end.

(** [model not in installed] *)
Definition installed (model : string) : bool :=
  existsb (λ x, match x with JStr s => String.eqb s model | _ => false end)
          _installed_models.

(** [_pull_model(tag)], as the [n]-th pull. *)
Definition _pull_model (n : nat) (tag : string) : option string :=
  if negb (truthy (JStr tag)) then Some "ollama_pull_failed:empty_tag"
  else match run_pull n tag with
       | PullDone => None
       | PullNoBinary => Some "ollama_pull_failed:binary_not_found"
       | PullFailed stdout msg =>
           Some ("ollama_pull_failed:"
                 +:+ (if truthy (JStr (strip stdout)) then strip stdout else msg))
       end.

(** A line of [snippet_lines]. *)
Definition snippet_line (s : json) : result string :=
  t ← dict_get_or "title" (JStr "") s;
  title ← slice_first 80 t;
  g ← dict_get_or "gist" (JStr "") s;
  gist ← slice_first 220 g;
  match gist with
  | JStr g' =>
      Ok ("- " +:+ py_str py_repr title +:+ ": " +:+ replace_char "010" " " g')
  | _ => Raise "AttributeError: 'list' object has no attribute 'replace'"
  end.

(** A line of [recent_lines]; an entry that raises is passed over. *)
Definition recent_line (e : json) : option string :=
  match (c ← dict_get_or "cmd" (JStr "") e;
         cmd ← slice_first 140 c;
         rc ← dict_get_or "exit" (JStr "") e;
         Ok ("- rc=" +:+ py_str py_repr rc +:+ " :: " +:+ py_str py_repr cmd)) with
  | Ok line => Some line
  | Raise _ => None
  end.

(** [_build_prompt(payload)] *)
Definition _build_prompt (payload : json) : result string :=
  last_cmd ← dict_get "last_cmd" payload;
  cwd ← dict_get "cwd" payload;
  exit_code ← dict_get "exit" payload;
  facts ← dict_get "parsed_facts" payload;
  snippets ← dict_get "retrieved_snippets" payload;
  recent ← dict_get "recent_events" payload;
  first ← slice_first 4 (or_else snippets (JList []));
  ss ← to_list first;
  snippet_lines ← mapM snippet_line ss;
  last ← slice_last 6 (or_else recent (JList []));
  es ← to_list last;
  Ok (strip (instruction
               (py_str py_repr (or_else cwd (JStr "")))
               (py_str py_repr (or_else last_cmd (JStr "")))
               (py_str py_repr exit_code)
               (prefix 1600 (json_dumps (or_else facts (JDict []))))
               (join Retriever.newline (omap recent_line es))
               (join Retriever.newline snippet_lines))).

(** [err_text] of a response that is not ok. *)
Definition err_text (r : response) : string :=
  match r_json r with
  | Ok v => json_dumps v
  | Raise _ => r_text r
  end.

Definition http_error_notes (r : response) : list string :=
  ["ollama_http_error:" +:+ pretty (status_code r);
   _sanitize py_repr (JStr (err_text r))].

(** The end of [plan_with_ollama], from [# Parse response] on. *)
Definition parse_response (notes0 : list string) (r : response) : result plan :=
  match (data ← r_json r; dict_get_or "response" (JStr "") data) with
  | Raise e => Ok (note_plan (notes0 ++ ["ollama_bad_json:" +:+ e]))
  | Ok v =>
      match or_else v (JStr "") with
      | JStr raw => Ok (normalize_response py_repr json_loads notes0 raw)
      | _ => Raise "AttributeError: object has no attribute 'find'"
      end
  end.

(** [plan_with_ollama(model, payload, allow_cloud)]: the requests posted
    to [/api/generate], as model and prompt, and the plan returned. *)
Definition plan_with_ollama (model : string) (payload : json) (allow_cloud : bool)
  : result (list (string * string) * plan) :=
  match _ensure_server with
  | Some server_err => Ok ([], note_plan [_sanitize py_repr (JStr server_err)])
  | None =>
      let model :=
        _clean_tag (if truthy (JStr model) then model
                    else default "llama3.2:1b" (env !! "AIC_LOCAL_MODEL")) in
      if negb (truthy (JStr model))
      then Ok ([], note_plan ["ollama_error:empty_model_tag"])
      else
        let missing := negb (installed model) in
        let notes1 :=
          if missing then ["ollama_model_missing:'" +:+ model +:+ "'"] else [] in
        match (if missing then _pull_model 0 model else None) with
        | Some pull_err => Ok ([], note_plan (notes1 ++ [pull_err]))
        | None =>
            prompt ← _build_prompt payload;
            let pulls := if missing then 1 else 0 in
            let rq := (model, prompt) in
            match post_generate 0 model prompt with
            | Raise e => Ok ([rq], note_plan (notes1 ++ ["ollama_request_error:" +:+ e]))
            | Ok r =>
                if ok r then
                  p ← parse_response notes1 r; Ok ([rq], p)
                else if (status_code r =? 400)
                        && bool_decide (is_Some (find_sub "invalid model name"
                                                          (lower (err_text r))))
                then
                  match _pull_model pulls model with
                  | Some pull_err => Ok ([rq], note_plan (notes1 ++ [pull_err]))
                  | None =>
                      match post_generate 1 model prompt with
                      | Raise e =>
                          Ok ([rq; rq],
                              note_plan (notes1 ++ ["ollama_request_error:" +:+ e]))
                      | Ok r2 =>
                          if ok r2 then
                            p ← parse_response notes1 r2; Ok ([rq; rq], p)
                          else Ok ([rq; rq],
                                   note_plan (notes1 ++ http_error_notes r2))
                      end
                  end
                else Ok ([rq], note_plan (notes1 ++ http_error_notes r))
            end
        end
  end.

End Local.

(** Sample data: a server that is up, has the model "m1" and answers
    every prompt with an empty plan, and an instruction text that is the
    last command alone. *)
Definition sample_instruction (cwd last_cmd exit_code facts recent snippets : string)
  : string := last_cmd.

Definition sample_version (n : nat) : result response :=
  Ok (Response 200 "" (Ok (JDict []))).

Definition sample_tags : result response :=
  Ok (Response 200 ""
        (Ok (JDict [("models", JList [JDict [("name", JStr "m1")]])]))).

Definition sample_pull (n : nat) (tag : string) : pull_outcome := PullDone.

Definition sample_generate (n : nat) (model prompt : string) : result response :=
  Ok (Response 200 "" (Ok (JDict [("response", JStr "{}")]))).

End Ollama.

(** ** The agent loop (agent/agent.py) *)

Module Agent.
Import Facts Py Plan Topics.

(** [LogEvent] of utils/schema.py. *)
Record LogEvent := MkLogEvent {
  ts : option string;
  cmd : string;
  exit : Z;
  cwd : option string;
  out : option string
}.

(** A row of [retrieve]. *)
Record hit := Hit {
  h_id : string;
  h_title : string;
  h_tags : string;
  h_text : string
}.

(** A line of the audit log, before [json.dumps]. *)
Record audit_record := Audit {
  a_ts : option string;
  a_cmd : string;
  a_cwd : option string;
  a_exit : Z;
  a_facts : gmap string value;
  a_plan : coerced
}.

(** The facts as the JSON value they are. The keys come in the order of
    the map, which only the text of [json.dumps] could tell from Python's
    insertion order. *)
Definition atom_json (a : atom) : json :=
  match a with
  | AStr s => JStr s
  | AInt n => JInt n
  end.

Definition value_json (v : value) : json :=
  match v with
  | VList l => JList (atom_json <$> l)
  | VDict d => JDict ((λ kv, (kv.1, JList (atom_json <$> kv.2))) <$> map_to_list d)
  end.

Definition facts_json (facts : gmap string value) : json :=
  JDict ((λ kv, (kv.1, value_json kv.2)) <$> map_to_list facts).

Definition opt_json (x : option string) : json :=
  match x with
  | Some s => JStr s
  | None => JNull
  end.

(** [{"title": r["title"], "gist": r["text"][:240], "cite_id": r["id"]}] *)
Definition snippet (r : hit) : json :=
  JDict [("title", JStr (h_title r)); ("gist", JStr (prefix 240 (h_text r)));
         ("cite_id", JStr (h_id r))].

(** The end of the loop body, after the audit line is written: the
    summary printed for the agent log. An entry of [next_actions] that is
    no dict has no [get], and [join] takes strings only. *)
Definition print_summary (p : coerced) : result unit :=
  _ ← mapM (λ na, match na with
                  | JDict _ => Ok ()
                  | _ => Raise "AttributeError: object has no attribute 'get'"
                  end) (c_next_actions p);
  if forallb (λ n, match n with JStr _ => true | _ => false end) (c_notes p)
  then Ok ()
  else Raise "TypeError: sequence item: expected str instance".

Section Loop.

(** [LogEvent.model_validate_json(line)]; [None] is any exception. *)
Variable model_validate_json : string → option LogEvent.

(** The patterns of extract/generic.py other than [RE_IPV4]. *)
Variable other : string → Extract.matches.

(** The file system: [extract_from_file(pth)] for each path of
    [_detect_output_paths], then for [evt.out] when it is set and exists.
    [extract_from_file] catches what it raises. *)
Variable file_facts : LogEvent → list (gmap string value).

(** [retrieve(t, k=1)]: the rows, or the exception of SQLite. *)
Variable retrieve : string → result (list hit).

(** [_recent_events(session_path, limit=12)], which catches what it
    raises; the session file as it stands during the pass. *)
Variable _recent_events : list json.

(** The arguments of [run_agent] once resolved, and the three backends:
    the plan returned, or the exception raised. *)
Variable provider profile model : string.
Variable dry_run allow_cloud : bool.
Variable plan_with_ollama : string → json → result json.
Variable plan_with_openai : string → json → bool → result json.
Variable plan_with_anthropic : string → json → bool → result json.

(** The facts of an event. *)
Definition facts_of (evt : LogEvent) : gmap string value :=
  event_facts (Extract.extract_from_text other (cmd evt)) (file_facts evt).

(** The payload of an event. *)
Definition payload_of (evt : LogEvent) (facts : gmap string value)
    (retrieved : list hit) : json :=
  JDict [("profile", JStr profile);
         ("recent_events", JList _recent_events);
         ("last_cmd", JStr (cmd evt));
         ("cwd", opt_json (cwd evt));
         ("exit", JInt (exit evt));
         ("parsed_facts", facts_json facts);
         ("retrieved_snippets", JList (snippet <$> take 4 retrieved))].

(** [# Call the chosen provider (or dry-run)]: what the inner [try]
    leaves in [plan]. *)
Definition call_provider (payload : json) : json :=
  if dry_run then plan_json (note_plan ["dry-run enabled: no model call"])
  else
    match (if String.eqb provider "local" then plan_with_ollama model payload
           else if String.eqb provider "openai"
                then plan_with_openai model payload allow_cloud
           else if String.eqb provider "anthropic"
                then plan_with_anthropic model payload allow_cloud
           else Ok (plan_json (note_plan ["unknown provider " +:+ provider]))) with
    | Ok plan => plan
    | Raise e => plan_json (note_plan ["model_error:" +:+ e])
    end.

(** The loop body for a validated event, up to the audit line: the record
    to write, or the exception that leaves the [for] loop. *)
Definition process_event (evt : LogEvent) : result audit_record :=
  let facts := facts_of evt in
  topics ← derive_topics facts;
  retrieved ← mapM retrieve (retrieval_topics topics);
  let payload := payload_of evt facts (concat retrieved) in
  plan ← _coerce_plan (call_provider payload);
  Ok (Audit (ts evt) (cmd evt) (cwd evt) (exit evt) facts plan).

(** [line.strip()], [if not line: continue], and the validation. *)
Definition parse_line (line : string) : option LogEvent :=
  let line := strip line in
  if negb (truthy (JStr line)) then None else model_validate_json line.

(** One pass of [while True] over the lines [_read_new_lines] returned
    (the cursor is already past them all): the records appended to the
    audit log, and the exception that reached [except Exception], if one
    did. *)
Fixpoint process_lines (lines : list string) : list audit_record * option string :=
  match lines with
  | [] => ([], None)
  | line :: rest =>
      match parse_line line with
      | None => process_lines rest
      | Some evt =>
          match process_event evt with
          | Raise e => ([], Some e)
          | Ok r =>
              match print_summary (a_plan r) with
              | Raise e => ([r], Some e)
              | Ok _ => let '(rs, err) := process_lines rest in (r :: rs, err)
              end
          end
      end
  end.

(** [run_agent] over the session log as it is read, pass by pass: every
    audit record appended. *)
Definition run_agent (passes : list (list string)) : list audit_record :=
  concat ((λ lines, (process_lines lines).1) <$> passes).

(** The parseable events of the lines, in their order. *)
Definition valid_events (lines : list string) : list LogEvent :=
  omap parse_line lines.

End Loop.

(** Sample data: a validator that wants an object with a string [cmd], a
    session log of two valid lines around an invalid one, no files, a
    store that cannot be opened, one that is empty, and a backend that
    answers with a null [next_actions]. *)
Definition sample_validate (line : string) : option LogEvent :=
  match Decoder.loads line with
  | Some (JDict d) =>
      match assoc "cmd" d with
      | Some (JStr c) => Some (MkLogEvent (Some "") c 0 (Some "") (Some ""))
      | _ => None
      end
  | _ => None
  end.

Definition sample_session : list string :=
  [q "{'cmd':'nmap 10.0.0.5'}"; "not json"; q "{'cmd':'id'}"].

Definition no_files (evt : LogEvent) : list (gmap string value) := [].

Definition store_down (topic : string) : result (list hit) :=
  Raise "sqlite3.DatabaseError: file is not a database".

Definition store_empty (topic : string) : result (list hit) := Ok [].

Definition backend_ok (model : string) (payload : json) : result json :=
  Ok (plan_json (note_plan [])).

Definition backend_null (model : string) (payload : json) (allow_cloud : bool)
  : result json :=
  Ok (JDict [("next_actions", JNull)]).

End Agent.

(** ** Markup-free text *)

Module Markup.
Import Py.

(** The text holds neither of the brackets that Rich reads as markup. *)
Definition no_brackets (s : string) : Prop :=
  find_char "[" s = None ∧ find_char "]" s = None.

End Markup.

(** ** What redaction leaves alone *)

Module Redaction.
Import Py.

(** A value with every string in it blanked: its keys, its numbers,
    booleans and nulls, and the length and order of its lists remain. *)
Fixpoint skeleton (x : json) : json :=
  match x with
  | JDict d => JDict (map (λ kv, match kv with (k, v) => (k, skeleton v) end) d)
  | JList l => JList (map skeleton l)
  | JStr _ => JStr EmptyString
  | _ => x
  end.

(** The string values of a value, keys apart, in order. *)
Fixpoint strings (x : json) : list string :=
  match x with
  | JDict d => concat (map (λ kv, match kv with (_, v) => strings v end) d)
  | JList l => concat (map strings l)
  | JStr s => [s]
  | _ => []
  end.

(** Sample data: a payload with a secret as a key and as a value. *)
Definition sample_secret : json :=
  JDict [("password=hunter2", JList [JStr "password=hunter2"; JInt 7; JNull])].

End Redaction.

(** ** Samples for the notes of the hosted backends *)

Module MarkupSamples.
Import Py Plan Providers.

(** A response whose text block carries a plan with markup in a note. *)
Definition markup_post (model prompt : string) : result response :=
  Ok (Response 200 ""
        (Ok (JDict [("content",
                     JList [JDict [("type", JStr "text");
                                   ("text", JStr (q "{'notes':['[red]alert[/red]']}"))]])]))).

End MarkupSamples.

(** ** Samples for the agent loop *)

Module AgentSamples.
Import Py Plan Agent.

(** A session log read in two passes, with a blank line in the second. *)
Definition sample_passes : list (list string) :=
  [[q "{'cmd':'nmap 10.0.0.5'}"; "not json"]; [""; q "{'cmd':'id'}"]].

(** Backends that cannot be reached. *)
Definition backend_down (model : string) (payload : json) : result json :=
  Raise "connection refused".

Definition hosted_down (model : string) (payload : json) (allow_cloud : bool)
  : result json :=
  Raise "connection refused".

End AgentSamples.

(** ** What [list(v)] refuses *)

Module Iterable.
Import Py.

(** A value is not iterable: [list(v)] raises. *)
Definition not_iterable (v : json) : Prop :=
  v = JNull ∨ (∃ b, v = JBool b) ∨ ∃ n, v = JInt n.

End Iterable.

(** ** What a pattern matches *)

Module RegexSpec.
Import Py Regex.

(** The texts a pattern can match, position apart: a word boundary
    matches the empty text. *)
Fixpoint lang (r : re) (m : list ascii) : Prop :=
  match r with
  | Eps => m = []
  | Chr p => ∃ c, m = [c] ∧ p c = true
  | Seq r1 r2 => ∃ m1 m2, m = m1 ++ m2 ∧ lang r1 m1 ∧ lang r2 m2
  | Alt r1 r2 => lang r1 m ∨ lang r2 m
  | WordB => m = []
  end.

(** One to three decimal digits that read as a number up to 255. *)
Definition octet_text (o : list ascii) : Prop :=
  1 ≤ length o ≤ 3
  ∧ Forall (λ c, Decoder.is_digit c = true) o
  ∧ (Decoder.digits_value o ≤ 255)%Z.

(** Four such numbers with dots between them. *)
Definition dotted_quad (x : string) : Prop :=
  ∃ a b c d,
    list_ascii_of_string x = a ++ "."%char :: b ++ "."%char :: c ++ "."%char :: d
    ∧ octet_text a ∧ octet_text b ∧ octet_text c ∧ octet_text d.

End RegexSpec.

(** ** Extraction from a file (extract/generic.py) *)

Module Files.
Import Facts Py Extract.

Section ExtractFromFile.

Variable other : string → matches.

(** [open(path, "r", encoding="utf-8", errors="ignore").read()]: the
    text, or the exception raised. *)
Variable read_text : string → result string.

(** [extract_from_file(path)] *)
Definition extract_from_file (path : string) : gmap string value :=
  match read_text path with
  | Ok text => extract_from_text other text
  | Raise e =>
      <["indicators" :=
          VList [AStr ("extract_error:" +:+ path +:+ ":" +:+ e)]]> ∅
  end.

End ExtractFromFile.

(** Sample data: a file system with one file and a text with a URL, a
    domain that is the host of the URL and one that is not. *)
Definition one_file (path : string) : result string :=
  if String.eqb path "/tmp/scan.txt" then Ok "host 10.0.0.5 is up"
  else Raise "[Errno 2] No such file or directory".

Definition url_matches (text : string) : matches :=
  Matches [] ["http://Example.com/a"] ["example.com"; "other.org"]
          [] [] [] [] [] [] [] [] [].

End Files.

(** ** Normal forms of the chunker *)

Module Chunks.
Import Py Retriever.

Fixpoint string_forall (p : ascii → bool) (s : string) : bool :=
  match s with
  | EmptyString => true
  | String c r => p c && string_forall p r
  end.

(** A run of characters that are not white space, not empty. *)
Definition is_word (w : string) : Prop :=
  w ≠ EmptyString ∧ string_forall (λ c, negb (is_space c)) w = true.



(** The tables agree: the row of a chunk is the row of the full-text
    table under its rowid, no two chunks share a rowid, and the full-text
    table holds no other row. *)
Definition in_sync (d : db) : Prop :=
  (∀ cid r rw, chunks d !! cid = Some (r, rw) → chunks_fts d !! r = Some rw)
  ∧ (∀ cid1 cid2 r rw1 rw2,
       chunks d !! cid1 = Some (r, rw1) → chunks d !! cid2 = Some (r, rw2) →
       cid1 = cid2)
  ∧ (∀ r rw, chunks_fts d !! r = Some rw → ∃ cid, chunks d !! cid = Some (r, rw)).


End Chunks.

(** ** The endpoint of the local backend (providers/local_ollama.py) *)

Module Endpoint.
Import Py.

(** [_normalize_base(u)]; [None] is an unset variable. *)
Definition _normalize_base (u : option string) : string :=
  let u := strip (default EmptyString u) in
  if negb (truthy (JStr u)) then "http://127.0.0.1:11434"
  else
    let u := if startswith "http://" u || startswith "https://" u then u
             else "http://" +:+ u in
    rstrip_by (Ascii.eqb "/") u.

(** [os.environ.get("OLLAMA_URL") or os.environ.get("OLLAMA_HOST")] *)
Definition url_setting (env : gmap string string) : option string :=
  match env !! "OLLAMA_URL" with
  | Some u => if truthy (JStr u) then Some u else env !! "OLLAMA_HOST"
  | None => env !! "OLLAMA_HOST"
  end.

(** [OLLAMA_URL] *)
Definition OLLAMA_URL (env : gmap string string) : string :=
  _normalize_base (url_setting env).

(** The text does not end in a slash. *)
Definition no_trailing_slash (s : string) : Prop :=
  rstrip_by (Ascii.eqb "/") s = s.

(** Sample data: a backend whose first answer is the 400 of an unknown
    model name, and that answers once the model is pulled. *)
Definition generate_after_pull (n : nat) (model prompt : string)
  : result Providers.response :=
  match n with
  | 0 => Ok (Providers.Response 400 "invalid model name" (Raise "no json"))
  | _ => Ok (Providers.Response 200 "" (Ok (JDict [("response", JStr "{}")])))
  end.

End Endpoint.

(** ** The start of the agent (agent/agent.py, utils/env.py) *)

Module Setup.
Import Py Providers.

(** [a or b] for a string that may be unset. *)
Definition or_str (a : option string) (b : string) : string :=
  match a with
  | Some s => if truthy (JStr s) then s else b
  | None => b
  end.

Section Resolve.

(** [os.environ] once [load_env] has run. *)
Variable env : gmap string string.

(** The provider named by the arguments and the environment, before it
    is matched against the known ones. *)
Definition named_provider (provider : option string) : string :=
  strip (or_str provider (or_str (env !! "AIC_PROVIDER") "local")).

(** [# Resolve provider/profile/model ...] of [run_agent]: provider,
    profile and model. *)
Definition resolve (provider profile : option string) : string * string * string :=
  let provider := named_provider provider in
  let profile := strip (or_str profile (or_str (env !! "AIC_PROFILE") "prod-safe")) in
  if String.eqb provider "openai"
  then ("openai", profile, strip (default "gpt-5-nano" (env !! "AIC_OPENAI_MODEL")))
  else if String.eqb provider "anthropic"
  then ("anthropic", profile,
        strip (default "claude-3-7-sonnet-20250219" (env !! "AIC_ANTHROPIC_MODEL")))
  else ("local", profile, strip (default "llama3.2:1b" (env !! "AIC_LOCAL_MODEL"))).

End Resolve.

(** *** [load_env] *)

(** [s.split("=", 1)] for an [s] that holds the character: what stands
    before the first one and what stands after it. *)
Definition split_first (c : ascii) (s : string) : option (string * string) :=
  i ← find_char c s; Some (prefix i s, sdrop (S i) s).

(** One line of the file: the key and the value it sets, if it sets one. *)
Definition parse_env_line (raw : string) : option (string * string) :=
  let line := strip raw in
  if negb (truthy (JStr line)) || startswith "#" line then None
  else '(k, v) ← split_first "=" line; Some (strip k, strip v).

Section LoadEnv.

(** How [os.environ[k] = v] fails, when it does (an empty name, a null
    byte). *)
Variable putenv_error : string → string → option string.

(** [os.environ.setdefault(k, v)] *)
Definition setdefault (environ : gmap string string) (k v : string)
  : result (gmap string string) :=
  match environ !! k with
  | Some _ => Ok environ
  | None =>
      match putenv_error k v with
      | Some e => Raise e
      | None => Ok (<[k := v]> environ)
      end
  end.

(** The loop of [load_env] over the lines of the file: the dict built
    and the environment. *)
Fixpoint load_lines (lines : list string) (env environ : gmap string string)
  : result (gmap string string * gmap string string) :=
  match lines with
  | [] => Ok (env, environ)
  | raw :: rest =>
      match parse_env_line raw with
      | None => load_lines rest env environ
      | Some (k, v) =>
          environ' ← setdefault environ k v;
          load_lines rest (<[k := v]> env) environ'
      end
  end.

(** [load_env(path)]: [file] is [None] when the path does not exist, and
    else what [read_text(...).splitlines()] gives. *)
Definition load_env (file : option (result (list string)))
    (environ : gmap string string)
  : result (gmap string string * gmap string string) :=
  match file with
  | None => Ok (∅, environ)
  | Some content => lines ← content; load_lines lines ∅ environ
  end.

End LoadEnv.

(** The values the lines give to a key, in order. *)
Definition settings (lines : list string) (k : string) : list string :=
  (omap parse_env_line lines) ≫= λ kv, if String.eqb kv.1 k then [kv.2] else [].

(** *** [_recent_events] and [_detect_output_paths] *)

Section Recent.

Variable json_loads : string → option json.

(** [f.readlines()] of the session log, or the exception. *)
Variable readlines : result (list string).

(** [lines[-limit:]]; with [limit] zero the slice is the whole list. *)
Definition tail_lines (limit : nat) (lines : list string) : list string :=
  if limit =? 0 then lines else last_n limit lines.

(** The lines [json.loads] is applied to. *)
Definition json_lines (limit : nat) (lines : list string) : list string :=
  filter (λ l, startswith "{" (strip l) = true) (tail_lines limit lines).

(** [_recent_events(session_path, limit)] *)
Definition _recent_events (limit : nat) : list json :=
  match readlines with
  | Raise _ => []
  | Ok lines => default [] (mapM json_loads (json_lines limit lines))
  end.

End Recent.

Section Paths.

(** [_resolve_path(p, cwd)] and [os.path.exists(p)] *)
Variable _resolve_path : string → string → string.
Variable path_exists : string → bool.

Definition output_flags : list string :=
  ["--json"; "--jsonl"; "--xml"; "-o"; "-oX"; "-oN"; "-oG"].

(** [t.split("=", 1)[1]] for a [t] that starts with [--output=]. *)
Definition after_eq (t : string) : string :=
  from_option snd EmptyString (split_first "=" t).

(** What a token adds to [out] when it is not a flag with its argument. *)
Definition single (t : string) (nxt : option string) (cwd : string) : list string :=
  if startswith "--output=" t then [_resolve_path (after_eq t) cwd]
  else if startswith "-o" t && (2 <? String.length t) && negb (startswith "-oX" t)
  then [_resolve_path (sdrop 2 t) cwd]
  else if String.eqb t ">" && truthy (JStr (default EmptyString nxt))
  then [_resolve_path (default EmptyString nxt) cwd]
  else [].

(** The [while] loop of [_detect_output_paths]: [skip] says that the
    token is the argument of the flag before it, which [i += 2] passes
    over. *)
Fixpoint detect (parts : list string) (cwd : string) (skip : bool) : list string :=
  match parts with
  | [] => []
  | t :: rest =>
      if skip then detect rest cwd false
      else
        let nxt := head rest in
        if bool_decide (t ∈ output_flags) && truthy (JStr (default EmptyString nxt))
        then _resolve_path (default EmptyString nxt) cwd :: detect rest cwd true
        else single t nxt cwd ++ detect rest cwd false
  end.

(** [_detect_output_paths(parts, cwd)] *)
Definition _detect_output_paths (parts : list string) (cwd : string) : list string :=
  filter (λ p, path_exists p = true) (detect parts cwd false).

End Paths.

(** Sample data: an environment file that sets a key twice, a path
    resolution that joins with a slash, and a file system with one file. *)
Definition sample_env_file : list string :=
  ["# sidecar"; ""; "AIC_PROVIDER = openai"; "AIC_PROFILE=ctf";
   "AIC_PROVIDER=anthropic"; "no assignment here"].

Definition putenv_ok (k v : string) : option string :=
  if String.eqb k EmptyString then Some "[Errno 22] Invalid argument" else None.

Definition join_path (p cwd : string) : string := cwd +:+ "/" +:+ p.

Definition only_scan_xml (p : string) : bool := String.eqb p "/work/scan.xml".

End Setup.

(** ** Samples for the topics of an event *)

Module EventSamples.
Import Py Agent.

Definition nmap_event : LogEvent :=
  MkLogEvent (Some "") "nmap -sV 10.0.0.5" 0 (Some "/root") (Some "").

End EventSamples.

(** ** The backends as the agent calls them *)

Module Backends.
Import Py Plan Providers Ollama.

Section Calls.

Variable json_loads : string → option json.
Variable json_dumps : json → string.
Variable py_repr : json → string.
Variable _redact_text : string → string.
Variable env : gmap string string.
Variable system_prompt : string.
Variable openai_create : bool → request → result string.
Variable TEMPLATE_format : string → string.
Variable anthropic_post : string → string → result response.
Variable instruction : string → string → string → string → string → string → string.
Variable get_version : nat → result response.
Variable popen_serve : bool.
Variable get_tags : result response.
Variable run_pull : nat → string → pull_outcome.
Variable post_generate : nat → string → string → result response.


(** [plan_with_openai(model=model, payload=payload, allow_cloud=allow_cloud)] *)
Definition openai_backend (model : string) (payload : json) (allow_cloud : bool)
  : result json :=
  r ← plan_with_openai json_loads json_dumps py_repr _redact_text env
         system_prompt openai_create model payload allow_cloud;
  Ok r.2.


End Calls.


End Backends.

(** * Properties *)

(** ** Strings *)

Section StringProofs.
Import Py.
Implicit Types (s t pre post : string) (c : ascii).

Lemma sapp_nil_l s : "" +:+ s = s.
Proof. done. Qed.

Lemma sapp_cons c s t : String c s +:+ t = String c (s +:+ t).
Proof. done. Qed.

Lemma sapp_assoc s t u : (s +:+ t) +:+ u = s +:+ t +:+ u.
Proof. induction s as [|c s IH]; [done|]. by rewrite !sapp_cons, IH. Qed.

Lemma sapp_length s t : String.length (s +:+ t) = String.length s + String.length t.
Proof. induction s as [|c s IH]; [done|]. rewrite sapp_cons. simpl. by rewrite IH. Qed.

Lemma find_char_app c pre s :
  find_char c pre = None →
  find_char c (pre +:+ String c s) = Some (String.length pre).
Proof.
  induction pre as [|d pre IH]; intros H.
  - rewrite sapp_nil_l. simpl. by rewrite Ascii.eqb_refl.
  - rewrite sapp_cons. simpl in *. destruct (Ascii.eqb d c); [done|].
    destruct (find_char c pre); [done|]. by rewrite IH.
Qed.

Lemma rfind_char_app c pre post :
  rfind_char c post = None →
  rfind_char c (pre +:+ String c post) = Some (String.length pre).
Proof.
  intros H. induction pre as [|d pre IH].
  - rewrite sapp_nil_l. simpl. by rewrite H, Ascii.eqb_refl.
  - rewrite sapp_cons. simpl. by rewrite IH.
Qed.

Lemma find_char_Some c s i :
  find_char c s = Some i →
  ∃ pre r, s = pre +:+ String c r ∧ find_char c pre = None ∧ String.length pre = i.
Proof.
  revert i. induction s as [|d s IH]; simpl; intros i H; [done|].
  destruct (Ascii.eqb d c) eqn:Hd.
  - apply Ascii.eqb_eq in Hd as ->. injection H as <-. by exists "", s.
  - destruct (find_char c s) as [j|]; [|done]. injection H as <-.
    destruct (IH j eq_refl) as (pre & r & -> & Hpre & <-).
    exists (String d pre), r. simpl. by rewrite Hd, Hpre.
Qed.

Lemma rfind_char_Some c s j :
  rfind_char c s = Some j →
  ∃ pre post, s = pre +:+ String c post ∧ rfind_char c post = None
              ∧ String.length pre = j.
Proof.
  revert j. induction s as [|d s IH]; simpl; intros j H; [done|].
  destruct (rfind_char c s) as [i|] eqn:Hs.
  - injection H as <-. destruct (IH i eq_refl) as (pre & post & -> & Hpost & <-).
    by exists (String d pre), post.
  - destruct (Ascii.eqb d c) eqn:Hd; [|done].
    apply Ascii.eqb_eq in Hd as ->. injection H as <-. by exists "", s.
Qed.

Lemma sapp_split pre pre2 x y :
  pre +:+ x = pre2 +:+ y → String.length pre ≤ String.length pre2 →
  ∃ m, pre2 = pre +:+ m ∧ x = m +:+ y.
Proof.
  revert pre2. induction pre as [|c pre IH]; intros pre2 Heq Hlen.
  - by exists pre2.
  - destruct pre2 as [|c2 pre2]; [simpl in Hlen; lia|].
    rewrite !sapp_cons in Heq. injection Heq as <- Heq.
    destruct (IH pre2 Heq) as (m & -> & ->); [simpl in Hlen; lia|].
    by exists m.
Qed.

Lemma substring_0_app s t : String.substring 0 (String.length s) (s +:+ t) = s.
Proof. induction s as [|c s IH]; [by destruct t|]. rewrite sapp_cons. simpl. by rewrite IH. Qed.

Lemma substring_app_mid pre block post :
  String.substring (String.length pre) (String.length block)
    (pre +:+ block +:+ post) = block.
Proof.
  induction pre as [|c pre IH].
  - rewrite sapp_nil_l. apply substring_0_app.
  - rewrite sapp_cons. simpl. apply IH.
Qed.

Lemma strip_blank s :
  (∀ c, c ∈ list_ascii_of_string s → is_space c = true) → strip s = "".
Proof.
  intros H. unfold strip.
  assert (rstrip_by is_space s = "") as ->; [|done].
  induction s as [|c s IH]; [done|]. simpl.
  rewrite IH.
  - rewrite H; [done|]. simpl. by left.
  - intros d Hd. apply H. simpl. by right.
Qed.

Lemma replace_char_blank a b s :
  is_space a = false →
  (∀ c, c ∈ list_ascii_of_string s → is_space c = true) →
  replace_char a b s = s.
Proof.
  intros Ha. induction s as [|c s IH]; [done|]. intros H.
  unfold replace_char in *. simpl.
  destruct (Ascii.eqb c a) eqn:Hc.
  - apply Ascii.eqb_eq in Hc as ->.
    rewrite H in Ha; [done|]. simpl. by left.
  - f_equal. apply IH. intros d Hd. apply H. simpl. by right.
Qed.

End StringProofs.

(** Bring both sides of an equation between appended strings to the same
    right-nested form. *)
Ltac snorm :=
  repeat (rewrite sapp_assoc || rewrite sapp_cons || rewrite sapp_nil_l).

(** ** Fact merging *)

Section FactsProofs.
Import Facts.
Implicit Types (a b c l : list atom) (x : atom) (v : value).
Implicit Types (m acc A B : gmap string value).

Lemma extend_unique_absorbed a b :
  (∀ x, x ∈ b → x ∈ a) → _extend_unique a b = a.
Proof.
  induction b as [|x b IH]; intros Hin; simpl; [done|].
  rewrite decide_True by (apply Hin; left).
  apply IH. intros y Hy. apply Hin. by right.
Qed.

Lemma extend_unique_leaf_extends a b :
  ∃ extra, _extend_unique a b = a ++ extra ∧ NoDup extra ∧
           (∀ x, x ∈ extra → (x ∉ a) ∧ x ∈ b) ∧
           (∀ x, x ∈ b → x ∈ a ++ extra).
Proof.
  revert a. induction b as [|x b IH]; intros a; simpl.
  - exists []. rewrite app_nil_r. split_and!; try done.
    + constructor.
    + intros x Hx. by apply elem_of_nil in Hx.
    + intros x Hx. by apply elem_of_nil in Hx.
  - case_decide as Hx.
    + destruct (IH a) as (extra & -> & Hnd & Hnew & Hall).
      exists extra. split_and!; try done.
      * intros y Hy. destruct (Hnew y Hy). split; [done | by right].
      * intros y [->|Hy]%elem_of_cons; [apply elem_of_app; by left | by apply Hall].
    + destruct (IH (a ++ [x])) as (extra & -> & Hnd & Hnew & Hall).
      exists (x :: extra). rewrite <- app_assoc. simpl. split_and!; try done.
      * constructor; [|done]. intros Hin. destruct (Hnew x Hin) as [Hn _].
        apply Hn, elem_of_app. right. by left.
      * intros y [->|Hy]%elem_of_cons; [split; [done | by left]|].
        destruct (Hnew y Hy) as [Hn Hb]. split; [|by right].
        intros Ha. apply Hn, elem_of_app. by left.
      * intros y [->|Hy]%elem_of_cons.
        -- apply elem_of_app. right. by left.
        -- specialize (Hall y Hy). by rewrite <- app_assoc in Hall.
Qed.

Lemma extend_unique_elem_l a b x : x ∈ a → x ∈ _extend_unique a b.
Proof.
  destruct (extend_unique_leaf_extends a b) as (extra & -> & _).
  intros. apply elem_of_app. by left.
Qed.

Lemma extend_unique_elem_r a b x : x ∈ b → x ∈ _extend_unique a b.
Proof.
  destruct (extend_unique_leaf_extends a b) as (extra & -> & _ & _ & Hall).
  apply Hall.
Qed.

Lemma extend_unique_self a : _extend_unique a a = a.
Proof. by apply extend_unique_absorbed. Qed.

Lemma extend_unique_nil_r a : _extend_unique a [] = a.
Proof. done. Qed.

Lemma extend_unique_NoDup a b : NoDup a → NoDup (_extend_unique a b).
Proof.
  intros Ha. destruct (extend_unique_leaf_extends a b)
    as (extra & -> & Hnd & Hnew & _).
  apply NoDup_app. split_and!; [done| |done].
  intros x Hx Hx'. by destruct (Hnew x Hx').
Qed.

Lemma leaf_extends_extend_unique a b : leaf_extends a (_extend_unique a b).
Proof.
  destruct (extend_unique_leaf_extends a b) as (extra & -> & Hnd & Hnew & _).
  exists extra. split_and!; [done..|]. intros x Hx. by destruct (Hnew x Hx).
Qed.

Lemma merge_value_extends v inc : value_extends v (merge_value v inc).
Proof.
  destruct v as [a|d]; simpl.
  - apply leaf_extends_extend_unique.
  - destruct inc as [[l'|d']|]; simpl.
    + split; [done|]. intros sk l Hl. exists l. split; [done|].
      exists []. rewrite app_nil_r. split_and!; [done|constructor|].
      intros x Hx. by apply elem_of_nil in Hx.
    + split.
      * apply set_eq. intros sk. rewrite !elem_of_dom, map_lookup_imap.
        destruct (d !! sk); simpl; split; intros [? ?]; eauto; done.
      * intros sk l Hl. rewrite map_lookup_imap, Hl. simpl.
        eexists. split; [done|]. apply leaf_extends_extend_unique.
    + split; [done|]. intros sk l Hl. exists l. split; [done|].
      exists []. rewrite app_nil_r. split_and!; [done|constructor|].
      intros x Hx. by apply elem_of_nil in Hx.
Qed.

Lemma merge_value_None v : merge_value v None = v.
Proof. by destruct v. Qed.

Lemma merge_value_absorbed vm va : absorbs vm va → merge_value vm (Some va) = vm.
Proof.
  destruct vm as [a|d]; simpl.
  - intros H. f_equal. by apply extend_unique_absorbed.
  - destruct va as [l'|d']; [done|]. intros H. f_equal.
    apply map_eq. intros sk. rewrite map_lookup_imap.
    destruct (d !! sk) as [l|] eqn:Hl; simpl; [|done].
    f_equal. apply extend_unique_absorbed. by apply (H sk).
Qed.

Lemma absorbs_merge_value v va : absorbs (merge_value v (Some va)) va.
Proof.
  destruct v as [a|d]; simpl.
  - intros x Hx. by apply extend_unique_elem_r.
  - destruct va as [l'|d']; [done|]. simpl. intros sk l.
    rewrite map_lookup_imap. destruct (d !! sk) as [l0|]; simpl; [|done].
    intros [= <-] x Hx. by apply extend_unique_elem_r.
Qed.

Lemma absorbs_refl v : absorbs v v.
Proof.
  destruct v as [a|d]; simpl; [done|].
  intros sk l Hl x. by rewrite Hl.
Qed.

Lemma absorbs_mono vm va inc : absorbs vm va → absorbs (merge_value vm inc) va.
Proof.
  destruct vm as [a|d]; simpl.
  - intros H x Hx. apply extend_unique_elem_l. by apply H.
  - destruct inc as [[l'|d'']|]; [done| |done].
    destruct va as [l|d']; [done|]. simpl. intros H sk l.
    rewrite map_lookup_imap. destruct (d !! sk) as [l0|] eqn:Hl0; simpl; [|done].
    intros [= <-] x Hx. apply extend_unique_elem_l. by apply (H sk).
Qed.

Lemma empty_ne_empty : _empty ≠ ∅.
Proof. unfold _empty. apply insert_non_empty. Qed.

Lemma or_empty_ne m : or_empty m ≠ ∅.
Proof. unfold or_empty. case_decide; [apply empty_ne_empty | done]. Qed.

Lemma or_empty_id m : m ≠ ∅ → or_empty m = m.
Proof. intros. unfold or_empty. by rewrite decide_False. Qed.

Lemma merge_facts_lookup acc A k :
  A ≠ ∅ →
  merge_facts acc A !! k =
    match or_empty acc !! k with
    | Some v => Some (merge_value v (A !! k))
    | None => A !! k
    end.
Proof.
  intros HA. unfold merge_facts. rewrite decide_False by done.
  rewrite lookup_union, map_lookup_imap.
  destruct (or_empty acc !! k) as [v|]; simpl.
  - by destruct (A !! k).
  - by destruct (A !! k).
Qed.

Lemma merge_facts_empty_r acc : merge_facts acc ∅ = or_empty acc.
Proof. unfold merge_facts. by rewrite decide_True. Qed.

Lemma merge_facts_ne acc A : merge_facts acc A ≠ ∅.
Proof.
  destruct (decide (A = ∅)) as [->|HA].
  - rewrite merge_facts_empty_r. apply or_empty_ne.
  - pose proof (or_empty_ne acc) as Hne.
    apply map_choose in Hne as (k & v & Hk).
    intros Heq. pose proof (merge_facts_lookup acc A k HA) as Hl.
    rewrite Heq, Hk, lookup_empty in Hl. done.
Qed.

Lemma merge_facts_absorbed m A : m ≠ ∅ → Absorbs m A → merge_facts m A = m.
Proof.
  intros Hm Habs. destruct (decide (A = ∅)) as [->|HA].
  - rewrite merge_facts_empty_r. by apply or_empty_id.
  - apply map_eq. intros k. rewrite merge_facts_lookup by done.
    rewrite or_empty_id by done.
    destruct (m !! k) as [vm|] eqn:Hk.
    + destruct (A !! k) as [va|] eqn:HAk.
      * destruct (Habs k va HAk) as (vm' & Hvm' & Ha).
        rewrite Hk in Hvm'. injection Hvm' as <-.
        by rewrite merge_value_absorbed.
      * by rewrite merge_value_None.
    + destruct (A !! k) as [va|] eqn:HAk; [|done].
      destruct (Habs k va HAk) as (vm' & Hvm' & _). by rewrite Hk in Hvm'.
Qed.

Lemma Absorbs_merge_facts acc A : Absorbs (merge_facts acc A) A.
Proof.
  intros k va Hk. assert (A ≠ ∅) as HA by (intros ->; by rewrite lookup_empty in Hk).
  rewrite merge_facts_lookup by done. rewrite Hk.
  destruct (or_empty acc !! k) as [v|].
  - eexists. split; [done|]. apply absorbs_merge_value.
  - eexists. split; [done|]. apply absorbs_refl.
Qed.

Lemma Absorbs_mono m A B : m ≠ ∅ → Absorbs m A → Absorbs (merge_facts m B) A.
Proof.
  intros Hm Habs. destruct (decide (B = ∅)) as [->|HB].
  - rewrite merge_facts_empty_r. by rewrite or_empty_id.
  - intros k va Hk. destruct (Habs k va Hk) as (vm & Hvm & Ha).
    rewrite merge_facts_lookup by done. rewrite or_empty_id by done.
    rewrite Hvm. eexists. split; [done|]. by apply absorbs_mono.
Qed.

Lemma Absorbs_refl A : Absorbs A A.
Proof. intros k va Hk. exists va. split; [done | apply absorbs_refl]. Qed.

Lemma value_extends_refl v : value_extends v v.
Proof. rewrite <- (merge_value_None v) at 2. apply merge_value_extends. Qed.

(** C1. Merging is idempotent and grows no duplicates: merging [A] a second
    time into an accumulator that already received it changes nothing, also
    after some [B] was merged in between; merging a (present) fact set into
    itself changes nothing; and every fact the accumulator held is still
    there afterwards, at the same place, with only new values appended. *)
Theorem merge_facts_idempotent_append_only acc A B :
  merge_facts (merge_facts acc A) A = merge_facts acc A
  ∧ merge_facts (merge_facts (merge_facts acc A) B) A
    = merge_facts (merge_facts acc A) B
  ∧ (A ≠ ∅ → merge_facts A A = A)
  ∧ (∀ k v, acc !! k = Some v →
       ∃ v', merge_facts acc A !! k = Some v' ∧ value_extends v v').
Proof.
  split_and!.
  - apply merge_facts_absorbed; [apply merge_facts_ne | apply Absorbs_merge_facts].
  - apply merge_facts_absorbed; [apply merge_facts_ne|].
    apply Absorbs_mono; [apply merge_facts_ne | apply Absorbs_merge_facts].
  - intros HA. apply merge_facts_absorbed; [done | apply Absorbs_refl].
  - intros k v Hk.
    assert (acc ≠ ∅) as Hacc by (intros ->; by rewrite lookup_empty in Hk).
    destruct (decide (A = ∅)) as [->|HA].
    + rewrite merge_facts_empty_r, or_empty_id by done.
      exists v. split; [done | apply value_extends_refl].
    + rewrite merge_facts_lookup, or_empty_id, Hk by done.
      eexists. split; [done | apply merge_value_extends].
Qed.

(** C10. Merging keeps the leaf shape of a category: where accumulator and
    incoming both hold a category under [k], the result holds a category
    with exactly the accumulator's sub-keys, each extended from the incoming
    leaf of the same name, and a sub-key that only the incoming category has
    is not there; a top-level key the accumulator lacks is taken over as it
    is; no other key appears. *)
Theorem merge_facts_keeps_category_shape acc inc k :
  (∀ d d', or_empty acc !! k = Some (VDict d) → inc !! k = Some (VDict d') →
     ∃ d'', merge_facts acc inc !! k = Some (VDict d'')
            ∧ dom d'' = dom d
            ∧ (∀ sk l, d !! sk = Some l →
                 d'' !! sk = Some (_extend_unique l (default [] (d' !! sk))))
            ∧ (∀ sk, d !! sk = None → d'' !! sk = None))
  ∧ (or_empty acc !! k = None → merge_facts acc inc !! k = inc !! k)
  ∧ dom (merge_facts acc inc) = dom (or_empty acc) ∪ dom inc.
Proof.
  destruct (decide (inc = ∅)) as [->|Hinc].
  - rewrite merge_facts_empty_r. split_and!.
    + intros d d' _ Hk. by rewrite lookup_empty in Hk.
    + intros ->. by rewrite lookup_empty.
    + rewrite dom_empty_L. by rewrite (right_id_L ∅ (∪)).
  - split_and!.
    + intros d d' Hd Hd'. rewrite merge_facts_lookup, Hd, Hd' by done. simpl.
      eexists. split; [done|]. split_and!.
      * apply set_eq. intros sk. rewrite !elem_of_dom, map_lookup_imap.
        destruct (d !! sk); simpl; split; intros [? ?]; eauto; done.
      * intros sk l Hl. by rewrite map_lookup_imap, Hl.
      * intros sk Hl. by rewrite map_lookup_imap, Hl.
    + intros Hk. by rewrite merge_facts_lookup, Hk by done.
    + apply set_eq. intros k'. rewrite elem_of_union, !elem_of_dom.
      rewrite merge_facts_lookup by done.
      destruct (or_empty acc !! k') as [v|], (inc !! k') as [v'|];
        split; try (intros [[? ?]|[? ?]]); try (intros [? ?]); eauto; done.
Qed.

Lemma merge_facts_idempotent_witness :
  sample_error_facts ≠ ∅ ∧
  merge_facts sample_error_facts sample_error_facts = sample_error_facts.
Proof.
  split; [apply insert_non_empty|].
  apply (merge_facts_idempotent_append_only ∅ sample_error_facts ∅).
  apply insert_non_empty.
Defined.

Lemma merge_facts_keeps_category_shape_witness :
  ∃ d'', merge_facts ∅ sample_incoming !! "entities" = Some (VDict d'')
         ∧ dom d'' = dom empty_entities
         ∧ d'' !! "ips" = Some [AStr "10.0.0.5"]
         ∧ d'' !! "hostnames" = None.
Proof.
  destruct (merge_facts_keeps_category_shape ∅ sample_incoming "entities")
    as (Hcat & _ & _).
  destruct (Hcat empty_entities sample_entities) as (d'' & Hd & Hdom & Hin & Hout);
    [reflexivity | reflexivity |].
  exists d''. split_and!; [done | done | |].
  - apply (Hin "ips" []). reflexivity.
  - apply Hout. reflexivity.
Defined.

End FactsProofs.

(** ** Plan normalisation *)

Section PlanProofs.
Import Py Plan.

Lemma brace_span_extract json_loads s block :
  brace_span s block → _extract_json json_loads s = json_loads block.
Proof.
  intros (pre & mid & post & -> & -> & Hpre & Hpost).
  unfold _extract_json.
  assert (truthy (JStr (pre +:+ String "{" (mid +:+ "}") +:+ post)) = true) as ->.
  { simpl. destruct pre; [by rewrite sapp_nil_l|done]. }
  simpl negb. cbv iota.
  rewrite sapp_cons, find_char_app by done.
  replace (pre +:+ String "{" ((mid +:+ "}") +:+ post))
    with ((pre +:+ String "{" mid) +:+ String "}" post)
    by (by snorm).
  rewrite rfind_char_app by done.
  rewrite sapp_length. simpl String.length.
  rewrite (proj2 (Nat.leb_gt _ _)) by lia.
  f_equal. unfold slice.
  replace (String.length pre + S (String.length mid) + 1 - String.length pre)
    with (String.length (String "{" (mid +:+ "}")))
    by (simpl; rewrite sapp_length; simpl; lia).
  replace ((pre +:+ String "{" mid) +:+ String "}" post)
    with (pre +:+ String "{" (mid +:+ "}") +:+ post)
    by (by snorm).
  apply substring_app_mid.
Qed.

Lemma extract_brace_span json_loads s obj :
  _extract_json json_loads s = Some obj →
  ∃ block, brace_span s block ∧ json_loads block = Some obj.
Proof.
  intros H. pose proof H as H0. unfold _extract_json in H.
  destruct (negb (truthy (JStr s))); [done|].
  destruct (find_char "{" s) as [first|] eqn:Hf; [|done].
  destruct (rfind_char "}" s) as [last|] eqn:Hl; [|done].
  destruct (last <=? first) eqn:Hle; [done|].
  apply Nat.leb_gt in Hle.
  destruct (find_char_Some _ _ _ Hf) as (pre & r & Hs & Hpre & Hlen).
  destruct (rfind_char_Some _ _ _ Hl) as (pre2 & post & Hs2 & Hpost & Hlen2).
  destruct (sapp_split pre pre2 (String "{" r) (String "}" post))
    as (m & -> & Hm); [congruence | lia |].
  destruct m as [|c mid].
  { rewrite sapp_length in Hlen2. simpl in Hlen2. lia. }
  rewrite sapp_cons in Hm. injection Hm as <- ->.
  assert (brace_span s (String "{" (mid +:+ "}"))) as Hspan.
  { exists pre, mid, post. split_and!; [|done..].
    rewrite Hs. by snorm. }
  eexists. split; [done|]. by rewrite <- (brace_span_extract json_loads s _ Hspan).
Qed.

Lemma sanitize_blank py_repr s :
  (∀ c, c ∈ list_ascii_of_string s → is_space c = true) →
  _sanitize py_repr (JStr s) = "".
Proof.
  intros H. unfold _sanitize. simpl.
  rewrite (replace_char_blank "[" "(" s) by (reflexivity || done).
  rewrite (replace_char_blank "]" ")" s) by (reflexivity || done).
  by apply strip_blank.
Qed.

Lemma truthy_str_ne s : truthy (JStr s) = true ↔ s ≠ "".
Proof.
  simpl. destruct (String.eqb s "") eqn:He.
  - apply String.eqb_eq in He as ->. split; done.
  - apply String.eqb_neq in He. split; done.
Qed.

Lemma shape_plan_actions py_repr d :
  next_actions (_shape_plan py_repr (JDict d)) =
    match or_else (or_else (get "next_actions" d) (get "actions" d)) (JList []) with
    | JList l =>
        filter (λ a, truthy (JStr (cmd a)) = true) (omap (shape_action py_repr) l)
    | _ => []
    end.
Proof. done. Qed.

Lemma elem_of_kept (a : suggestion) (l : list suggestion) :
  a ∈ filter (λ a, truthy (JStr (cmd a)) = true) l ↔ cmd a ≠ "" ∧ a ∈ l.
Proof. by rewrite list_elem_of_filter, truthy_str_ne. Qed.

(** C3 (amended). The decoding step hands [json.loads] the text between the
    first opening and the last closing brace of the body, and nothing else;
    of the entries of [next_actions] the plan holds exactly those that are
    objects and whose command is not empty once trimmed, in their order; a
    missing [noise] becomes "low" and a missing [safety] "read-only"; a
    command of white space only is empty once trimmed; and the body
    [some text with {"next_actions":[{"cmd":"nmap -sV target"}]} trailing]
    gives the plan with that one suggestion. *)
Theorem shape_plan_normalizes (py_repr : json → string)
    (json_loads : string → option json) :
  (∀ s obj, _extract_json json_loads s = Some obj
            ↔ ∃ block, brace_span s block ∧ json_loads block = Some obj)
  ∧ (∀ d l a,
       or_else (or_else (get "next_actions" d) (get "actions" d)) (JList [])
         = JList l →
       a ∈ next_actions (_shape_plan py_repr (JDict d))
       ↔ cmd a ≠ "" ∧ ∃ e, JDict e ∈ l ∧ shape_action py_repr (JDict e) = Some a)
  ∧ (∀ obj a, a ∈ next_actions (_shape_plan py_repr obj) → cmd a ≠ "")
  ∧ (∀ e a, shape_action py_repr (JDict e) = Some a →
       (assoc "noise" e = None → noise a = "low")
       ∧ (assoc "safety" e = None → safety a = "read-only")
       ∧ (∀ s, assoc "cmd" e = Some (JStr s) →
               (∀ c, c ∈ list_ascii_of_string s → is_space c = true) →
               cmd a = ""))
  ∧ (json_loads sample_block = Some sample_object →
     normalize_response py_repr json_loads [] sample_response
     = MkPlan [Suggestion "nmap -sV target" "" "low" "read-only"] [] []).
Proof.
  split_and!.
  - intros s obj. split; [apply extract_brace_span|].
    intros (block & Hspan & Hb). by rewrite (brace_span_extract _ _ _ Hspan).
  - intros d l a Hna. rewrite shape_plan_actions, Hna.
    rewrite elem_of_kept, list_elem_of_omap.
    split.
    + intros [Hc (x & Hx & Ha)]. split; [done|].
      destruct x as [| | | | |e]; try done. by exists e.
    + intros [Hc (e & He & Ha)]. split; [done|]. by exists (JDict e).
  - intros obj a. destruct obj as [| | | | |d];
      try (by intros ?%elem_of_nil).
    rewrite shape_plan_actions.
    destruct (or_else _ _) as [| | | |l|]; try (by intros ?%elem_of_nil).
    rewrite elem_of_kept. by intros [? _].
  - intros e a [= <-]. simpl. split_and!.
    + intros Hn. unfold get_or. by rewrite Hn.
    + intros Hn. unfold get_or. by rewrite Hn.
    + intros s Hc Hs. unfold get_or. rewrite Hc. simpl. by apply sanitize_blank.
  - intros Hloads. unfold normalize_response.
    assert (_extract_json json_loads sample_response = json_loads sample_block)
      as -> by (vm_compute; reflexivity).
    rewrite Hloads. reflexivity.
Qed.

Lemma shape_plan_normalizes_witness :
  normalize_response no_repr Decoder.loads [] sample_response
  = MkPlan [Suggestion "nmap -sV target" "" "low" "read-only"] [] [].
Proof.
  apply (shape_plan_normalizes no_repr Decoder.loads). vm_compute. reflexivity.
Defined.

(** C3, as stated, fails: a body can hold a well-formed JSON block and yet
    yield no object, because the text between its first opening and last
    closing brace is not JSON. *)
Lemma extract_json_skips_inner_block :
  (∃ pre post, sample_two_blocks = pre +:+ sample_inner_block +:+ post)
  ∧ Decoder.loads sample_inner_block
    = Some (JDict [("next_actions", JList [JDict [("cmd", JStr "id")]])])
  ∧ _extract_json Decoder.loads sample_two_blocks = None
  ∧ next_actions (normalize_response no_repr Decoder.loads [] sample_two_blocks)
    = [].
Proof.
  split_and!.
  - exists "{see below} ", "". vm_compute. reflexivity.
  - vm_compute. reflexivity.
  - vm_compute. reflexivity.
  - vm_compute. reflexivity.
Qed.

(** C4 (amended). An absent result and an empty string are coerced into the
    plan whose only note is the marker "empty_model_response" and that
    suggests nothing. *)
Theorem coerce_plan_empty (obj : json) :
  obj = JNull ∨ obj = JStr "" →
  _coerce_plan obj = Ok (Coerced [] [JStr "empty_model_response"] []).
Proof. by intros [-> | ->]. Qed.

Lemma coerce_plan_empty_witness :
  _coerce_plan JNull = Ok (Coerced [] [JStr "empty_model_response"] [])
  ∧ _coerce_plan (JStr "") = Ok (Coerced [] [JStr "empty_model_response"] []).
Proof.
  split.
  - apply coerce_plan_empty. left. reflexivity.
  - apply coerce_plan_empty. right. reflexivity.
Defined.

(** C4, as stated, fails: the note of the plan for an empty string is not
    "empty response". *)
Lemma coerce_plan_marker_is_not_empty_response :
  ¬ ∃ p, _coerce_plan (JStr "") = Ok p
         ∧ c_notes p = [JStr "empty response"] ∧ c_next_actions p = [].
Proof. intros (p & [= <-] & Hn & _). simpl in Hn. discriminate Hn. Qed.

End PlanProofs.

(** ** Topics *)

Section TopicsProofs.
Import Facts Py Topics.
Implicit Types (facts m : gmap string value).

Lemma sub_get_leaf facts cat sub :
  categories_are_dicts facts → cat ∈ categories →
  sub_get facts cat sub = Ok (bool_decide (leaf facts cat sub ≠ [])).
Proof.
  intros Hd Hcat. unfold sub_get, leaf.
  destruct (facts !! cat) as [[l|d]|] eqn:Hk; [|done..].
  by destruct (Hd cat Hcat l).
Qed.

Lemma merge_facts_keeps_dict m B k d :
  m !! k = Some (VDict d) → ∃ d', merge_facts m B !! k = Some (VDict d').
Proof.
  intros Hk.
  assert (m ≠ ∅) as Hm by (intros ->; by rewrite lookup_empty in Hk).
  destruct (decide (B = ∅)) as [->|HB].
  - rewrite merge_facts_empty_r, or_empty_id by done. by exists d.
  - rewrite merge_facts_lookup, or_empty_id, Hk by done.
    pose proof (merge_value_extends (VDict d) (B !! k)) as He.
    destruct (merge_value (VDict d) (B !! k)) as [l|d']; [done|]. by exists d'.
Qed.

Lemma event_facts_categories x xs cat :
  cat ∈ categories → ∃ d, event_facts x xs !! cat = Some (VDict d).
Proof.
  intros Hcat. unfold event_facts.
  assert (∃ d, merge_facts ∅ x !! cat = Some (VDict d)) as Hstart.
  { assert (merge_facts ∅ x = merge_facts _empty x) as ->.
    { unfold merge_facts. by rewrite (or_empty_id _empty empty_ne_empty). }
    assert (∃ d, _empty !! cat = Some (VDict d)) as [d Hd].
    { unfold categories in Hcat.
      repeat (apply elem_of_cons in Hcat as [->|Hcat]; [by eexists|]).
      by apply elem_of_nil in Hcat. }
    by apply merge_facts_keeps_dict with d. }
  revert Hstart. generalize (merge_facts ∅ x).
  induction xs as [|y xs IH]; intros m Hm; simpl; [done|].
  apply IH. destruct Hm as [d Hd]. by apply merge_facts_keeps_dict with d.
Qed.

Lemma event_facts_are_dicts x xs : categories_are_dicts (event_facts x xs).
Proof.
  intros cat Hcat l. destruct (event_facts_categories x xs cat Hcat) as [d ->].
  done.
Qed.

Lemma retrieval_topics_prefix (ts : list string) :
  retrieval_topics ts `prefix_of` ts ∧ length (retrieval_topics ts) ≤ 3.
Proof.
  unfold retrieval_topics. split.
  - exists (drop 3 ts). by rewrite take_drop.
  - rewrite length_take. lia.
Qed.

Lemma or_lazy_Ok (P Q : Prop) `{Decision P, Decision Q} :
  or_lazy (Ok (bool_decide P)) (Ok (bool_decide Q)) = Ok (bool_decide (P ∨ Q)).
Proof.
  unfold or_lazy. simpl. unfold mbind, result_bind.
  rewrite bool_decide_or. by destruct (bool_decide P).
Qed.

(** Membership of a string in an explicit list, both ways. *)
Local Ltac mem_in := by (apply (bool_decide_unpack _); vm_compute).
Local Ltac mem_out H := by (exfalso; revert H; apply (bool_decide_unpack _); vm_compute).
Local Ltac rule_iff :=
  let H := fresh in
  split; intros H; [ first [ done | tauto | mem_out H ] | first [ mem_in | tauto ] ].

(** C5. The topics of a fact set are those of the rules that fire, in the
    order Web, Network, Vulnerabilities, Credentials: "Web" for a URL or a
    domain, "Network" for an IP or a port, "Vulnerabilities" for a CVE,
    "Credentials" for a pair or a password, and "General" exactly when none
    fires; retrieval is asked about the first three at most; and with a URL
    the first topic is "Web". *)
Theorem derive_topics_priority facts :
  categories_are_dicts facts →
  ∃ ts, derive_topics facts = Ok ts
    ∧ ("Web" ∈ ts ↔ has facts "entities" "urls" ∨ has facts "entities" "domains")
    ∧ ("Network" ∈ ts ↔ has facts "entities" "ips" ∨ has facts "artifacts" "ports")
    ∧ ("Vulnerabilities" ∈ ts ↔ has facts "vulns" "cves")
    ∧ ("Credentials" ∈ ts ↔ has facts "creds" "pairs" ∨ has facts "creds" "passwords")
    ∧ ("General" ∈ ts ↔
         ¬ (has facts "entities" "urls" ∨ has facts "entities" "domains")
         ∧ ¬ (has facts "entities" "ips" ∨ has facts "artifacts" "ports")
         ∧ ¬ has facts "vulns" "cves"
         ∧ ¬ (has facts "creds" "pairs" ∨ has facts "creds" "passwords"))
    ∧ (ts = ["General"] ∨ ts `sublist_of` priority)
    ∧ retrieval_topics ts `prefix_of` ts
    ∧ length (retrieval_topics ts) ≤ 3
    ∧ (has facts "entities" "urls" → head ts = Some "Web").
Proof.
  intros Hd. unfold derive_topics.
  rewrite !(sub_get_leaf facts) by (done || (unfold categories; repeat constructor)).
  rewrite !or_lazy_Ok. fold (has facts "vulns" "cves").
  change (leaf facts ?c ?s ≠ []) with (has facts c s).
  destruct (decide (has facts "entities" "urls" ∨ has facts "entities" "domains")) as [Hw|Hw];
  destruct (decide (has facts "entities" "ips" ∨ has facts "artifacts" "ports")) as [Hn|Hn];
  destruct (decide (has facts "vulns" "cves")) as [Hv|Hv];
  destruct (decide (has facts "creds" "pairs" ∨ has facts "creds" "passwords")) as [Hc|Hc];
  rewrite ?(bool_decide_eq_true_2 _ Hw), ?(bool_decide_eq_false_2 _ Hw),
          ?(bool_decide_eq_true_2 _ Hn), ?(bool_decide_eq_false_2 _ Hn),
          ?(bool_decide_eq_true_2 _ Hv), ?(bool_decide_eq_false_2 _ Hv),
          ?(bool_decide_eq_true_2 _ Hc), ?(bool_decide_eq_false_2 _ Hc);
  (eexists; split; [vm_compute; reflexivity|];
   split; [rule_iff|]; split; [rule_iff|]; split; [rule_iff|];
   split; [rule_iff|]; split; [rule_iff|];
   split; [first [ by left
                 | right; unfold priority;
                   repeat first [ apply sublist_nil | apply sublist_skip
                                | apply sublist_cons ] ]|];
   split; [apply retrieval_topics_prefix|];
   split; [apply retrieval_topics_prefix|];
   intros Hu; first [ reflexivity | tauto ]).
Qed.

Lemma derive_topics_priority_witness :
  ∃ ts, derive_topics (event_facts sample_url_facts []) = Ok ts
        ∧ head ts = Some "Web".
Proof.
  destruct (derive_topics_priority (event_facts sample_url_facts []))
    as (ts & Hts & _ & _ & _ & _ & _ & _ & _ & _ & Hweb).
  - apply event_facts_are_dicts.
  - exists ts. split; [done|]. apply Hweb. vm_compute. discriminate.
Defined.

End TopicsProofs.

(** ** Extraction *)

Section ExtractProofs.
Import Facts Py Regex Extract.

Lemma sorted_set_spec (l : list string) :
  StronglySorted String.le (sorted_set l) ∧ NoDup (sorted_set l)
  ∧ ∀ x, x ∈ sorted_set l ↔ x ∈ l.
Proof.
  unfold sorted_set. split_and!.
  - apply (StronglySorted_merge_sort _).
  - rewrite merge_sort_Permutation. apply NoDup_remove_dups.
  - intros x. by rewrite merge_sort_Permutation, elem_of_remove_dups.
Qed.

Lemma sorted_set_unique (l t : list string) :
  StronglySorted String.le t → NoDup t → (∀ x, x ∈ l ↔ x ∈ t) → sorted_set l = t.
Proof.
  intros Hs Hn Hm. destruct (sorted_set_spec l) as (Hs' & Hn' & Hm').
  apply (StronglySorted_unique String.le); [done..|].
  apply NoDup_Permutation; [done..|]. intros x. by rewrite Hm'.
Qed.

Lemma entities_ips_eq other text :
  entities_ips other text = AStr <$> sorted_set (findall RE_IPV4 text).
Proof.
  unfold entities_ips, extract_from_text, Topics.leaf.
  case_bool_decide as Ht.
  - subst text. reflexivity.
  - rewrite lookup_insert_eq. simpl. by rewrite lookup_insert_eq.
Qed.

(** C6. [entities.ips] is the sorted set of the IPv4 matches of the text:
    it lists them in ascending order, none twice, and holds exactly the
    strings the pattern finds; when these are 192.168.1.10, 10.0.0.5 and
    8.8.8.8, however often each occurs, it is 10.0.0.5, 192.168.1.10,
    8.8.8.8. *)
Theorem extract_ips_sorted_set (other : string → matches) (text : string) :
  ∃ l, entities_ips other text = AStr <$> l
    ∧ StronglySorted String.le l ∧ NoDup l
    ∧ (∀ x, x ∈ l ↔ x ∈ findall RE_IPV4 text)
    ∧ ((∀ x, x ∈ findall RE_IPV4 text
             ↔ x ∈ ["192.168.1.10"; "10.0.0.5"; "8.8.8.8"]) →
       l = ["10.0.0.5"; "192.168.1.10"; "8.8.8.8"]).
Proof.
  exists (sorted_set (findall RE_IPV4 text)).
  destruct (sorted_set_spec (findall RE_IPV4 text)) as (Hs & Hn & Hm).
  split_and!; [apply entities_ips_eq | done..|].
  intros Hthree. apply sorted_set_unique.
  - repeat (constructor; [|by repeat constructor]). constructor.
  - apply (bool_decide_unpack _). by vm_compute.
  - intros x. rewrite Hthree. rewrite !elem_of_cons. tauto.
Qed.

Lemma extract_ips_sorted_set_witness :
  entities_ips no_matches sample_scan
  = [AStr "10.0.0.5"; AStr "192.168.1.10"; AStr "8.8.8.8"].
Proof.
  destruct (extract_ips_sorted_set no_matches sample_scan)
    as (l & -> & _ & _ & _ & Hthree).
  rewrite Hthree; [reflexivity|].
  intros x. change (findall RE_IPV4 sample_scan)
    with ["192.168.1.10"; "10.0.0.5"; "8.8.8.8"; "192.168.1.10"].
  rewrite !elem_of_cons. tauto.
Defined.

End ExtractProofs.

(** ** The retrieval store *)

Section RetrieverProofs.
Import Py Retriever.

Lemma foldl_put_union `{Countable K} {V} (l : list (K * V)) (t : gmap K V) :
  foldl put t l = list_to_map (reverse l) ∪ t.
Proof.
  revert t. induction l as [|[k v] l IH]; intros t; simpl.
  - symmetry. apply (left_id_L (∅ : gmap K V) (∪)).
  - rewrite IH, reverse_cons, list_to_map_app. unfold put. simpl.
    rewrite <- (assoc_L (∪)). f_equal.
    rewrite insert_union_singleton_l. f_equal.
Qed.

Lemma foldl_put_replay `{Countable K} {V} (l : list (K * V)) (t : gmap K V) :
  foldl put (foldl put t l) l = foldl put t l.
Proof.
  rewrite !foldl_put_union. rewrite (assoc_L (∪)). by rewrite (idemp_L (∪)).
Qed.

Lemma foldl_write_tables (tr : list (string * nat * row)) (d : db) :
  foldl write d tr
  = Db (foldl put (chunks d) (chunk_write <$> tr))
       (foldl put (chunks_fts d) (fts_write <$> tr)).
Proof.
  revert d. induction tr as [|[[cid r] rw] tr IH]; intros d; simpl.
  - by destruct d.
  - by rewrite IH.
Qed.

Lemma foldl_write_replay (tr : list (string * nat * row)) (d : db) :
  foldl write (foldl write d tr) tr = foldl write d tr.
Proof.
  rewrite (foldl_write_tables tr d). rewrite foldl_write_tables. simpl.
  by rewrite !foldl_put_replay.
Qed.

Lemma upsert_trace (es : list (string * row)) (d : db) :
  foldl _upsert_chunk d es = foldl write d (trace (chunks d) es).
Proof.
  revert d. induction es as [|[cid rw] es IH]; intros d; simpl; [done|].
  by rewrite IH.
Qed.

Lemma rowid_for_Some t cid r x : t !! cid = Some (r, x) → rowid_for t cid = r.
Proof. unfold rowid_for. by intros ->. Qed.

Lemma trace_stable es (t : gmap string (nat * row)) cid r x :
  t !! cid = Some (r, x) →
  ∃ x', foldl put t (chunk_write <$> trace t es) !! cid = Some (r, x').
Proof.
  revert t x. induction es as [|[c rw] es IH]; intros t x Hk; simpl.
  - by exists x.
  - unfold put at 2. simpl. destruct (decide (c = cid)) as [->|Hne].
    + apply (IH _ rw). rewrite (rowid_for_Some _ _ _ _ Hk).
      apply lookup_insert_eq.
    + apply (IH _ x). by rewrite lookup_insert_ne.
Qed.

Lemma trace_agree es (t : gmap string (nat * row)) cid r rw :
  (cid, r, rw) ∈ trace t es →
  ∃ x, foldl put t (chunk_write <$> trace t es) !! cid = Some (r, x).
Proof.
  revert t. induction es as [|[c rw'] es IH]; intros t; simpl.
  - by intros ?%elem_of_nil.
  - intros [Heq|Hin]%elem_of_cons.
    + injection Heq as -> -> ->. unfold put at 2. simpl.
      apply (trace_stable es _ c _ rw'). apply lookup_insert_eq.
    + unfold put at 2. simpl. by apply IH.
Qed.

Lemma trace_same es (t t' : gmap string (nat * row)) :
  (∀ cid r rw, (cid, r, rw) ∈ trace t es → ∃ x, t' !! cid = Some (r, x)) →
  trace t' es = trace t es.
Proof.
  revert t t'. induction es as [|[c rw] es IH]; intros t t' Hag; simpl; [done|].
  destruct (Hag c (rowid_for t c) rw) as [x Hc]; [simpl; by left|].
  rewrite (rowid_for_Some _ _ _ _ Hc). f_equal.
  apply IH. intros cid r rw' Hin.
  destruct (Hag cid r rw') as [x' Hx']; [simpl; by right|].
  destruct (decide (c = cid)) as [->|Hne].
  - rewrite Hc in Hx'. injection Hx' as <- _.
    eexists. apply lookup_insert_eq.
  - exists x'. by rewrite lookup_insert_ne.
Qed.

Lemma upsert_twice (es : list (string * row)) (d : db) :
  foldl _upsert_chunk (foldl _upsert_chunk d es) es = foldl _upsert_chunk d es.
Proof.
  rewrite (upsert_trace es (foldl _upsert_chunk d es)).
  rewrite (upsert_trace es d).
  rewrite (trace_same es (chunks d)
             (chunks (foldl write d (trace (chunks d) es)))).
  - apply foldl_write_replay.
  - intros cid r rw Hin. rewrite foldl_write_tables. simpl.
    by apply trace_agree with rw.
Qed.

Lemma trace_ids es (t : gmap string (nat * row)) :
  (chunk_write <$> trace t es).*1 = es.*1.
Proof.
  revert t. induction es as [|[c rw] es IH]; intros t; simpl; [done|].
  by rewrite IH.
Qed.

Lemma upsert_dom (es : list (string * row)) (d : db) :
  dom (chunks (foldl _upsert_chunk d es)) = dom (chunks d) ∪ list_to_set es.*1.
Proof.
  rewrite upsert_trace, foldl_write_tables. simpl.
  rewrite foldl_put_union, dom_union_L, dom_list_to_map_L.
  apply set_eq. intros k. rewrite !elem_of_union, !elem_of_list_to_set.
  rewrite fmap_reverse, elem_of_reverse, trace_ids. tauto.
Qed.

(** C7. The id of a chunk is the hash of the path of the source, the index
    of the chunk and its title, and nothing else; ingesting a document
    adds exactly the ids of its chunks to the store; and ingesting it once
    more leaves the store as it is, rows and full-text index included, and
    returns the same count. *)
Theorem ingest_html_idempotent (sha1_hex : string → string) (path : string)
    (doc : soup) (d : db) :
  chunk_ids sha1_hex path doc
    = imap (λ i ch, sha1_hex (path +:+ ":" +:+ pretty i +:+ ":" +:+ title ch))
           (_chunk_html doc)
  ∧ dom (chunks (ingest_html sha1_hex path doc d).1)
    = dom (chunks d) ∪ list_to_set (chunk_ids sha1_hex path doc)
  ∧ ingest_html sha1_hex path doc (ingest_html sha1_hex path doc d).1
    = ingest_html sha1_hex path doc d.
Proof.
  split_and!.
  - unfold chunk_ids, entries. rewrite fmap_imap. done.
  - apply upsert_dom.
  - unfold ingest_html. simpl. by rewrite upsert_twice.
Qed.

End RetrieverProofs.

(** ** The backends *)

Section ProvidersProofs.
Import Py Plan Providers Ollama.

Variable json_loads : string → option json.
Variable json_dumps : json → string.
Variable py_repr : json → string.
Variable _redact_text : string → string.
Variable env : gmap string string.
Variable system_prompt : string.
Variable openai_create : bool → request → result string.
Variable TEMPLATE_format : string → string.
Variable anthropic_post : string → string → result response.

Abbreviation call := (call_model json_loads openai_create).
Abbreviation openai :=
  (plan_with_openai json_loads json_dumps py_repr _redact_text env
                    system_prompt openai_create).
Abbreviation anthropic :=
  (plan_with_anthropic json_loads json_dumps py_repr _redact_text env
                       TEMPLATE_format anthropic_post).
Abbreviation try_chain := (try_models json_loads system_prompt openai_create).

Lemma bind_Ok {A B} (a : A) (f : A → result B) : (Ok a ≫= f) = f a.
Proof. done. Qed.

Lemma bind_Raise {A B} (e : string) (f : A → result B) :
  (Raise e ≫= f) = Raise e.
Proof. done. Qed.

Lemma try_models_first_success pre m post blob sent last_err plan :
  (∀ x, x ∈ pre → ∃ e, call (Request x system_prompt blob) = Raise e) →
  call (Request m system_prompt blob) = Ok plan →
  ∃ last_err',
    try_chain (pre ++ m :: post) blob sent last_err
    = (sent ++ ((λ x, Request x system_prompt blob) <$> (pre ++ [m])),
       last_err', Some plan).
Proof.
  revert sent last_err. induction pre as [|x pre IH]; intros sent last_err Hpre Hm.
  - simpl. rewrite Hm. by exists last_err.
  - destruct (Hpre x) as [e He]; [by left|].
    simpl. rewrite He.
    destruct (IH (sent ++ [Request x system_prompt blob]) (Some e))
      as [le' ->]; [|done|].
    + intros y Hy. apply Hpre. by right.
    + exists le'. by rewrite <- app_assoc.
Qed.

Lemma try_models_all_fail ms blob sent last_err :
  (∀ x, x ∈ ms → ∃ e, call (Request x system_prompt blob) = Raise e) →
  ∃ last_err',
    try_chain ms blob sent last_err
    = (sent ++ ((λ x, Request x system_prompt blob) <$> ms), last_err', None).
Proof.
  revert sent last_err. induction ms as [|x ms IH]; intros sent last_err Hms.
  - simpl. exists last_err. by rewrite app_nil_r.
  - destruct (Hms x) as [e He]; [by left|].
    simpl. rewrite He.
    destruct (IH (sent ++ [Request x system_prompt blob]) (Some e)) as [le' ->].
    + intros y Hy. apply Hms. by right.
    + exists le'. by rewrite <- app_assoc.
Qed.

Lemma try_models_requests ms blob sent last_err rq :
  rq ∈ (try_chain ms blob sent last_err).1.1 →
  rq ∈ sent ∨ rq_user rq = blob.
Proof.
  revert sent last_err. induction ms as [|x ms IH]; intros sent last_err; simpl.
  - by left.
  - destruct (call _).
    + simpl. intros [?|Hin]%elem_of_app; [by left|].
      apply list_elem_of_singleton in Hin as ->. by right.
    + intros [[?|Hin]%elem_of_app|?]%IH; [by left| |by right].
      apply list_elem_of_singleton in Hin as ->. by right.
Qed.

Lemma anthropic_single_request model payload allow_cloud sent p :
  anthropic model payload allow_cloud = Ok (sent, p) →
  length sent ≤ 1
  ∧ ∀ m prompt e, sent = [(m, prompt)] → anthropic_post m prompt = Raise e →
      p = note_plan ["anthropic_request_error:" +:+ e].
Proof.
  unfold plan_with_anthropic. cbv zeta.
  set (model' := strip_char dquote _). clearbody model'.
  destruct (negb (truthy (JStr (getenv env "ANTHROPIC_API_KEY")))).
  { intros [= <- <-]. split; [simpl; lia | done]. }
  destruct (negb (truthy (JStr model'))).
  { intros [= <- <-]. split; [simpl; lia | done]. }
  destruct (build_prompt _ _ _) as [prompt|e];
    [rewrite bind_Ok | by rewrite bind_Raise].
  destruct (anthropic_post model' prompt) as [r|e] eqn:Hpost.
  - assert (∀ q, Ok ([(model', prompt)], q) = Ok (sent, p) →
          length sent ≤ 1
          ∧ ∀ m prompt' e, sent = [(m, prompt')] →
              anthropic_post m prompt' = Raise e →
              p = note_plan ["anthropic_request_error:" +:+ e]) as Hany.
    { intros q [= <- <-]. split; [simpl; lia|].
      intros m prompt' e [= <- <-] He. by rewrite Hpost in He. }
    destruct (400 <=? status_code r); [apply Hany|].
    destruct (response_text r); [|apply Hany].
    destruct (_extract_json _ _) as [obj|]; [|apply Hany].
    destruct (truthy obj); apply Hany.
  - intros [= <- <-]. split; [simpl; lia|].
    intros m prompt' e' [= <- <-] He. rewrite Hpost in He. by injection He as <-.
Qed.

(** C8 (amended). The OpenAI backend walks an ordered chain of models, the
    requested one first, then those of AIC_OPENAI_FALLBACKS or else the
    built-in ones: the first model whose call returns ends the walk and
    gives the result, the models after it are not called, and when every
    call fails all have been called and a failure note is returned. The
    Anthropic backend posts at most one request, and when that request
    fails it returns the failure note. *)
Theorem hosted_fallback_chain (model : string) (payload : json)
    (allow_cloud : bool) (user_blob : string) :
  truthy (JStr (getenv env "OPENAI_API_KEY")) = true →
  _user_payload json_dumps (redact _redact_text payload allow_cloud) = Ok user_blob →
  let chain := models_to_try env model in
  let rq := λ m, Request m system_prompt user_blob in
  chain = model :: (if truthy (JStr (getenv env "AIC_OPENAI_FALLBACKS"))
                    then env_fallbacks env else default_fallbacks)
  ∧ (∀ pre m post plan,
       chain = pre ++ m :: post →
       (∀ x, x ∈ pre → ∃ e, call (rq x) = Raise e) →
       call (rq m) = Ok plan →
       openai model payload allow_cloud = Ok (rq <$> (pre ++ [m]), plan))
  ∧ ((∀ x, x ∈ chain → ∃ e, call (rq x) = Raise e) →
       ∃ msg, openai model payload allow_cloud
              = Ok (rq <$> chain, _fallback_plan msg))
  ∧ (∀ sent p,
       anthropic model payload allow_cloud = Ok (sent, p) →
       length sent ≤ 1
       ∧ ∀ m prompt e, sent = [(m, prompt)] → anthropic_post m prompt = Raise e →
           p = note_plan ["anthropic_request_error:" +:+ e]).
Proof.
  intros Hkey Hblob chain rq. split_and!.
  - done.
  - intros pre m post plan Hchain Hpre Hm. unfold plan_with_openai.
    rewrite Hkey, Hblob, bind_Ok. cbv zeta. subst chain. rewrite Hchain.
    destruct (try_models_first_success pre m post user_blob [] None plan Hpre Hm)
      as [le' ->]. done.
  - intros Hall. unfold plan_with_openai.
    rewrite Hkey, Hblob, bind_Ok. cbv zeta.
    destruct (try_models_all_fail chain user_blob [] None Hall) as [le' Htry].
    subst chain. rewrite Htry. by eexists.
  - apply anthropic_single_request.
Qed.

Variable instruction : string → string → string → string → string → string → string.
Variable get_version : nat → result response.
Variable popen_serve : bool.
Variable get_tags : result response.
Variable run_pull : nat → string → pull_outcome.
Variable post_generate : nat → string → string → result response.

Abbreviation ollama :=
  (plan_with_ollama json_loads json_dumps py_repr env instruction get_version
                    popen_serve get_tags run_pull post_generate).
Abbreviation local_prompt := (Ollama._build_prompt json_dumps py_repr instruction).

Lemma openai_requests model payload allow_cloud sent plan rq :
  openai model payload allow_cloud = Ok (sent, plan) → rq ∈ sent →
  _user_payload json_dumps (redact _redact_text payload allow_cloud)
  = Ok (rq_user rq).
Proof.
  unfold plan_with_openai.
  destruct (negb (truthy (JStr (getenv env "OPENAI_API_KEY")))).
  { intros [= <- <-] Hin. by apply elem_of_nil in Hin. }
  destruct (_user_payload _ _) as [blob|e];
    [rewrite bind_Ok | by rewrite bind_Raise].
  cbv zeta.
  destruct (try_chain _ blob [] None) as [[sent' le] [pl|]] eqn:Htry;
    intros [= <- <-] Hin.
  - pose proof (try_models_requests (models_to_try env model) blob [] None rq) as Hr.
    rewrite Htry in Hr. destruct (Hr Hin) as [Hnil| ->]; [|done].
    by apply elem_of_nil in Hnil.
  - pose proof (try_models_requests (models_to_try env model) blob [] None rq) as Hr.
    rewrite Htry in Hr. destruct (Hr Hin) as [Hnil| ->]; [|done].
    by apply elem_of_nil in Hnil.
Qed.

Lemma anthropic_requests model payload allow_cloud sent p rq :
  anthropic model payload allow_cloud = Ok (sent, p) → rq ∈ sent →
  build_prompt json_dumps TEMPLATE_format (redact _redact_text payload allow_cloud)
  = Ok rq.2.
Proof.
  unfold plan_with_anthropic. cbv zeta.
  set (model' := strip_char dquote _). clearbody model'.
  destruct (negb (truthy (JStr (getenv env "ANTHROPIC_API_KEY")))).
  { intros [= <- <-] Hin. by apply elem_of_nil in Hin. }
  destruct (negb (truthy (JStr model'))).
  { intros [= <- <-] Hin. by apply elem_of_nil in Hin. }
  destruct (build_prompt _ _ _) as [prompt|e];
    [rewrite bind_Ok | by rewrite bind_Raise].
  assert (∀ q, Ok ([(model', prompt)], q) = Ok (sent, p) → rq ∈ sent →
               Ok prompt = Ok rq.2) as Hany.
  { intros q [= <- <-] Hin. by apply list_elem_of_singleton in Hin as ->. }
  destruct (anthropic_post model' prompt) as [r|e]; [|apply Hany].
  destruct (400 <=? status_code r); [apply Hany|].
  destruct (response_text r); [|apply Hany].
  destruct (_extract_json _ _) as [obj|]; [|apply Hany].
  destruct (truthy obj); apply Hany.
Qed.

Lemma ollama_requests model payload allow_cloud sent p rq :
  ollama model payload allow_cloud = Ok (sent, p) → rq ∈ sent →
  local_prompt payload = Ok rq.2.
Proof.
  unfold plan_with_ollama. cbv zeta.
  set (model' := _clean_tag _). clearbody model'.
  unfold mbind, Py.result_bind.
  repeat case_match; try done; intros [= <- <-] Hin;
    repeat (apply elem_of_cons in Hin as [->|Hin]; [done|]);
    by apply elem_of_nil in Hin.
Qed.

(** C9. With [allow_cloud] the redaction is the identity, without it the
    redaction is [walk], which rewrites every string of the payload; what
    the OpenAI and the Anthropic backend send is built from the redacted
    payload and from nothing else of the payload, so that two payloads with
    the same redaction give the same run; and what the local backend sends
    is built from the payload as it is, whatever [allow_cloud] says. *)
Theorem redaction_before_hosted_calls (payload : json) :
  redact _redact_text payload true = payload
  ∧ redact _redact_text payload false = walk _redact_text payload
  ∧ (∀ s, walk _redact_text (JStr s) = JStr (_redact_text s))
  ∧ (∀ l, walk _redact_text (JList l) = JList (walk _redact_text <$> l))
  ∧ (∀ d, walk _redact_text (JDict d)
          = JDict ((λ kv, (kv.1, walk _redact_text kv.2)) <$> d))
  ∧ (∀ model ac p2 ac2,
       redact _redact_text payload ac = redact _redact_text p2 ac2 →
       openai model payload ac = openai model p2 ac2)
  ∧ (∀ model ac sent plan rq,
       openai model payload ac = Ok (sent, plan) → rq ∈ sent →
       _user_payload json_dumps (redact _redact_text payload ac)
       = Ok (rq_user rq))
  ∧ (∀ model ac p2 ac2,
       redact _redact_text payload ac = redact _redact_text p2 ac2 →
       anthropic model payload ac = anthropic model p2 ac2)
  ∧ (∀ model ac sent p rq,
       anthropic model payload ac = Ok (sent, p) → rq ∈ sent →
       build_prompt json_dumps TEMPLATE_format (redact _redact_text payload ac)
       = Ok rq.2)
  ∧ (∀ model ac sent p rq,
       ollama model payload ac = Ok (sent, p) → rq ∈ sent →
       local_prompt payload = Ok rq.2)
  ∧ (∀ model, ollama model payload true = ollama model payload false).
Proof.
  split_and!; try done.
  - intros d. simpl. f_equal. apply list_eq. intros i.
    rewrite !list_lookup_fmap. by destruct (d !! i) as [[k v]|].
  - intros model ac p2 ac2 Hred. unfold plan_with_openai. by rewrite Hred.
  - intros model ac sent pl rq. apply openai_requests.
  - intros model ac p2 ac2 Hred. unfold plan_with_anthropic. by rewrite Hred.
  - intros model ac sent pl rq. apply anthropic_requests.
  - intros model ac sent pl rq. apply ollama_requests.
Qed.

End ProvidersProofs.

Lemma hosted_fallback_chain_witness :
  Providers.plan_with_openai Py.Decoder.loads Providers.sample_dumps Plan.no_repr
    Providers.sample_redact_text Providers.sample_env "sys"
    Providers.sample_openai "m1" Providers.sample_payload false
  = Py.Ok ([Providers.Request "m1" "sys" "<redacted>";
            Providers.Request "m2" "sys" "<redacted>"], Py.JDict []).
Proof.
  destruct (hosted_fallback_chain Py.Decoder.loads Providers.sample_dumps
              Plan.no_repr Providers.sample_redact_text Providers.sample_env
              "sys" Providers.sample_openai id Providers.sample_post
              "m1" Providers.sample_payload false "<redacted>")
    as (_ & Hfirst & _); [reflexivity | reflexivity |].
  apply (Hfirst ["m1"] "m2" ["m3"]).
  - reflexivity.
  - intros x Hx. apply list_elem_of_singleton in Hx as ->.
    exists "model_not_found". reflexivity.
  - reflexivity.
Defined.

(** C8, as stated, fails for the Anthropic backend: with a fallback list in
    the environment and a second model that would answer, the failure of
    the request for the first model is final, while the OpenAI backend goes
    on to the second model in the same situation. *)
Lemma anthropic_does_not_fall_back :
  Providers.plan_with_anthropic Py.Decoder.loads Providers.sample_dumps
    Plan.no_repr Providers.sample_redact_text Providers.sample_env id
    Providers.sample_post "m1" Providers.sample_payload false
  = Py.Ok ([("m1", "<redacted>")],
           Plan.note_plan ["anthropic_request_error:connection refused"])
  ∧ Providers.sample_post "m2" "<redacted>"
    = Py.Ok (Providers.Response 200 "" (Py.Ok (Py.JDict [])))
  ∧ Providers.sample_env !! "AIC_ANTHROPIC_FALLBACKS" = Some "m2, m3"
  ∧ Providers.models_called
      (Providers.plan_with_openai Py.Decoder.loads Providers.sample_dumps
         Plan.no_repr Providers.sample_redact_text Providers.sample_env "sys"
         Providers.sample_openai "m1" Providers.sample_payload false)
    = ["m1"; "m2"].
Proof. vm_compute. done. Qed.

Lemma redaction_before_hosted_calls_witness :
  Providers._user_payload Providers.sample_dumps
    (Providers.redact Providers.sample_redact_text Providers.sample_payload false)
  = Py.Ok "<redacted>"
  ∧ Providers._user_payload Providers.sample_dumps
      (Providers.redact Providers.sample_redact_text Providers.sample_payload true)
    = Py.Ok "ssh root@10.0.0.5"
  ∧ Providers.build_prompt Providers.sample_dumps id
      (Providers.redact Providers.sample_redact_text Providers.sample_payload false)
    = Py.Ok "<redacted>"
  ∧ Ollama._build_prompt Providers.sample_dumps Plan.no_repr
      Ollama.sample_instruction Providers.sample_payload
    = Py.Ok "ssh root@10.0.0.5".
Proof.
  destruct (redaction_before_hosted_calls Py.Decoder.loads Providers.sample_dumps
              Plan.no_repr Providers.sample_redact_text Providers.sample_env
              "sys" Providers.sample_openai id Providers.sample_post
              Ollama.sample_instruction Ollama.sample_version true
              Ollama.sample_tags Ollama.sample_pull Ollama.sample_generate
              Providers.sample_payload)
    as (_ & _ & _ & _ & _ & _ & Hopenai & _ & Hanthropic & Hollama & _).
  split_and!.
  - apply (Hopenai "m2" false [Providers.Request "m2" "sys" "<redacted>"]
             (Py.JDict []) (Providers.Request "m2" "sys" "<redacted>"));
      [vm_compute; reflexivity | constructor].
  - apply (Hopenai "m2" true [Providers.Request "m2" "sys" "ssh root@10.0.0.5"]
             (Py.JDict []) (Providers.Request "m2" "sys" "ssh root@10.0.0.5"));
      [vm_compute; reflexivity | constructor].
  - apply (Hanthropic "m2" false [("m2", "<redacted>")]
             (Plan.note_plan ["unparsable_llm_output"; ""]) ("m2", "<redacted>"));
      [vm_compute; reflexivity | constructor].
  - apply (Hollama "m1" false [("m1", "ssh root@10.0.0.5")]
             (Plan.note_plan ["parse_error:response_not_json"; "{}"])
             ("m1", "ssh root@10.0.0.5"));
      [vm_compute; reflexivity | constructor].
Defined.

(** ** The agent loop *)

Section AgentProofs.
Import Facts Py Plan Topics Agent.

Variable model_validate_json : string → option LogEvent.
Variable other : string → Extract.matches.
Variable file_facts : LogEvent → list (gmap string value).
Variable retrieve : string → result (list hit).
Variable _recent_events : list json.
Variable provider profile model : string.
Variable dry_run allow_cloud : bool.
Variable plan_with_ollama : string → json → result json.
Variable plan_with_openai : string → json → bool → result json.
Variable plan_with_anthropic : string → json → bool → result json.

Abbreviation event :=
  (process_event other file_facts retrieve _recent_events provider profile model
                 dry_run allow_cloud plan_with_ollama plan_with_openai
                 plan_with_anthropic).
Abbreviation pass :=
  (process_lines model_validate_json other file_facts retrieve _recent_events
                 provider profile model dry_run allow_cloud plan_with_ollama
                 plan_with_openai plan_with_anthropic).
Abbreviation agent :=
  (run_agent model_validate_json other file_facts retrieve _recent_events
             provider profile model dry_run allow_cloud plan_with_ollama
             plan_with_openai plan_with_anthropic).
Abbreviation events := (valid_events model_validate_json).
Abbreviation parse := (parse_line model_validate_json).

Lemma derive_topics_nonempty facts topics :
  derive_topics facts = Ok topics → retrieval_topics topics ≠ [].
Proof.
  unfold derive_topics.
  destruct (or_lazy (sub_get facts "entities" "urls") _) as [web|];
    [rewrite bind_Ok | by rewrite bind_Raise].
  destruct (or_lazy (sub_get facts "entities" "ips") _) as [net|];
    [rewrite bind_Ok | by rewrite bind_Raise].
  destruct (sub_get facts "vulns" "cves") as [vul|];
    [rewrite bind_Ok | by rewrite bind_Raise].
  destruct (or_lazy (sub_get facts "creds" "pairs") _) as [cre|];
    [rewrite bind_Ok | by rewrite bind_Raise].
  intros [= <-]. by destruct web, net, vul, cre.
Qed.

Lemma mapM_first_raises {A B} (f : A → result B) x l e :
  f x = Raise e → mapM f (x :: l) = Raise e.
Proof. intros H. simpl. by rewrite H. Qed.

(** When the store cannot be read, no event reaches the audit line. *)
Lemma process_event_store_down evt :
  (∀ t, ∃ e, retrieve t = Raise e) → ∃ e, event evt = Raise e.
Proof.
  intros Hdown. unfold process_event. cbv zeta.
  destruct (derive_topics _) as [topics|e] eqn:Ht; [|by exists e].
  rewrite bind_Ok. apply derive_topics_nonempty in Ht.
  destruct (retrieval_topics topics) as [|t ts]; [done|].
  destruct (Hdown t) as [e He]. exists e.
  by rewrite (mapM_first_raises _ _ _ _ He).
Qed.

(** A plan whose [next_actions] is null does not reach the audit line
    either: [list(None)] raises outside the inner [try]. *)
Lemma coerce_plan_null_raises d :
  assoc "next_actions" d = Some JNull → ∃ e, _coerce_plan (JDict d) = Raise e.
Proof.
  intros H. unfold _coerce_plan, get_or. rewrite H. by eexists.
Qed.

(** When nothing escapes the loop body, a pass appends one record per
    parseable event, in the order of the lines. *)
Lemma process_lines_all_ok lines :
  (∀ evt, evt ∈ events lines →
          ∃ r, event evt = Ok r ∧ print_summary (a_plan r) = Ok ()) →
  ∃ rs, pass lines = (rs, None)
        ∧ Forall2 (λ evt r, event evt = Ok r) (events lines) rs.
Proof.
  induction lines as [|line rest IH]; intros Hok.
  { exists []. split; [done | constructor]. }
  unfold valid_events in *. simpl in *.
  destruct (parse line) as [evt|] eqn:Hp.
  - destruct (Hok evt) as (r & Hr & Hs); [left|].
    destruct IH as (rs & Hrs & Hall).
    { intros x Hx. apply Hok. by right. }
    exists (r :: rs). rewrite Hr, Hs, Hrs. split; [done | by constructor].
  - by apply IH.
Qed.

Lemma process_lines_store_down lines :
  (∀ t, ∃ e, retrieve t = Raise e) → (pass lines).1 = [].
Proof.
  intros Hdown. induction lines as [|line rest IH]; [done|]. simpl.
  destruct (parse line) as [evt|]; [|done].
  by destruct (process_event_store_down evt Hdown) as [e ->].
Qed.

(** C2 fails in the code. When retrieval raises (the store cannot be
    opened or read), no pass over the session log appends any audit
    record, however many lines are parseable events, and a pass that
    holds a parseable event ends in the handler of the outer [try], its
    cursor past all the lines read. *)
Theorem retrieval_failure_drops_audit_records (passes : list (list string)) :
  (∀ t, ∃ e, retrieve t = Raise e) →
  run_agent model_validate_json other file_facts retrieve _recent_events
            provider profile model dry_run allow_cloud plan_with_ollama
            plan_with_openai plan_with_anthropic passes = []
  ∧ ∀ lines, lines ∈ passes → valid_events model_validate_json lines ≠ [] →
             ∃ e, process_lines model_validate_json other file_facts retrieve
                    _recent_events provider profile model dry_run allow_cloud
                    plan_with_ollama plan_with_openai plan_with_anthropic lines
                  = ([], Some e).
Proof.
  intros Hdown. split.
  - induction passes as [|lines rest IH]; [done|].
    unfold run_agent in *. rewrite fmap_cons. cbn [concat].
    by rewrite (process_lines_store_down lines Hdown).
  - intros lines _. induction lines as [|line rest IH]; [done|].
    unfold valid_events in *. simpl.
    destruct (parse line) as [evt|]; [|done]. intros _.
    destruct (process_event_store_down evt Hdown) as [e ->]. by exists e.
Qed.

End AgentProofs.

Lemma retrieval_failure_drops_audit_records_witness :
  length (Agent.valid_events Agent.sample_validate Agent.sample_session) = 2
  ∧ Agent.run_agent Agent.sample_validate Extract.no_matches Agent.no_files
      Agent.store_down [] "local" "prod-safe" "m1" false false Agent.backend_ok
      Agent.backend_null Agent.backend_null [Agent.sample_session]
    = [].
Proof.
  split; [reflexivity|].
  apply (retrieval_failure_drops_audit_records Agent.sample_validate
           Extract.no_matches Agent.no_files Agent.store_down [] "local"
           "prod-safe" "m1" false false Agent.backend_ok Agent.backend_null
           Agent.backend_null [Agent.sample_session]).
  intros t. by eexists.
Defined.

(** With the store in order the same session log gives its two records,
    and a backend answer with a null [next_actions] loses them again. *)
Lemma sample_session_audit :
  length (Agent.run_agent Agent.sample_validate Extract.no_matches Agent.no_files
            Agent.store_empty [] "local" "prod-safe" "m1" false false
            Agent.backend_ok Agent.backend_null Agent.backend_null
            [Agent.sample_session]) = 2
  ∧ Agent.run_agent Agent.sample_validate Extract.no_matches Agent.no_files
      Agent.store_empty [] "openai" "prod-safe" "m1" false false
      Agent.backend_ok Agent.backend_null Agent.backend_null
      [Agent.sample_session] = [].
Proof. split; vm_compute; reflexivity. Qed.

(** ** Merging as a union *)

Section UnionProofs.
Import Facts Py Topics Regex Extract Agent.

Lemma extend_unique_elem a b x : x ∈ _extend_unique a b ↔ x ∈ a ∨ x ∈ b.
Proof.
  split.
  - destruct (extend_unique_leaf_extends a b) as (extra & -> & _ & Hnew & _).
    intros [?|Hx]%elem_of_app; [by left|]. right. by destruct (Hnew x Hx).
  - intros [?|?]; [by apply extend_unique_elem_l | by apply extend_unique_elem_r].
Qed.

Lemma leaf_merge_facts m A cat sub d l :
  m !! cat = Some (VDict d) → d !! sub = Some l →
  leaf (merge_facts m A) cat sub = _extend_unique l (leaf A cat sub).
Proof.
  intros Hcat Hsub.
  assert (m ≠ ∅) as Hm by (intros ->; by rewrite lookup_empty in Hcat).
  unfold leaf at 1. destruct (decide (A = ∅)) as [->|HA].
  - rewrite merge_facts_empty_r, or_empty_id, Hcat, Hsub by done. simpl.
    unfold leaf. by rewrite lookup_empty.
  - rewrite merge_facts_lookup, or_empty_id, Hcat by done. unfold leaf.
    destruct (A !! cat) as [[a|d']|]; simpl; rewrite ?Hsub; try done.
    by rewrite map_lookup_imap, Hsub.
Qed.

Lemma leaf_merge_facts_elem m A cat sub x :
  x ∈ leaf m cat sub → x ∈ leaf (merge_facts m A) cat sub.
Proof.
  unfold leaf at 1. destruct (m !! cat) as [[a|d]|] eqn:Hcat;
    try (by intros ?%elem_of_nil).
  destruct (d !! sub) as [l|] eqn:Hsub; simpl; [|by intros ?%elem_of_nil].
  intros Hx. rewrite (leaf_merge_facts m A cat sub d l) by done.
  by apply extend_unique_elem_l.
Qed.

(** X1. Merging is a union, leaf by leaf. Under a category and a
    sub-key that the accumulator holds, a value is in the leaf after the
    merge exactly when it was there before or the incoming facts hold it
    at the same place; so two fact sets merged in either order leave the
    same values in every such leaf, and differ in their order at most. *)
Theorem merge_facts_is_a_union (m A B : gmap string value) (cat sub : string)
    (d : gmap string (list atom)) (l : list atom) :
  m !! cat = Some (VDict d) → d !! sub = Some l →
  (∀ x, x ∈ leaf (merge_facts m A) cat sub
        ↔ x ∈ leaf m cat sub ∨ x ∈ leaf A cat sub)
  ∧ (∀ x, x ∈ leaf (merge_facts (merge_facts m A) B) cat sub
          ↔ x ∈ leaf (merge_facts (merge_facts m B) A) cat sub)
  ∧ (NoDup l → NoDup (leaf (merge_facts m A) cat sub)).
Proof.
  intros Hcat Hsub.
  assert (leaf m cat sub = l) as Hl by (unfold leaf; by rewrite Hcat, Hsub).
  assert (∀ C, ∃ d' l', merge_facts m C !! cat = Some (VDict d')
                        ∧ d' !! sub = Some l'
                        ∧ ∀ x, x ∈ l' ↔ x ∈ l ∨ x ∈ leaf C cat sub) as Hstep.
  { intros C.
    pose proof (leaf_merge_facts m C cat sub d l Hcat Hsub) as HC.
    assert (m ≠ ∅) as Hm by (intros ->; by rewrite lookup_empty in Hcat).
    destruct (decide (C = ∅)) as [->|HCne].
    - exists d, l. rewrite merge_facts_empty_r, or_empty_id by done.
      split_and!; [done..|]. intros x. unfold leaf. rewrite lookup_empty.
      split; [by left | by intros [?|?%elem_of_nil]].
    - rewrite merge_facts_lookup, or_empty_id, Hcat by done.
      destruct (C !! cat) as [[a|d']|] eqn:HCc; simpl.
      + exists d, l. split_and!; [done..|]. intros x. unfold leaf. rewrite HCc.
        split; [by left | by intros [?|?%elem_of_nil]].
      + eexists _, _. split_and!; [done| by rewrite map_lookup_imap, Hsub |].
        intros x. rewrite extend_unique_elem. unfold leaf. by rewrite HCc.
      + exists d, l. split_and!; [done..|]. intros x. unfold leaf. rewrite HCc.
        split; [by left | by intros [?|?%elem_of_nil]]. }
  split_and!.
  - intros x. rewrite (leaf_merge_facts m A cat sub d l), Hl by done.
    apply extend_unique_elem.
  - intros x.
    destruct (Hstep A) as (dA & lA & HA1 & HA2 & HA3).
    destruct (Hstep B) as (dB & lB & HB1 & HB2 & HB3).
    rewrite (leaf_merge_facts _ B cat sub dA lA), (leaf_merge_facts _ A cat sub dB lB)
      by done.
    rewrite !extend_unique_elem, HA3, HB3. tauto.
  - intros Hnd. rewrite (leaf_merge_facts m A cat sub d l) by done.
    by apply extend_unique_NoDup.
Qed.

Variable other : string → matches.
Variable file_facts : LogEvent → list (gmap string value).

Lemma derive_topics_network facts :
  categories_are_dicts facts → has facts "entities" "ips" →
  ∃ ts, derive_topics facts = Ok ts ∧ "Network" ∈ ts.
Proof.
  intros Hd Hips. unfold derive_topics.
  rewrite !(sub_get_leaf facts) by (done || (unfold categories; repeat constructor)).
  rewrite !or_lazy_Ok.
  rewrite (bool_decide_eq_true_2
             (leaf facts "entities" "ips" ≠ [] ∨ leaf facts "artifacts" "ports" ≠ []))
    by (by left).
  repeat match goal with |- context [bool_decide ?P] => destruct (bool_decide P) end;
    (eexists; split; [vm_compute; reflexivity|]);
    apply (bool_decide_unpack _); by vm_compute.
Qed.

Lemma event_facts_leaf x xs cat sub a :
  a ∈ leaf (merge_facts ∅ x) cat sub → a ∈ leaf (event_facts x xs) cat sub.
Proof.
  unfold event_facts. generalize (merge_facts ∅ x).
  induction xs as [|y xs IH]; intros m Hm; simpl; [done|].
  by apply IH, leaf_merge_facts_elem.
Qed.

(** X2. An address in the command reaches the topics: when [RE_IPV4]
    finds a match in the command of an event, every match is in
    [entities.ips] of the facts of the event, whatever the files add, and
    "Network" is among the topics retrieval may be asked about. *)
Theorem address_in_command_means_network (evt : LogEvent) :
  findall RE_IPV4 (cmd evt) ≠ [] →
  (∀ x, x ∈ findall RE_IPV4 (cmd evt) →
        AStr x ∈ leaf (facts_of other file_facts evt) "entities" "ips")
  ∧ ∃ ts, derive_topics (facts_of other file_facts evt) = Ok ts
          ∧ "Network" ∈ ts.
Proof.
  intros Hfound.
  assert (∀ x, x ∈ findall RE_IPV4 (cmd evt) →
            AStr x ∈ leaf (facts_of other file_facts evt) "entities" "ips") as Hips.
  { intros x Hx. unfold facts_of. apply event_facts_leaf.
    assert (merge_facts ∅ (extract_from_text other (cmd evt))
            = merge_facts _empty (extract_from_text other (cmd evt))) as ->.
    { unfold merge_facts. by rewrite (or_empty_id _empty empty_ne_empty). }
    rewrite (leaf_merge_facts _empty _ "entities" "ips" empty_entities [])
      by done.
    apply extend_unique_elem_r.
    change (leaf (extract_from_text other (cmd evt)) "entities" "ips")
      with (entities_ips other (cmd evt)).
    rewrite entities_ips_eq. apply list_elem_of_fmap_2.
    destruct (sorted_set_spec (findall RE_IPV4 (cmd evt))) as (_ & _ & Hm).
    by apply Hm. }
  split; [done|].
  apply derive_topics_network; [apply event_facts_are_dicts|].
  destruct (findall RE_IPV4 (cmd evt)) as [|x xs] eqn:E; [done|].
  unfold has. intros Hnil. assert (x ∈ x :: xs) as Hx by (by left).
  specialize (Hips x Hx).
  rewrite Hnil in Hips. by apply elem_of_nil in Hips.
Qed.

End UnionProofs.

Lemma merge_facts_is_a_union_witness :
  Facts.AStr "10.0.0.5"
  ∈ Topics.leaf (Facts.merge_facts Facts._empty Facts.sample_incoming)
                "entities" "ips".
Proof.
  destruct (merge_facts_is_a_union Facts._empty Facts.sample_incoming ∅
              "entities" "ips" Facts.empty_entities []) as (H & _ & _).
  - reflexivity.
  - reflexivity.
  - apply H. right. apply (bool_decide_unpack _). vm_compute. reflexivity.
Defined.

Lemma address_in_command_means_network_witness :
  ∃ ts, Topics.derive_topics
          (Agent.facts_of Extract.no_matches Agent.no_files EventSamples.nmap_event)
        = Py.Ok ts
        ∧ "Network" ∈ ts.
Proof.
  apply (address_in_command_means_network Extract.no_matches Agent.no_files
           EventSamples.nmap_event).
  vm_compute. discriminate.
Defined.

(** ** What [RE_IPV4] finds *)

Section RegexProofs.
Import Facts Py Regex Extract RegexSpec.

Lemma rmatch_sound r : ∀ prev s k rest,
  rmatch r prev s k = Some rest →
  ∃ m s' prev', s = m ++ s' ∧ lang r m ∧ k prev' s' = Some rest.
Proof.
  induction r as [|p|r1 IH1 r2 IH2|r1 IH1 r2 IH2|]; intros prev s k rest; simpl.
  - intros H. by exists [], s, prev.
  - destruct s as [|c s']; [done|]. destruct (p c) eqn:Hp; [|done].
    intros H. exists [c], s', (Some c). split_and!; [done| |done]. by exists c.
  - intros H.
    apply IH1 in H as (m1 & s1 & prev1 & -> & Hm1 & H).
    apply IH2 in H as (m2 & s2 & prev2 & -> & Hm2 & H).
    exists (m1 ++ m2), s2, prev2. split_and!; [apply app_assoc| |done].
    by exists m1, m2.
  - destruct (rmatch r1 prev s k) as [rest1|] eqn:H1.
    + intros [= <-]. apply IH1 in H1 as (m & s' & prev' & -> & Hm & H).
      exists m, s', prev'. auto.
    + intros H. apply IH2 in H as (m & s' & prev' & -> & Hm & H).
      exists m, s', prev'. auto.
  - destruct (xorb _ _); [|done]. intros H. by exists [], s, prev.
Qed.

Lemma match_here_sound r prev s m :
  match_here r prev s = Some m → lang r m ∧ ∃ s', s = m ++ s'.
Proof.
  unfold match_here.
  destruct (rmatch r prev s _) as [rest|] eqn:H; [|done].
  apply rmatch_sound in H as (m' & s' & prev' & -> & Hm & [= <-]).
  intros [= <-]. rewrite length_app, Nat.add_sub, take_app_length. eauto.
Qed.

Lemma scan_sound r : ∀ s prev skip x,
  x ∈ scan r prev s skip →
  lang r (list_ascii_of_string x)
  ∧ ∃ pre post, s = pre ++ list_ascii_of_string x ++ post.
Proof.
  induction s as [|c s IH]; intros prev skip x; simpl.
  - destruct skip; [|by intros ?%elem_of_nil].
    destruct (match_here r prev []) as [m|] eqn:Hm; [|by intros ?%elem_of_nil].
    intros ->%list_elem_of_singleton.
    apply match_here_sound in Hm as [Hm [s' Hs]].
    symmetry in Hs. apply app_eq_nil in Hs as [-> ->].
    split; [done|]. by exists [], [].
  - assert (∀ prev' skip', x ∈ scan r prev' s skip' →
              lang r (list_ascii_of_string x)
              ∧ ∃ pre post, c :: s = pre ++ list_ascii_of_string x ++ post)
      as Hrest.
    { intros prev' skip' [Hx (pre & post & ->)]%IH. split; [done|].
      by exists (c :: pre), post. }
    destruct skip as [|n]; [|apply Hrest].
    destruct (match_here r prev (c :: s)) as [m|] eqn:Hm; [|apply Hrest].
    intros [->|Hx]%elem_of_cons; [|by eapply Hrest].
    apply match_here_sound in Hm as [Hm [s' Hs]].
    rewrite list_ascii_of_string_of_list_ascii. split; [done|].
    exists [], s'. by rewrite Hs.
Qed.

Lemma lang_range a b m :
  lang (range a b) m
  ↔ ∃ c, m = [c] ∧ nat_of_ascii a ≤ nat_of_ascii c ≤ nat_of_ascii b.
Proof.
  unfold range. simpl. split; intros (c & -> & H); exists c; (split; [done|]);
    revert H; rewrite andb_true_iff, !Nat.leb_le; tauto.
Qed.

Lemma lang_lit a m : lang (lit a) m ↔ m = [a].
Proof.
  unfold lit. simpl. split.
  - intros (c & -> & H). by destruct (Ascii.eqb_spec a c) as [->|].
  - intros ->. exists a. by rewrite Ascii.eqb_refl.
Qed.

Lemma is_digit_spec c : Decoder.is_digit c = true ↔ 48 ≤ nat_of_ascii c ≤ 57.
Proof.
  unfold Decoder.is_digit. cbv zeta. rewrite andb_true_iff, !Nat.leb_le. tauto.
Qed.

Local Ltac octet_chars :=
  repeat match goal with
  | H : lang (lit _) _ |- _ => apply lang_lit in H
  | H : lang (range _ _) _ |- _ => apply lang_range in H; cbn in H
  | H : lang _ _ |- _ => cbn [lang] in H
  | H : _ ∨ _ |- _ => destruct H as [H|H]
  | H : ∃ _, _ |- _ => destruct H as [? H]
  | H : _ ∧ _ |- _ => destruct H as [? ?]
  end; subst.

Lemma lang_octet o : lang octet o → octet_text o.
Proof.
  unfold octet, Opt, octet_text, digit. intros H. octet_chars;
    change (nat_of_ascii "0") with 48 in *;
    change (nat_of_ascii "1") with 49 in *;
    change (nat_of_ascii "2") with 50 in *;
    change (nat_of_ascii "4") with 52 in *;
    change (nat_of_ascii "5") with 53 in *;
    change (nat_of_ascii "9") with 57 in *;
    cbn [app length];
    (split_and!;
     [ lia | lia
     | repeat constructor; apply is_digit_spec;
       rewrite ?(eq_refl : nat_of_ascii "2" = 50), ?(eq_refl : nat_of_ascii "5" = 53);
       lia
     | unfold Decoder.digits_value; cbn [foldl];
       rewrite ?(eq_refl : nat_of_ascii "2" = 50), ?(eq_refl : nat_of_ascii "5" = 53);
       lia ]).
Qed.

Lemma lang_RE_IPV4 m :
  lang RE_IPV4 m →
  ∃ a b c d, m = a ++ "."%char :: b ++ "."%char :: c ++ "."%char :: d
             ∧ octet_text a ∧ octet_text b ∧ octet_text c ∧ octet_text d.
Proof.
  unfold RE_IPV4. cbn [lang Rep].
  intros (? & ? & -> & -> & ? & ? & -> &
          (? & ? & -> & (a & ? & -> & Ha & ->%lang_lit) &
           (? & ? & -> & (b & ? & -> & Hb & ->%lang_lit) &
            (? & ? & -> & (c & ? & -> & Hc & ->%lang_lit) & ->))) &
          (d & ? & -> & Hd & ->)).
  exists a, b, c, d. split.
  - cbn [app]. rewrite ?app_nil_r, <- ?app_assoc. cbn [app].
    by rewrite <- ?app_assoc.
  - split_and!; by apply lang_octet.
Qed.

(** X3. Whatever the text, every match of [RE_IPV4] is a part of the text
    and is made of four numbers of one to three digits, none above 255,
    with dots between them; so is every entry of [entities.ips]. *)
Theorem ipv4_matches_are_dotted_quads (other : string → matches)
    (text x : string) :
  (x ∈ findall RE_IPV4 text ∨ AStr x ∈ entities_ips other text) →
  dotted_quad x ∧ ∃ pre post, text = pre +:+ x +:+ post.
Proof.
  intros H.
  assert (x ∈ findall RE_IPV4 text) as Hx.
  { destruct H as [H|H]; [done|]. rewrite entities_ips_eq in H.
    apply list_elem_of_fmap in H as (y & [= <-] & Hy).
    destruct (sorted_set_spec (findall RE_IPV4 text)) as (_ & _ & Hm).
    by apply Hm. }
  apply scan_sound in Hx as [Hl (pre & post & Ht)]. split.
  - by apply lang_RE_IPV4.
  - exists (string_of_list_ascii pre), (string_of_list_ascii post).
    rewrite <- (string_of_list_ascii_of_string text), Ht.
    rewrite <- (string_of_list_ascii_of_string x) at 2.
    generalize (list_ascii_of_string x). clear. intros l.
    induction pre as [|c pre IH]; simpl.
    + rewrite sapp_nil_l. induction l as [|c l IH]; simpl; [by rewrite sapp_nil_l|].
      by rewrite sapp_cons, IH.
    + by rewrite sapp_cons, IH.
Qed.

End RegexProofs.

Lemma ipv4_matches_are_dotted_quads_witness :
  RegexSpec.dotted_quad "10.0.0.5".
Proof.
  apply (ipv4_matches_are_dotted_quads Extract.no_matches Extract.sample_scan
           "10.0.0.5").
  left. apply (bool_decide_unpack _). vm_compute. reflexivity.
Defined.

(** ** The shape and the leaves of an extraction *)

Section ExtractionProofs.
Import Facts Py Regex Extract Topics Files.

Variable other : string → matches.
Variable read_text : string → result string.

Lemma sorted_set_Z_NoDup (l : list Z) : NoDup (sorted_set_Z l).
Proof.
  unfold sorted_set_Z. rewrite merge_sort_Permutation. apply NoDup_remove_dups.
Qed.

Lemma NoDup_AStr (l : list string) : NoDup l → NoDup (AStr <$> l).
Proof. apply NoDup_fmap_2. by intros ?? [=]. Qed.

Lemma NoDup_AInt (l : list Z) : NoDup l → NoDup (AInt <$> l).
Proof. apply NoDup_fmap_2. by intros ?? [=]. Qed.

Lemma NoDup_sorted_strings (l : list string) : NoDup (AStr <$> sorted_set l).
Proof. apply NoDup_AStr, sorted_set_spec. Qed.

Local Ltac lookup_cases H :=
  repeat (let E := fresh "E" in
          apply lookup_insert_Some in H as [[<- E]|[? H]];
          [first [discriminate E | injection E as E; subst | subst]|]);
  [..| by rewrite lookup_empty in H].

(** X4. Whatever the text, an extraction has the six top-level keys of
    [_empty()] and, under each category, exactly its sub-keys, so that a
    reader may index them without a check; and no leaf outside [creds]
    holds a value twice. *)
Theorem extract_from_text_shape (text : string) :
  let facts := extract_from_text other text in
  dom facts = dom _empty
  ∧ (∀ cat d0, _empty !! cat = Some (VDict d0) →
       ∃ d, facts !! cat = Some (VDict d) ∧ dom d = dom d0)
  ∧ (∀ k l0, _empty !! k = Some (VList l0) → ∃ l, facts !! k = Some (VList l))
  ∧ (∀ cat d sub l, cat ≠ "creds" → facts !! cat = Some (VDict d) →
       d !! sub = Some l → NoDup l)
  ∧ (∀ l, facts !! "errors" = Some (VList l) → NoDup l).
Proof.
  cbv zeta. unfold extract_from_text. case_bool_decide as Ht.
  { split_and!; [done|by eauto|by eauto| |].
    - intros cat d sub l _ Hcat Hsub. unfold _empty in Hcat.
      lookup_cases Hcat; try done; lookup_cases Hsub; constructor.
    - intros l [= <-]. constructor. }
  split_and!.
  - unfold _empty. by rewrite !dom_insert_L.
  - intros cat d0 Hcat. unfold _empty in Hcat.
    lookup_cases Hcat; try done.
    + rewrite lookup_insert_eq. eexists. split; [done|]. by rewrite !dom_insert_L.
    + rewrite lookup_insert_ne, lookup_insert_eq by done.
      eexists. split; [done|]. by rewrite !dom_insert_L.
    + rewrite !lookup_insert_ne, lookup_insert_eq by done.
      eexists. split; [done|]. by rewrite !dom_insert_L.
    + rewrite !lookup_insert_ne, lookup_insert_eq by done.
      eexists. split; [done|]. by rewrite !dom_insert_L.
  - intros k l0 Hk. unfold _empty in Hk.
    lookup_cases Hk; try done.
    + rewrite !lookup_insert_ne, lookup_insert_eq by done. by eexists.
    + rewrite !lookup_insert_ne, lookup_insert_eq by done. by eexists.
  - intros cat d sub l Hcreds Hcat Hsub.
    lookup_cases Hcat; try done; lookup_cases Hsub;
      try apply NoDup_sorted_strings.
    + apply NoDup_AInt, sorted_set_Z_NoDup.
    + apply extend_unique_NoDup. constructor.
  - rewrite !lookup_insert_ne, lookup_insert_eq by done.
    intros l [= <-]. apply extend_unique_NoDup. constructor.
Qed.

(** X5. A domain is reported only when it is not the host of a URL of
    the same text, compared in lower case; the domains reported are
    sorted and found by the pattern. *)
Theorem domains_exclude_url_hosts (text : string) (a : atom) :
  a ∈ leaf (extract_from_text other text) "entities" "domains" →
  ∃ dom, a = AStr dom
         ∧ dom ∈ m_dom (other text)
         ∧ ∀ u, u ∈ m_url (other text) → url_host u ≠ lower dom.
Proof.
  unfold leaf, extract_from_text. case_bool_decide as Ht.
  { simpl. by intros ?%elem_of_nil. }
  rewrite lookup_insert_eq.
  rewrite !lookup_insert_ne, lookup_insert_eq by done. simpl.
  intros (dom & -> & Hd)%list_elem_of_fmap. exists dom. split; [done|].
  destruct (sorted_set_spec
              (filter (λ d, lower d ∉ (url_host <$> m_url (other text)))
                      (m_dom (other text)))) as (_ & _ & Hm).
  apply Hm, list_elem_of_filter in Hd as [Hnot Hin]. split; [done|].
  intros u Hu Heq. apply Hnot. rewrite <- Heq. by apply list_elem_of_fmap_2.
Qed.

(** The facts of an event keep [indicators] a list. *)
Lemma merge_facts_keeps_list m B k l :
  m !! k = Some (VList l) → ∃ l', merge_facts m B !! k = Some (VList l').
Proof.
  intros Hk.
  assert (m ≠ ∅) as Hm by (intros ->; by rewrite lookup_empty in Hk).
  destruct (decide (B = ∅)) as [->|HB].
  - rewrite merge_facts_empty_r, or_empty_id by done. by exists l.
  - rewrite merge_facts_lookup, or_empty_id, Hk by done. simpl. by eexists.
Qed.

Lemma event_facts_indicators x xs :
  ∃ l, event_facts x xs !! "indicators" = Some (VList l).
Proof.
  unfold event_facts.
  assert (∃ l, merge_facts ∅ x !! "indicators" = Some (VList l)) as Hstart.
  { assert (merge_facts ∅ x = merge_facts _empty x) as ->.
    { unfold merge_facts. by rewrite (or_empty_id _empty empty_ne_empty). }
    by apply merge_facts_keeps_list with []. }
  revert Hstart. generalize (merge_facts ∅ x).
  induction xs as [|y xs IH]; intros m Hm; simpl; [done|].
  apply IH. destruct Hm as [l Hl]. by apply merge_facts_keeps_list with l.
Qed.

(** X6. A file that cannot be read costs the event nothing but an
    indicator: merging what [extract_from_file] returns for it into the
    facts gathered so far appends the error text to [indicators], unless
    it is there already, and leaves every other key as it was. *)
Theorem unreadable_file_adds_an_indicator (x : gmap string value)
    (xs : list (gmap string value)) (path e : string) :
  read_text path = Raise e →
  let facts := event_facts x xs in
  let facts' := merge_facts facts (extract_from_file other read_text path) in
  let msg := AStr ("extract_error:" +:+ path +:+ ":" +:+ e) in
  event_facts x (xs ++ [extract_from_file other read_text path]) = facts'
  ∧ (∀ k, k ≠ "indicators" → facts' !! k = facts !! k)
  ∧ ∃ l, facts !! "indicators" = Some (VList l)
         ∧ facts' !! "indicators"
           = Some (VList (if decide (msg ∈ l) then l else l ++ [msg])).
Proof.
  intros Hread. cbv zeta. unfold extract_from_file. rewrite Hread.
  set (msg := AStr _).
  assert (<["indicators" := VList [msg]]> (∅ : gmap string value) ≠ ∅) as Hne
    by apply insert_non_empty.
  assert (event_facts x xs ≠ ∅) as Hfacts.
  { destruct (event_facts_indicators x xs) as [l Hl].
    intros E. by rewrite E, lookup_empty in Hl. }
  split_and!.
  - unfold event_facts. by rewrite foldl_app.
  - intros k Hk. rewrite merge_facts_lookup, or_empty_id by done.
    rewrite lookup_insert_ne, lookup_empty by done.
    destruct (event_facts x xs !! k) as [v|]; [|done].
    by rewrite merge_value_None.
  - destruct (event_facts_indicators x xs) as [l Hl]. exists l. split; [done|].
    rewrite merge_facts_lookup, or_empty_id, Hl, lookup_insert_eq by done.
    simpl. by destruct (decide (msg ∈ l)).
Qed.

End ExtractionProofs.

Lemma domains_exclude_url_hosts_witness :
  Topics.leaf (Extract.extract_from_text Files.url_matches "see http://Example.com/a")
              "entities" "domains"
  = [Facts.AStr "other.org"]
  ∧ ∃ dom, Facts.AStr "other.org" = Facts.AStr dom
           ∧ dom ∈ ["example.com"; "other.org"]
           ∧ ∀ u, u ∈ ["http://Example.com/a"] → Extract.url_host u ≠ Py.lower dom.
Proof.
  split; [vm_compute; reflexivity|].
  apply (domains_exclude_url_hosts Files.url_matches "see http://Example.com/a"
           (Facts.AStr "other.org")).
  apply (bool_decide_unpack _). vm_compute. reflexivity.
Defined.

Lemma unreadable_file_adds_an_indicator_witness :
  Facts.merge_facts (Topics.event_facts Facts.sample_incoming [])
    (Files.extract_from_file Extract.no_matches Files.one_file "/tmp/gone.txt")
  !! "indicators"
  = Some (Facts.VList
            [Facts.AStr "extract_error:/tmp/gone.txt:[Errno 2] No such file or directory"]).
Proof.
  destruct (unreadable_file_adds_an_indicator Extract.no_matches Files.one_file
              Facts.sample_incoming [] "/tmp/gone.txt"
              "[Errno 2] No such file or directory" eq_refl)
    as (_ & _ & l & Hl & ->).
  assert (l = []) as -> by (vm_compute in Hl; congruence).
  reflexivity.
Defined.

(** ** Markup-free text *)

Section MarkupProofs.
Import Py Plan Markup.

Lemma find_char_map_chars_None c f s :
  (∀ d, f d ≠ c) → find_char c (map_chars f s) = None.
Proof.
  intros Hf. induction s as [|d s IH]; [done|]. simpl.
  destruct (Ascii.eqb_spec (f d) c) as [E|_]; [by destruct (Hf d)|].
  by rewrite IH.
Qed.

Lemma find_char_map_chars_keep c f s :
  (∀ d, f d = c → d = c) → find_char c s = None →
  find_char c (map_chars f s) = None.
Proof.
  intros Hf. induction s as [|d s IH]; [done|]. simpl.
  destruct (Ascii.eqb_spec d c) as [->|Hd]; [done|].
  destruct (find_char c s); [done|]. intros _.
  destruct (Ascii.eqb_spec (f d) c) as [E|_]; [by destruct (Hd (Hf d E))|].
  by rewrite IH.
Qed.

Lemma find_char_cons_None c d s :
  find_char c (String d s) = None ↔ d ≠ c ∧ find_char c s = None.
Proof.
  simpl. destruct (Ascii.eqb_spec d c) as [->|Hd].
  - split; [done | by intros [? _]].
  - destruct (find_char c s); simpl; split; (done || by intros [_ ?]).
Qed.

Lemma find_char_lstrip_None c p s :
  find_char c s = None → find_char c (lstrip_by p s) = None.
Proof.
  induction s as [|d s IH]; [done|]. intros H. simpl.
  destruct (p d); [|done]. apply IH. by apply find_char_cons_None in H as [_ ?].
Qed.

Lemma find_char_rstrip_None c p s :
  find_char c s = None → find_char c (rstrip_by p s) = None.
Proof.
  induction s as [|d s IH]; [done|]. intros H.
  apply find_char_cons_None in H as [Hd Hs]. specialize (IH Hs). simpl.
  destruct (rstrip_by p s) as [|e r].
  - destruct (p d); [done|]. by apply find_char_cons_None.
  - by apply find_char_cons_None.
Qed.

Lemma find_char_strip_None c s : find_char c s = None → find_char c (strip s) = None.
Proof. intros H. by apply find_char_lstrip_None, find_char_rstrip_None. Qed.

Lemma replace_char_no_brackets s :
  no_brackets (replace_char "]" ")" (replace_char "[" "(" s)).
Proof.
  split.
  - apply find_char_map_chars_keep.
    + intros d. by destruct (Ascii.eqb_spec d "]").
    + apply find_char_map_chars_None. intros d.
      by destruct (Ascii.eqb_spec d "[") as [->|?].
  - apply find_char_map_chars_None. intros d.
    by destruct (Ascii.eqb_spec d "]") as [->|?].
Qed.

Lemma strip_no_brackets s : no_brackets s → no_brackets (strip s).
Proof. intros [? ?]. split; by apply find_char_strip_None. Qed.

Lemma lower_char_bracket d c : c = "["%char ∨ c = "]"%char → lower_char d = c → d = c.
Proof.
  intros Hc. destruct d as [[] [] [] [] [] [] [] []];
    destruct Hc as [-> | ->]; vm_compute; congruence.
Qed.

Lemma lower_no_brackets s : no_brackets s → no_brackets (lower s).
Proof.
  intros [? ?]. split; (apply find_char_map_chars_keep; [|done]); intros d;
    apply lower_char_bracket; auto.
Qed.

Lemma sanitize_no_brackets py_repr x : no_brackets (_sanitize py_repr x).
Proof. apply strip_no_brackets, replace_char_no_brackets. Qed.

Lemma lstrip_by_head p s c r : lstrip_by p s = String c r → p c = false.
Proof.
  induction s as [|d s IH]; [done|]. simpl. destruct (p d) eqn:E; [done|].
  by intros [= <- <-].
Qed.

Lemma lstrip_by_id p s : (∀ c r, s = String c r → p c = false) → lstrip_by p s = s.
Proof. destruct s as [|c r]; [done|]. intros H. simpl. by rewrite (H c r). Qed.

(** [rstrip_by] leaves a text that does not end in a stripped character:
    stripping it again changes nothing. *)
Lemma rstrip_by_idemp p s : rstrip_by p (rstrip_by p s) = rstrip_by p s.
Proof.
  induction s as [|d s IH]; [done|]. simpl.
  destruct (rstrip_by p s) as [|e r] eqn:E.
  - destruct (p d) eqn:Hd; [done|]. simpl. by rewrite Hd.
  - simpl in *. rewrite IH. done.
Qed.

Lemma rstrip_lstrip p s :
  rstrip_by p (lstrip_by p s) = lstrip_by p (rstrip_by p s).
Proof.
  induction s as [|d s IH]; [done|]. simpl.
  destruct (p d) eqn:Hd.
  - rewrite IH. destruct (rstrip_by p s) as [|e r] eqn:E; [done|].
    simpl. by rewrite Hd.
  - simpl. destruct (rstrip_by p s) as [|e r] eqn:E; simpl; by rewrite ?Hd.
Qed.

Lemma strip_by_idemp p s :
  lstrip_by p (rstrip_by p (lstrip_by p (rstrip_by p s)))
  = lstrip_by p (rstrip_by p s).
Proof.
  rewrite (rstrip_lstrip p (rstrip_by p s)), rstrip_by_idemp.
  apply lstrip_by_id. intros c r. apply lstrip_by_head.
Qed.

Lemma strip_idemp s : strip (strip s) = strip s.
Proof. apply strip_by_idemp. Qed.

(** X7. No text of a plan shaped by the local backend holds a bracket of
    Rich markup, and its commands carry no white space around them. *)
Theorem shape_plan_no_markup (py_repr : json → string) (obj : json) :
  let p := _shape_plan py_repr obj in
  (∀ a, a ∈ next_actions p →
        no_brackets (cmd a) ∧ no_brackets (reason a)
        ∧ no_brackets (noise a) ∧ no_brackets (safety a)
        ∧ strip (cmd a) = cmd a ∧ strip (reason a) = reason a)
  ∧ (∀ n, n ∈ notes p → no_brackets n ∧ strip n = n)
  ∧ (∀ n, n ∈ escalation_paths p → no_brackets n ∧ strip n = n).
Proof.
  assert (∀ x n, n ∈ shape_texts py_repr x → no_brackets n ∧ strip n = n) as Htexts.
  { intros x n. destruct x as [| | |s|l|d]; simpl; try (by intros ?%elem_of_nil).
    - intros ->%list_elem_of_singleton.
      split; [apply sanitize_no_brackets | apply strip_idemp].
    - intros (y & -> & _)%list_elem_of_fmap.
      split; [apply sanitize_no_brackets | apply strip_idemp]. }
  destruct obj as [| | | | |d]; cbv zeta; simpl;
    try (split_and!; by intros ? ?%elem_of_nil).
  split_and!; [|apply Htexts..].
  intros a. destruct (or_else _ _) as [| | | |l|]; try (by intros ?%elem_of_nil).
  intros [_ (x & _ & Hx)%list_elem_of_omap]%list_elem_of_filter.
  destruct x as [| | | | |e]; try done. injection Hx as <-. simpl.
  split_and!; try apply lower_no_brackets; try apply sanitize_no_brackets;
    apply strip_idemp.
Qed.

End MarkupProofs.

(** ** What redaction leaves alone *)

Section RedactionProofs.
Import Py Providers Redaction.

Variable _redact_text : string → string.

Lemma json_nested_ind (P : json → Prop) :
  P JNull → (∀ b, P (JBool b)) → (∀ n, P (JInt n)) → (∀ s, P (JStr s)) →
  (∀ l, Forall P l → P (JList l)) →
  (∀ d, Forall (λ kv, P kv.2) d → P (JDict d)) →
  ∀ x, P x.
Proof.
  intros Hnull Hbool Hint Hstr Hlist Hdict.
  fix IH 1. intros [| b | n | s | l | d].
  - exact Hnull.
  - apply Hbool.
  - apply Hint.
  - apply Hstr.
  - apply Hlist. induction l as [|y l IHl]; constructor; [apply IH | exact IHl].
  - apply Hdict. induction d as [|[k v] d IHd]; constructor; [apply IH | exact IHd].
Qed.

Lemma walk_skeleton x : skeleton (walk _redact_text x) = skeleton x.
Proof.
  induction x as [| | | |l IH|d IH] using json_nested_ind; try done.
  - simpl. f_equal. induction IH as [|y l Hy _ IHl]; [done|].
    simpl. by rewrite Hy, IHl.
  - simpl. f_equal. induction IH as [|[k v] d Hv _ IHd]; [done|].
    simpl in *. by rewrite Hv, IHd.
Qed.

Lemma walk_strings x : strings (walk _redact_text x) = _redact_text <$> strings x.
Proof.
  induction x as [| | | |l IH|d IH] using json_nested_ind; try done.
  - simpl. induction IH as [|y l Hy _ IHl]; [done|].
    simpl. by rewrite fmap_app, Hy, IHl.
  - simpl. induction IH as [|[k v] d Hv _ IHd]; [done|].
    simpl in *. by rewrite fmap_app, Hv, IHd.
Qed.

Lemma skeleton_strings_length x y :
  skeleton x = skeleton y → length (strings x) = length (strings y).
Proof.
  revert y. induction x as [| | | |l IH|d IH] using json_nested_ind;
    intros [| | | |l'|d']; try done.
  - simpl. intros [= H]. revert l' H.
    induction IH as [|z l Hz _ IHl]; intros [|z' l']; try done.
    simpl. intros [= Hz' Hl']. rewrite !length_app.
    by rewrite (Hz _ Hz'), (IHl _ Hl').
  - simpl. intros [= H]. revert d' H.
    induction IH as [|[k z] d Hz _ IHd]; intros [|[k' z'] d']; try done.
    simpl in *. intros [= _ Hz' Hd']. rewrite !length_app.
    by rewrite (Hz _ Hz'), (IHd _ Hd').
Qed.

(** A value is its skeleton and its strings. *)
Lemma skeleton_strings_eq x y :
  skeleton x = skeleton y → strings x = strings y → x = y.
Proof.
  revert y. induction x as [| | | |l IH|d IH] using json_nested_ind;
    intros [| | | |l'|d']; try done.
  - simpl. by intros _ [= ->].
  - simpl. intros [= Hsk] Hst. f_equal.
    revert l' Hsk Hst. induction IH as [|y l Hy _ IHl]; intros [|y' l']; try done.
    simpl. intros [= Hy' Hl'] Hst.
    apply app_inj_1 in Hst as [Hst1 Hst2]; [|by apply skeleton_strings_length].
    f_equal; [by apply Hy | by apply IHl].
  - simpl. intros [= Hsk] Hst. f_equal.
    revert d' Hsk Hst.
    induction IH as [|[k v] d Hv _ IHd]; intros [|[k' v'] d']; try done.
    simpl in *. intros [= -> Hv' Hd'] Hst.
    apply app_inj_1 in Hst as [Hst1 Hst2]; [|by apply skeleton_strings_length].
    f_equal; [f_equal; by apply Hv | by apply IHd].
Qed.

(** X8. Redaction touches string values and nothing else: keys, numbers,
    booleans, nulls and the shape of lists and dicts stay as they are, the
    string values are those of the payload passed through [_redact_text]
    one by one, and a payload whose strings [_redact_text] leaves alone is
    returned unchanged. *)
Theorem redact_touches_strings_only (payload : json) (allow_cloud : bool) :
  skeleton (redact _redact_text payload allow_cloud) = skeleton payload
  ∧ strings (redact _redact_text payload allow_cloud)
    = (if allow_cloud then id else _redact_text) <$> strings payload
  ∧ ((∀ s, s ∈ strings payload → _redact_text s = s) →
     redact _redact_text payload allow_cloud = payload)
  ∧ ((∀ s, _redact_text (_redact_text s) = _redact_text s) →
     redact _redact_text (redact _redact_text payload allow_cloud) allow_cloud
     = redact _redact_text payload allow_cloud).
Proof.
  unfold redact. destruct allow_cloud.
  { split_and!; try done. by rewrite list_fmap_id. }
  split_and!.
  - apply walk_skeleton.
  - apply walk_strings.
  - intros Hfix. apply skeleton_strings_eq; [apply walk_skeleton|].
    rewrite walk_strings. rewrite <- (list_fmap_id (strings payload)) at 2.
    apply list_fmap_ext. intros i s Hs. apply Hfix. by eapply list_elem_of_lookup_2.
  - intros Hid. apply skeleton_strings_eq; [apply walk_skeleton|].
    rewrite !walk_strings, <- list_fmap_compose.
    apply list_fmap_ext. intros i s _. apply Hid.
Qed.

End RedactionProofs.

Lemma redact_touches_strings_only_witness :
  Providers.redact Providers.sample_redact_text Redaction.sample_secret false
  = Py.JDict [("password=hunter2", Py.JList [Py.JStr "<redacted>"; Py.JInt 7; Py.JNull])].
Proof.
  pose proof (redact_touches_strings_only Providers.sample_redact_text
                Redaction.sample_secret false) as (Hsk & Hst & _ & _).
  apply skeleton_strings_eq; [exact Hsk | exact Hst].
Defined.

(** ** The notes of the Anthropic backend *)

Section AnthropicNotes.
Import Py Plan Providers Markup.

Variable json_loads : string → option json.
Variable json_dumps : json → string.
Variable py_repr : json → string.
Variable _redact_text : string → string.
Variable env : gmap string string.
Variable TEMPLATE_format : string → string.
Variable anthropic_post : string → string → result response.

Lemma find_char_substring_None c n m s :
  find_char c s = None → find_char c (String.substring n m s) = None.
Proof.
  revert n m. induction s as [|d s IH]; intros n m H.
  { by destruct n, m. }
  apply find_char_cons_None in H as [Hd Hs].
  destruct n as [|n]; simpl.
  - destruct m as [|m]; [done|]. apply find_char_cons_None. split; [done|].
    by apply IH.
  - by apply IH.
Qed.

Lemma prefix_no_brackets n s : no_brackets s → no_brackets (prefix n s).
Proof. intros [? ?]. split; by apply find_char_substring_None. Qed.

Lemma find_char_app_None c s t :
  find_char c s = None → find_char c t = None → find_char c (s +:+ t) = None.
Proof.
  intros Hs Ht. induction s as [|d s IH]; [by rewrite sapp_nil_l|].
  apply find_char_cons_None in Hs as [Hd Hs]. rewrite sapp_cons.
  apply find_char_cons_None. auto.
Qed.

Lemma pretty_N_char_not c x :
  c = "["%char ∨ c = "]"%char → pretty_N_char x ≠ c.
Proof.
  intros Hc. unfold pretty_N_char.
  destruct Hc as [-> | ->]; by repeat case_match.
Qed.

Lemma find_char_pretty_N_go c (x : N) s :
  c = "["%char ∨ c = "]"%char →
  find_char c s = None → find_char c (pretty_N_go x s) = None.
Proof.
  intros Hc. revert s.
  induction (N.lt_wf_0 x) as [x _ IH]. intros s Hs.
  destruct (decide (x = 0)%N) as [->|Hx]; [by rewrite pretty_N_go_0|].
  rewrite pretty_N_go_step by lia. apply IH.
  - apply N.div_lt; lia.
  - apply find_char_cons_None. split; [by apply pretty_N_char_not | done].
Qed.

Lemma pretty_nat_no_brackets (n : nat) : no_brackets (pretty n).
Proof.
  unfold pretty, pretty_nat, pretty, pretty_N.
  split; (case_decide; [done | by apply find_char_pretty_N_go; auto]).
Qed.

Lemma sanitize_for_markup_no_brackets s : no_brackets (_sanitize_for_markup s).
Proof. apply replace_char_no_brackets. Qed.

(** X9. The notes of a plan of the Anthropic backend hold no bracket of
    Rich markup, whatever the model or the server wrote, except for the
    two notes that carry the text of an exception as it is. *)
Theorem anthropic_notes_no_markup (model : string) (payload : json)
    (allow_cloud : bool) (sent : list (string * string)) (p : plan) (n : string) :
  plan_with_anthropic json_loads json_dumps py_repr _redact_text env
    TEMPLATE_format anthropic_post model payload allow_cloud = Ok (sent, p) →
  n ∈ notes p →
  no_brackets n
  ∨ ∃ e, n = "anthropic_request_error:" +:+ e ∨ n = "anthropic_bad_json:" +:+ e.
Proof.
  unfold plan_with_anthropic. cbv zeta.
  set (model' := strip_char dquote _). clearbody model'.
  assert (∀ a, n ∈ [a] → n = a) as Hone.
  { intros a Hn. by apply list_elem_of_singleton in Hn. }
  assert (∀ a b, n ∈ [a; b] → n = a ∨ n = b) as Htwo.
  { intros a b Hn. apply elem_of_cons in Hn as [?|Hn]; auto. }
  destruct (negb (truthy (JStr (getenv env "ANTHROPIC_API_KEY")))).
  { intros [= <- <-] ->%Hone. by left. }
  destruct (negb (truthy (JStr model'))).
  { intros [= <- <-] ->%Hone. by left. }
  destruct (build_prompt _ _ _) as [prompt|e];
    [rewrite bind_Ok | by rewrite bind_Raise].
  assert (∀ text, n ∈ ["unparsable_llm_output";
                       prefix 300 (_sanitize_for_markup text)] →
                  no_brackets n) as Hunparsable.
  { intros text [-> | ->]%Htwo; [done|].
    apply prefix_no_brackets, sanitize_for_markup_no_brackets. }
  destruct (anthropic_post model' prompt) as [r|e].
  2:{ intros [= <- <-] ->%Hone. right. exists e. by left. }
  destruct (400 <=? status_code r).
  { intros [= <- <-] [-> | ->]%Htwo; left.
    - split; (apply find_char_app_None; [done | apply pretty_nat_no_brackets]).
    - apply sanitize_for_markup_no_brackets. }
  destruct (response_text r) as [text|e].
  2:{ intros [= <- <-] ->%Hone. right. exists e. by right. }
  destruct (_extract_json _ _) as [obj|].
  2:{ intros [= <- <-] Hn. left. by apply (Hunparsable text). }
  destruct (truthy obj).
  2:{ intros [= <- <-] Hn. left. by apply (Hunparsable text). }
  intros [= <- <-]. simpl. intros (m & -> & _)%list_elem_of_fmap. left.
  apply sanitize_for_markup_no_brackets.
Qed.

End AnthropicNotes.

Lemma anthropic_notes_no_markup_witness :
  Providers.plan_with_anthropic Py.Decoder.loads Providers.sample_dumps
    Plan.no_repr Providers.sample_redact_text Providers.sample_env id
    MarkupSamples.markup_post "m2" Providers.sample_payload false
  = Py.Ok ([("m2", "<redacted>")], Plan.MkPlan [] ["(red)alert(/red)"] [])
  ∧ Markup.no_brackets "(red)alert(/red)".
Proof.
  split; [vm_compute; reflexivity|].
  destruct (anthropic_notes_no_markup Py.Decoder.loads Providers.sample_dumps
              Plan.no_repr Providers.sample_redact_text Providers.sample_env id
              MarkupSamples.markup_post "m2" Providers.sample_payload false
              [("m2", "<redacted>")]
              (Plan.MkPlan [] ["(red)alert(/red)"] []) "(red)alert(/red)")
    as [H | (e & [H | H])].
  - vm_compute. reflexivity.
  - constructor.
  - exact H.
  - discriminate H.
  - discriminate H.
Defined.

(** ** The chunker *)

Section ChunkProofs.
Import Py Retriever Chunks.

Lemma sapp_nil_r s : s +:+ "" = s.
Proof. induction s as [|c s IH]; [done|]. by rewrite sapp_cons, IH. Qed.

Lemma rev_app_rev_app s t u :
  String.rev_app (String.rev_app s t) u = String.rev_app t (s +:+ u).
Proof.
  revert t. induction s as [|a s IH]; intros t; simpl.
  - by rewrite sapp_nil_l.
  - by rewrite IH, sapp_cons.
Qed.

Lemma rev_rev s : String.rev (String.rev s) = s.
Proof. unfold String.rev. by rewrite rev_app_rev_app, sapp_nil_r. Qed.

Lemma string_forall_rev_app p s t :
  string_forall p (String.rev_app s t) = string_forall p s && string_forall p t.
Proof.
  revert t. induction s as [|a s IH]; intros t; simpl; [done|].
  rewrite IH. simpl. by destruct (p a), (string_forall p s).
Qed.

Lemma rev_app_ne s t : s ≠ "" ∨ t ≠ "" → String.rev_app s t ≠ "".
Proof.
  revert t. induction s as [|a s IH]; intros t; simpl.
  - by intros [?|?].
  - intros _. apply IH. by right.
Qed.

Lemma is_word_rev u : is_word u → is_word (String.rev u).
Proof.
  intros [Hne Hall]. split.
  - apply rev_app_ne. by left.
  - unfold String.rev. by rewrite string_forall_rev_app, Hall.
Qed.

(** The words of a text, whatever was begun before it. *)
Lemma split_ws_go_words s : ∀ cur,
  (∀ u, cur = Some u → is_word u) → Forall is_word (split_ws_go cur s).
Proof.
  induction s as [|c s IH]; intros cur Hcur; simpl.
  - destruct cur as [u|]; simpl; [|constructor].
    constructor; [|constructor]. by apply is_word_rev, Hcur.
  - destruct (is_space c) eqn:Hc.
    + apply Forall_app. split; [|by apply IH].
      destruct cur as [u|]; simpl; [|constructor].
      constructor; [|constructor]. by apply is_word_rev, Hcur.
    + apply IH. intros u [= <-]. split; [done|]. simpl. rewrite Hc. simpl.
      destruct cur as [u|]; simpl; [|done]. by apply Hcur.
Qed.

Lemma split_ws_words s : Forall is_word (split_ws s).
Proof. by apply split_ws_go_words. Qed.

(** Reading a word. *)
Lemma split_ws_go_word w : ∀ cur rest,
  string_forall (λ c, negb (is_space c)) w = true → w ≠ "" →
  split_ws_go cur (w +:+ rest)
  = split_ws_go (Some (String.rev_app w (default "" cur))) rest.
Proof.
  induction w as [|c w IH]; intros cur rest Hall Hne; [done|].
  simpl in Hall. apply andb_true_iff in Hall as [Hc Hw].
  rewrite sapp_cons. simpl. rewrite (negb_true_iff _) in Hc. rewrite Hc.
  destruct w as [|c' w']; [by rewrite sapp_nil_l|].
  by rewrite IH.
Qed.

Lemma split_ws_go_end u : split_ws_go (Some u) "" = [String.rev u].
Proof. reflexivity. Qed.

Lemma split_ws_go_space u rest :
  split_ws_go (Some u) (String " " rest) = String.rev u :: split_ws_go None rest.
Proof. reflexivity. Qed.

Lemma split_ws_join ws : Forall is_word ws → split_ws (join " " ws) = ws.
Proof.
  unfold split_ws. induction 1 as [|w ws [Hne Hall] Hws IH]; [done|].
  destruct ws as [|w' ws'].
  - change (join " " [w]) with w.
    rewrite <- (sapp_nil_r w) at 1. rewrite split_ws_go_word by done.
    change (String.rev_app w (default "" None)) with (String.rev w).
    by rewrite split_ws_go_end, rev_rev.
  - change (join " " (w :: w' :: ws')) with (w +:+ " " +:+ join " " (w' :: ws')).
    rewrite split_ws_go_word by done.
    change (String.rev_app w (default "" None)) with (String.rev w).
    change (" " +:+ join " " (w' :: ws')) with (String " " (join " " (w' :: ws'))).
    by rewrite split_ws_go_space, rev_rev, IH.
Qed.

Lemma rstrip_by_app p s t :
  rstrip_by p t = t → t ≠ "" → rstrip_by p (s +:+ t) = s +:+ t.
Proof.
  intros Ht Hne. induction s as [|c s IH]; [by rewrite sapp_nil_l|].
  rewrite sapp_cons. simpl. rewrite IH.
  destruct (s +:+ t) eqn:E; [|done].
  destruct s; [by rewrite sapp_nil_l in E | by rewrite sapp_cons in E].
Qed.

Lemma rstrip_by_word w : is_word w → rstrip_by is_space w = w.
Proof.
  intros [Hne Hall]. induction w as [|c w IH]; [done|].
  simpl in Hall. apply andb_true_iff in Hall as [Hc Hw].
  rewrite (negb_true_iff _) in Hc. simpl.
  destruct w as [|c' w']; [by rewrite Hc|].
  by rewrite IH.
Qed.

Lemma join_words_ne ws : Forall is_word ws → ws ≠ [] → join " " ws ≠ "".
Proof.
  intros Hws Hne. destruct Hws as [|w ws [Hw _] _]; [done|].
  destruct w as [|c w]; [done|]. by destruct ws.
Qed.

Lemma rstrip_join ws :
  Forall is_word ws → rstrip_by is_space (join " " ws) = join " " ws.
Proof.
  induction 1 as [|w ws Hw Hws IH]; [done|].
  destruct ws as [|w' ws']; [by apply rstrip_by_word|].
  change (join " " (w :: w' :: ws')) with (w +:+ " " +:+ join " " (w' :: ws')).
  apply rstrip_by_app.
  - change (" " +:+ join " " (w' :: ws')) with ("" +:+ " " +:+ join " " (w' :: ws')).
    rewrite sapp_nil_l. apply (rstrip_by_app is_space " "); [done|].
    by apply join_words_ne.
  - done.
Qed.

Lemma lstrip_join ws :
  Forall is_word ws → lstrip_by is_space (join " " ws) = join " " ws.
Proof.
  intros Hws. apply lstrip_by_id. intros c r Hj.
  destruct Hws as [|w ws [Hne Hall] _]; [done|].
  destruct w as [|c' w]; [done|]. simpl in Hall.
  apply andb_true_iff in Hall as [Hc _]. rewrite (negb_true_iff _) in Hc.
  destruct ws; simpl in Hj; injection Hj as <- _; done.
Qed.

(** X10. [_norm] is a normal form: the text it returns has the words of
    the text it was given, with one space between them and none around
    them, and normalizing it again changes nothing. *)
Theorem norm_is_a_normal_form (s : string) :
  Forall is_word (split_ws s)
  ∧ split_ws (_norm s) = split_ws s
  ∧ _norm (_norm s) = _norm s
  ∧ strip (_norm s) = _norm s.
Proof.
  pose proof (split_ws_words s) as Hw.
  split_and!; [done|by apply split_ws_join| |].
  - unfold _norm. by rewrite split_ws_join.
  - unfold _norm, strip. by rewrite rstrip_join, lstrip_join.
Qed.








(** ** The store *)

Lemma fresh_rowid_above (t : gmap string (nat * row)) cid r rw :
  t !! cid = Some (r, rw) → r < fresh_rowid t.
Proof.
  unfold fresh_rowid. revert cid r rw.
  apply (map_fold_weak_ind
           (λ m t, ∀ cid r rw, t !! cid = Some (r, rw) → r < S m)).
  - intros cid r rw H. by rewrite lookup_empty in H.
  - intros i [r0 rw0] m acc Hi IH cid r rw Hl.
    apply lookup_insert_Some in Hl as [[<- [= <- <-]]|[_ Hl]]; [lia|].
    specialize (IH _ _ _ Hl). lia.
Qed.

Lemma rowid_for_other (t : gmap string (nat * row)) cid cid' r rw :
  (∀ c1 c2 r0 rw1 rw2, t !! c1 = Some (r0, rw1) → t !! c2 = Some (r0, rw2) → c1 = c2) →
  t !! cid' = Some (r, rw) → cid' ≠ cid → r ≠ rowid_for t cid.
Proof.
  intros Hinj Hl Hne. unfold rowid_for.
  destruct (t !! cid) as [[r0 rw0]|] eqn:E.
  - intros ->. by destruct Hne; eapply Hinj.
  - pose proof (fresh_rowid_above t cid' r rw Hl). lia.
Qed.

Lemma upsert_in_sync d e : in_sync d → in_sync (_upsert_chunk d e).
Proof.
  destruct e as [cid rw]. intros (Hmirror & Hinj & Honly). unfold _upsert_chunk.
  split_and!; simpl.
  - intros cid' r rw' Hl.
    apply lookup_insert_Some in Hl as [[<- [= <- <-]]|[Hne Hl]].
    + by rewrite lookup_insert_eq.
    + rewrite lookup_insert_ne; [by eapply Hmirror|].
      intros E. by apply (rowid_for_other _ cid cid' r rw' Hinj Hl).
  - intros c1 c2 r rw1 rw2 H1 H2.
    destruct (decide (c1 = cid)) as [->|N1], (decide (c2 = cid)) as [->|N2];
      [done|..].
    + rewrite lookup_insert_eq in H1. rewrite lookup_insert_ne in H2 by done.
      injection H1 as <- <-.
      by destruct (rowid_for_other _ cid c2 _ _ Hinj H2).
    + rewrite lookup_insert_eq in H2. rewrite lookup_insert_ne in H1 by done.
      injection H2 as <- <-.
      by destruct (rowid_for_other _ cid c1 _ _ Hinj H1).
    + rewrite lookup_insert_ne in H1, H2 by done. by eapply Hinj.
  - intros r rw' Hl.
    apply lookup_insert_Some in Hl as [[<- <-]|[Hne Hl]].
    + exists cid. by rewrite lookup_insert_eq.
    + destruct (Honly r rw' Hl) as [cid' Hc]. exists cid'.
      rewrite lookup_insert_ne; [done|]. intros <-.
      apply Hne. unfold rowid_for. by rewrite Hc.
Qed.

(** X12. Ingestion keeps the two tables of the store in step. From a
    store in which the full-text row of every chunk is its own row, under
    a rowid no other chunk has, and the full-text table holds nothing
    else (an empty store is one), every upsert and so every ingestion
    leads to such a store again; and after an upsert the chunk is there,
    under the rowid it had before if it had one, every other chunk being
    as it was. *)
Theorem ingest_keeps_tables_in_sync (sha1_hex : string → string)
    (path : string) (doc : soup) (d : db) :
  in_sync (Db ∅ ∅)
  ∧ (in_sync d → in_sync (ingest_html sha1_hex path doc d).1)
  ∧ (∀ cid rw,
       chunks (_upsert_chunk d (cid, rw)) !! cid
       = Some (rowid_for (chunks d) cid, rw)
       ∧ (∀ r rw0, chunks d !! cid = Some (r, rw0) → rowid_for (chunks d) cid = r)
       ∧ (∀ cid', cid' ≠ cid →
            chunks (_upsert_chunk d (cid, rw)) !! cid' = chunks d !! cid')
       ∧ (in_sync d →
          chunks_fts (_upsert_chunk d (cid, rw)) !! rowid_for (chunks d) cid
          = Some rw)).
Proof.
  split_and!.
  - split_and!; simpl; intros *; by rewrite lookup_empty.
  - unfold ingest_html. simpl. generalize (entries sha1_hex path (_chunk_html doc)).
    intros es. revert d. induction es as [|e es IH]; intros d Hd; [done|].
    simpl. by apply IH, upsert_in_sync.
  - intros cid rw. unfold _upsert_chunk. simpl. split_and!.
    + by rewrite lookup_insert_eq.
    + intros r rw0 Hl. unfold rowid_for. by rewrite Hl.
    + intros cid' Hne. by rewrite lookup_insert_ne.
    + intros _. by rewrite lookup_insert_eq.
Qed.

End ChunkProofs.


Lemma ingest_keeps_tables_in_sync_witness :
  Chunks.in_sync
    (Retriever.ingest_html Retriever.sample_hash "notes.html" Retriever.sample_doc
       (Retriever.Db ∅ ∅)).1.
Proof.
  destruct (ingest_keeps_tables_in_sync Retriever.sample_hash "notes.html"
              Retriever.sample_doc (Retriever.Db ∅ ∅)) as (Hempty & Hingest & _).
  exact (Hingest Hempty).
Defined.

(** ** The local backend *)

Section OllamaProofs.
Import Py Plan Providers Ollama Endpoint.

Variable json_loads : string → option json.
Variable json_dumps : json → string.
Variable py_repr : json → string.
Variable env : gmap string string.
Variable instruction : string → string → string → string → string → string → string.
Variable get_version : nat → result response.
Variable popen_serve : bool.
Variable get_tags : result response.
Variable run_pull : nat → string → pull_outcome.
Variable post_generate : nat → string → string → result response.

(** X13. The base URL of the local backend never ends in a slash. An
    unset or blank setting gives the default; a host without scheme gets
    [http://] in front; a setting with a scheme and without a slash at
    its end is taken as it is, white space around it apart. *)
Theorem normalize_base_spec (u : option string) :
  no_trailing_slash (_normalize_base u)
  ∧ (strip (default "" u) = "" → _normalize_base u = "http://127.0.0.1:11434")
  ∧ (∀ host, strip (default "" u) = host → host ≠ "" →
       startswith "http://" host = false → startswith "https://" host = false →
       no_trailing_slash host → _normalize_base u = "http://" +:+ host)
  ∧ (∀ url, strip (default "" u) = url → url ≠ "" →
       startswith "http://" url || startswith "https://" url = true →
       no_trailing_slash url → _normalize_base u = url).
Proof.
  unfold _normalize_base, no_trailing_slash. cbv zeta. split_and!.
  - destruct (negb _); [done | apply rstrip_by_idemp].
  - intros ->. done.
  - intros host -> Hne H1 H2 Hslash.
    rewrite (proj2 (truthy_str_ne _) Hne), H1, H2. cbn [negb orb].
    by apply rstrip_by_app.
  - intros url -> Hne Hs Hslash.
    by rewrite (proj2 (truthy_str_ne _) Hne), Hs.
Qed.

(** X14. The local backend posts at most two requests for a plan, the
    second being the first once more, and only after the server answered
    the first with status 400; it posts none when the server cannot be
    reached, the note then being the error of the check. *)
Theorem ollama_requests_are_bounded (model : string) (payload : json)
    (allow_cloud : bool) (sent : list (string * string)) (p : plan) :
  plan_with_ollama json_loads json_dumps py_repr env instruction get_version
    popen_serve get_tags run_pull post_generate model payload allow_cloud
  = Ok (sent, p) →
  length sent ≤ 2
  ∧ (∀ a b, a ∈ sent → b ∈ sent → a = b)
  ∧ (∀ err, _ensure_server get_version popen_serve = Some err →
            sent = [] ∧ p = note_plan [_sanitize py_repr (JStr err)])
  ∧ (length sent = 2 →
     ∃ a r, a ∈ sent ∧ post_generate 0 a.1 a.2 = Ok r ∧ status_code r = 400).
Proof.
  unfold plan_with_ollama. cbv zeta.
  set (model' := _clean_tag _). clearbody model'.
  unfold mbind, Py.result_bind.
  assert (∀ (x : string * string) a b, a ∈ [x] → b ∈ [x] → a = b) as Hone.
  { intros x a b Ha Hb. apply list_elem_of_singleton in Ha, Hb. congruence. }
  assert (∀ (x : string * string) a b, a ∈ [x; x] → b ∈ [x; x] → a = b) as Htwo.
  { intros x a b Ha Hb.
    assert (∀ c, c ∈ [x; x] → c = x) as Hc.
    { intros c [->|Hc]%elem_of_cons; [done|]. by apply list_elem_of_singleton in Hc. }
    by rewrite (Hc a Ha), (Hc b Hb). }
  repeat case_match; try done; intros [= <- <-];
    (split_and!;
     [ simpl; lia
     | first [ apply Hone | apply Htwo | by intros ? ? ?%elem_of_nil ]
     | intros err; first [ by intros [= <-] | done ]
     | simpl; intros Hlen; try lia ]).
  all: match goal with
       | H : _ && _ = true |- _ =>
           apply andb_true_iff in H as [H%Nat.eqb_eq _]
       end.
  all: eexists (_, _), _; split_and!; [left | eassumption | done].
Qed.

End OllamaProofs.

Lemma normalize_base_spec_witness :
  Endpoint._normalize_base (Some " localhost:11434 ") = "http://localhost:11434"
  ∧ Endpoint._normalize_base (Some "https://ollama.lan/") = "https://ollama.lan"
  ∧ Endpoint._normalize_base (Some "/") = "http:".
Proof.
  split_and!.
  - destruct (normalize_base_spec (Some " localhost:11434 ")) as (_ & _ & H & _).
    apply (H "localhost:11434"); reflexivity || done.
  - reflexivity.
  - reflexivity.
Defined.

Lemma ollama_requests_are_bounded_witness :
  length [("m1", "ssh root@10.0.0.5"); ("m1", "ssh root@10.0.0.5")] ≤ 2
  ∧ ∃ r, Endpoint.generate_after_pull 0 "m1" "ssh root@10.0.0.5" = Py.Ok r
         ∧ Providers.status_code r = 400.
Proof.
  destruct (ollama_requests_are_bounded Py.Decoder.loads Providers.sample_dumps
              Plan.no_repr Providers.sample_env Ollama.sample_instruction
              Ollama.sample_version true Ollama.sample_tags Ollama.sample_pull
              Endpoint.generate_after_pull "m1" Providers.sample_payload false
              [("m1", "ssh root@10.0.0.5"); ("m1", "ssh root@10.0.0.5")]
              (Plan.note_plan ["parse_error:response_not_json"; "{}"]))
    as (Hlen & _ & _ & Hretry).
  - vm_compute. reflexivity.
  - split; [exact Hlen|].
    destruct (Hretry eq_refl) as (a & r & Ha & Hr & Hs).
    assert (a = ("m1", "ssh root@10.0.0.5")) as ->.
    { apply elem_of_cons in Ha as [->|Ha]; [done|].
      by apply list_elem_of_singleton in Ha. }
    by exists r.
Defined.

(** ** The start of the agent *)

Section SetupProofs.
Import Py Plan Providers Agent Setup.

Variable env : gmap string string.

(** X15. The provider the agent runs with is one of the three it knows:
    a name given on the command line comes before [AIC_PROVIDER], which
    comes before the default; the name counts once trimmed and as it is
    written, and every name other than [openai] and [anthropic] means
    the local backend. So the dispatch never meets an unknown provider:
    its plan is what one of the three backends returned, or the note of
    the exception it raised. *)
Theorem provider_is_one_of_three (provider profile : option string) :
  let name := named_provider env provider in
  let '(p, _, model) := resolve env provider profile in
  p ∈ ["local"; "openai"; "anthropic"]
  ∧ (p = "openai" ↔ name = "openai")
  ∧ (p = "anthropic" ↔ name = "anthropic")
  ∧ (∀ s, provider = Some s → s ≠ "" → name = strip s)
  ∧ (∀ allow_cloud plan_with_ollama plan_with_openai plan_with_anthropic payload,
       ∃ answer,
         answer ∈ [plan_with_ollama model payload;
                   plan_with_openai model payload allow_cloud;
                   plan_with_anthropic model payload allow_cloud]
         ∧ call_provider p model false allow_cloud plan_with_ollama
             plan_with_openai plan_with_anthropic payload
           = match answer with
             | Ok plan => plan
             | Raise e => plan_json (note_plan ["model_error:" +:+ e])
             end).
Proof.
  cbv zeta. unfold resolve. cbv zeta.
  assert (∀ s, provider = Some s → s ≠ "" →
               named_provider env provider = strip s) as Hcli.
  { intros s -> Hs. unfold named_provider, or_str.
    by rewrite (proj2 (truthy_str_ne _) Hs). }
  destruct (String.eqb_spec (named_provider env provider) "openai") as [Ho|Ho].
  { split_and!; [set_solver|done|by rewrite Ho|done|].
    intros. eexists. split; [|reflexivity]. set_solver. }
  destruct (String.eqb_spec (named_provider env provider) "anthropic") as [Ha|Ha].
  { split_and!; [set_solver|done|done|done|].
    intros. eexists. split; [|reflexivity]. set_solver. }
  split_and!; [set_solver|done|done|done|].
  intros. eexists. split; [|reflexivity]. set_solver.
Qed.

End SetupProofs.

Section LoadEnvProofs.
Import Py Setup.

Variable putenv_error : string → string → option string.

Lemma settings_cons raw lines k :
  settings (raw :: lines) k
  = match parse_env_line raw with
    | Some (k', v) => (if String.eqb k' k then [v] else []) ++ settings lines k
    | None => settings lines k
    end.
Proof.
  unfold settings. simpl. destruct (parse_env_line raw) as [[k' v]|]; [|done].
  by rewrite bind_cons.
Qed.

Lemma load_lines_spec lines : ∀ env0 environ0 env environ,
  load_lines putenv_error lines env0 environ0 = Ok (env, environ) →
  ∀ k,
    env !! k = match last (settings lines k) with
               | Some v => Some v
               | None => env0 !! k
               end
    ∧ environ !! k = match environ0 !! k with
                     | Some v => Some v
                     | None => head (settings lines k)
                     end.
Proof.
  induction lines as [|raw lines IH]; intros env0 environ0 env environ.
  { intros [= <- <-] k. simpl. by destruct (environ0 !! k). }
  cbn [load_lines]. intros H k. rewrite settings_cons.
  destruct (parse_env_line raw) as [[k' v]|]; [|by apply IH].
  unfold setdefault in H.
  destruct (environ0 !! k') as [v0|] eqn:Hk'.
  - rewrite bind_Ok in H. destruct (IH _ _ _ _ H k) as [-> ->].
    destruct (String.eqb_spec k' k) as [->|Hne]; simpl.
    + rewrite Hk', lookup_insert_eq.
      split; [|done]. rewrite last_cons. by destruct (last (settings lines k)).
    + by rewrite lookup_insert_ne.
  - destruct (putenv_error k' v); [by rewrite bind_Raise in H|].
    rewrite bind_Ok in H. destruct (IH _ _ _ _ H k) as [-> ->].
    destruct (String.eqb_spec k' k) as [->|Hne]; simpl.
    + rewrite Hk', !lookup_insert_eq.
      split; [|done]. rewrite last_cons. by destruct (last (settings lines k)).
    + by rewrite !lookup_insert_ne.
Qed.

(** X16. Loading the environment file never changes a variable that is
    already set. For a key the file sets more than once, the dict
    returned holds the last value while the environment, which only
    takes defaults, holds the first; a key the file does not set is in
    neither because of it; and a missing file changes nothing. *)
Theorem load_env_first_and_last (file : option (result (list string)))
    (environ env environ' : gmap string string) :
  load_env putenv_error file environ = Ok (env, environ') →
  (file = None → env = ∅ ∧ environ' = environ)
  ∧ (∀ k v, environ !! k = Some v → environ' !! k = Some v)
  ∧ (∀ lines, file = Some (Ok lines) →
       ∀ k, env !! k = last (settings lines k)
            ∧ (environ !! k = None → environ' !! k = head (settings lines k))).
Proof.
  unfold load_env. destruct file as [[lines|e]|].
  - rewrite bind_Ok. intros H. split_and!; [done| |].
    + intros k v Hk. destruct (load_lines_spec _ _ _ _ _ H k) as [_ ->].
      by rewrite Hk.
    + intros ? [= <-] k. destruct (load_lines_spec _ _ _ _ _ H k) as [-> ->].
      rewrite lookup_empty. split; [by destruct (last _)|]. by intros ->.
  - by rewrite bind_Raise.
  - intros [= <- <-]. split_and!; [done|done|done].
Qed.

End LoadEnvProofs.

Section RecentProofs.
Import Py Providers Setup.

Variable json_loads : string → option json.

Lemma mapM_option_Forall2 {A B} (f : A → option B) l ys :
  mapM f l = Some ys ↔ Forall2 (λ x y, f x = Some y) l ys.
Proof. apply mapM_Some. Qed.

(** X17. [_recent_events] is all or nothing. It decodes the lines among
    the last [limit] of the session log that start with a brace, white
    space apart, and returns their values in order; when a single one of
    them is not JSON, or the log cannot be read, it returns the empty
    list; and it never returns more than [limit] values. *)
Theorem recent_events_all_or_nothing (readlines : result (list string))
    (limit : nat) :
  (∀ e, readlines = Raise e → _recent_events json_loads readlines limit = [])
  ∧ (∀ lines, readlines = Ok lines →
       (Exists (λ l, json_loads l = None) (json_lines limit lines) →
        _recent_events json_loads readlines limit = [])
       ∧ (Forall (λ l, is_Some (json_loads l)) (json_lines limit lines) →
          Forall2 (λ l v, json_loads l = Some v) (json_lines limit lines)
                  (_recent_events json_loads readlines limit)))
  ∧ (0 < limit → length (_recent_events json_loads readlines limit) ≤ limit).
Proof.
  unfold _recent_events. split_and!.
  - by intros e ->.
  - intros lines ->. split.
    + intros Hex. destruct (mapM _ _) as [ys|] eqn:E; [|done].
      apply mapM_Some in E. apply Exists_exists in Hex as (l & Hl & Hnone).
      apply list_elem_of_lookup_1 in Hl as [i Hi].
      destruct (Forall2_lookup_l _ _ _ _ _ E Hi) as (y & _ & Hy). congruence.
    + intros Hall. destruct (mapM _ _) as [ys|] eqn:E.
      * by apply mapM_Some in E.
      * apply mapM_None in E. apply Exists_exists in E as (l & Hl & Hnone).
        rewrite Forall_forall in Hall. destruct (Hall l Hl) as [v Hv]. congruence.
  - intros Hlimit. destruct readlines as [lines|e]; [|simpl; lia].
    destruct (mapM _ _) as [ys|] eqn:E; [|simpl; lia].
    apply mapM_Some, Forall2_length in E. simpl. rewrite <- E.
    unfold json_lines, tail_lines. destruct (Nat.eqb_spec limit 0); [lia|].
    etrans; [apply length_filter|]. unfold last_n. rewrite length_drop. lia.
Qed.

End RecentProofs.

Section PathsProofs.
Import Py Providers Setup.

Variable _resolve_path : string → string → string.
Variable path_exists : string → bool.

Lemma substring_all s : ∀ m, String.length s ≤ m → String.substring 0 m s = s.
Proof.
  induction s as [|c s IH]; intros [|m] Hm; simpl in *; try done; try lia.
  f_equal. apply IH. lia.
Qed.

Lemma substring_split s : ∀ n m,
  String.length s ≤ n + m →
  String.substring 0 n s +:+ String.substring n m s = s.
Proof.
  induction s as [|c s IH]; intros n m Hm.
  { by destruct n, m. }
  destruct n as [|n].
  - change (String.substring 0 0 (String c s)) with "". rewrite sapp_nil_l.
    by apply substring_all.
  - simpl. rewrite sapp_cons. f_equal. apply IH. simpl in Hm. lia.
Qed.

Lemma prefix_sdrop n s : prefix n s +:+ sdrop n s = s.
Proof. apply substring_split. lia. Qed.

Lemma after_eq_suffix t : ∃ pre, t = pre +:+ after_eq t.
Proof.
  unfold after_eq, split_first. destruct (find_char "=" t) as [i|]; simpl.
  - exists (prefix (S i) t). by rewrite prefix_sdrop.
  - exists t. by rewrite sapp_nil_r.
Qed.

Lemma startswith_first c p t :
  startswith (String c p) t = true → startswith (String c "") t = true.
Proof.
  unfold startswith. destruct t as [|d t]; [done|]. cbn [String.prefix].
  destruct (ascii_dec c d); [|done]. intros _. by destruct t.
Qed.

Lemma single_spec t nxt cwd p :
  p ∈ single _resolve_path t nxt cwd →
  (startswith "-" t = true ∨ t = ">")
  ∧ ∃ arg, p = _resolve_path arg cwd
           ∧ ((∃ pre, t = pre +:+ arg) ∨ (nxt = Some arg ∧ arg ≠ "")).
Proof.
  unfold single.
  destruct (startswith "--output=" t) eqn:H1.
  { intros ->%list_elem_of_singleton. split.
    - left. by apply (startswith_first _ _ _ H1).
    - exists (after_eq t). split; [done|]. left. apply after_eq_suffix. }
  destruct (startswith "-o" t && (2 <? String.length t)
            && negb (startswith "-oX" t)) eqn:H2.
  { intros ->%list_elem_of_singleton.
    apply andb_true_iff in H2 as [[H2 _]%andb_true_iff _]. split.
    - left. by apply (startswith_first _ _ _ H2).
    - exists (sdrop 2 t). split; [done|]. left.
      exists (prefix 2 t). by rewrite prefix_sdrop. }
  destruct (String.eqb t ">" && truthy (JStr (default "" nxt))) eqn:H3;
    [|by intros ?%elem_of_nil].
  intros ->%list_elem_of_singleton.
  apply andb_true_iff in H3 as [Ht Hn]. apply String.eqb_eq in Ht.
  split; [by right|].
  destruct nxt as [n|]; [|done]. exists n. split; [done|]. right.
  split; [done|]. by apply truthy_str_ne.
Qed.

Lemma detect_spec parts cwd : ∀ skip p,
  p ∈ detect _resolve_path parts cwd skip →
  ∃ t arg, t ∈ parts ∧ (startswith "-" t = true ∨ t = ">")
           ∧ p = _resolve_path arg cwd
           ∧ ((∃ pre, t = pre +:+ arg) ∨ (arg ∈ parts ∧ arg ≠ "")).
Proof.
  induction parts as [|t rest IH]; intros skip p; [by intros ?%elem_of_nil|].
  assert (∀ skip', p ∈ detect _resolve_path rest cwd skip' →
            ∃ t' arg, t' ∈ t :: rest ∧ (startswith "-" t' = true ∨ t' = ">")
                      ∧ p = _resolve_path arg cwd
                      ∧ ((∃ pre, t' = pre +:+ arg) ∨ (arg ∈ t :: rest ∧ arg ≠ "")))
    as Hrest.
  { intros skip' (t' & arg & Ht' & Hflag & Hp & Harg)%IH.
    exists t', arg. split_and!; [by right|done|done|].
    destruct Harg as [?|[? ?]]; [by left|]. right. split; [by right|done]. }
  cbn [detect]. destruct skip; [apply Hrest|]. cbv zeta.
  destruct (_ && _) eqn:Hflag.
  - intros [->|Hp]%elem_of_cons; [|by eapply Hrest].
    apply andb_true_iff in Hflag as [Hin Hn]. apply bool_decide_eq_true in Hin.
    destruct rest as [|n rest']; [done|]. simpl in *.
    exists t, n. split_and!; [by left| |done|].
    + left. unfold output_flags in Hin.
      repeat (apply elem_of_cons in Hin as [->|Hin]; [done|]).
      by apply elem_of_nil in Hin.
    + right. split; [right; by left|]. by apply truthy_str_ne.
  - intros [Hp|Hp]%elem_of_app; [|by eapply Hrest].
    apply single_spec in Hp as [Hdash (arg & -> & Harg)].
    exists t, arg. split_and!; [by left|done|done|].
    destruct Harg as [?|[Hn ?]]; [by left|]. right. split; [|done].
    right. destruct rest; [done|]. injection Hn as ->. by left.
Qed.

(** X18. The output files the agent reads are files that exist, and
    each is named by the command: by the token after a flag or a [>], or
    by what follows [--output=] or [-o] within a token. A command without
    a token that starts with a dash or is a [>] names none, and the token
    taken as the argument of a flag is passed over, not read as a flag
    itself. *)
Theorem detected_paths_exist_and_are_named (parts : list string) (cwd : string) :
  (∀ p, p ∈ _detect_output_paths _resolve_path path_exists parts cwd →
     path_exists p = true
     ∧ ∃ t arg, t ∈ parts ∧ (startswith "-" t = true ∨ t = ">")
                ∧ p = _resolve_path arg cwd
                ∧ ((∃ pre, t = pre +:+ arg) ∨ (arg ∈ parts ∧ arg ≠ "")))
  ∧ ((∀ t, t ∈ parts → startswith "-" t = false ∧ t ≠ ">") →
     _detect_output_paths _resolve_path path_exists parts cwd = [])
  ∧ (∀ flag arg rest, flag ∈ output_flags → arg ≠ "" →
       detect _resolve_path (flag :: arg :: rest) cwd false
       = _resolve_path arg cwd :: detect _resolve_path rest cwd false).
Proof.
  assert (∀ p, p ∈ _detect_output_paths _resolve_path path_exists parts cwd →
     path_exists p = true
     ∧ ∃ t arg, t ∈ parts ∧ (startswith "-" t = true ∨ t = ">")
                ∧ p = _resolve_path arg cwd
                ∧ ((∃ pre, t = pre +:+ arg) ∨ (arg ∈ parts ∧ arg ≠ ""))) as Hnamed.
  { unfold _detect_output_paths. intros p [Hex Hp]%list_elem_of_filter.
    split; [done|]. by eapply detect_spec. }
  split_and!; [done| |].
  - intros Hplain.
    destruct (_detect_output_paths _ _ parts cwd) as [|p ps] eqn:E; [done|].
    destruct (Hnamed p) as (_ & t & arg & Ht & Hdash & _); [by left|].
    destruct (Hplain t Ht) as [Hd Hgt]. destruct Hdash; congruence.
  - intros flag arg rest Hflag Harg. cbn [detect].
    change (default "" (head (arg :: rest))) with arg.
    by rewrite (bool_decide_eq_true_2 _ Hflag), (proj2 (truthy_str_ne _) Harg).
Qed.

End PathsProofs.

Lemma provider_is_one_of_three_witness :
  Setup.named_provider (<["AIC_PROVIDER" := "openai"]> ∅) (Some " OpenAI ")
  = Py.strip " OpenAI "
  ∧ Setup.resolve (<["AIC_PROVIDER" := "openai"]> ∅) (Some " OpenAI ") None
    = ("local", "prod-safe", "llama3.2:1b").
Proof.
  pose proof (provider_is_one_of_three (<["AIC_PROVIDER" := "openai"]> ∅)
                (Some " OpenAI ") None) as H.
  cbv zeta in H.
  change (Setup.resolve (<["AIC_PROVIDER" := "openai"]> ∅) (Some " OpenAI ") None)
    with ("local", "prod-safe", "llama3.2:1b") in H.
  destruct H as (_ & _ & _ & Hcli & _).
  split; [by apply Hcli | reflexivity].
Defined.

Lemma load_env_first_and_last_witness :
  ∃ env environ',
    Setup.load_env Setup.putenv_ok (Some (Py.Ok Setup.sample_env_file))
                   (<["AIC_PROFILE" := "prod-safe"]> ∅)
    = Py.Ok (env, environ')
    ∧ env !! "AIC_PROVIDER" = Some "anthropic"
    ∧ environ' !! "AIC_PROVIDER" = Some "openai"
    ∧ env !! "AIC_PROFILE" = Some "ctf"
    ∧ environ' !! "AIC_PROFILE" = Some "prod-safe".
Proof.
  destruct (Setup.load_env Setup.putenv_ok (Some (Py.Ok Setup.sample_env_file))
              (<["AIC_PROFILE" := "prod-safe"]> ∅)) as [[env environ']|e] eqn:E;
    [|by vm_compute in E].
  exists env, environ'. split; [done|].
  destruct (load_env_first_and_last Setup.putenv_ok _ _ _ _ E)
    as (_ & Hkeep & Hfile).
  destruct (Hfile _ eq_refl "AIC_PROVIDER") as [Hlast Hfirst].
  destruct (Hfile _ eq_refl "AIC_PROFILE") as [Hlast' _].
  split_and!.
  - rewrite Hlast. vm_compute. reflexivity.
  - rewrite Hfirst; [vm_compute; reflexivity|]. vm_compute. reflexivity.
  - rewrite Hlast'. vm_compute. reflexivity.
  - apply Hkeep. vm_compute. reflexivity.
Defined.

Lemma detected_paths_exist_and_are_named_witness :
  Setup._detect_output_paths Setup.join_path Setup.only_scan_xml
    ["nmap"; "-oX"; "scan.xml"; "-oN"; "-oG"; ">"; "log.txt"] "/work"
  = ["/work/scan.xml"]
  ∧ Setup.only_scan_xml "/work/scan.xml" = true.
Proof.
  split; [vm_compute; reflexivity|].
  destruct (detected_paths_exist_and_are_named Setup.join_path Setup.only_scan_xml
              ["nmap"; "-oX"; "scan.xml"; "-oN"; "-oG"; ">"; "log.txt"] "/work")
    as (Hnamed & _ & _).
  apply (Hnamed "/work/scan.xml").
  apply (bool_decide_unpack _). vm_compute. reflexivity.
Defined.

(** ** The agent loop, event by event *)

Section AgentEvents.
Import Facts Py Plan Topics Agent.

Variable model_validate_json : string → option LogEvent.
Variable other : string → Extract.matches.
Variable file_facts : LogEvent → list (gmap string value).
Variable retrieve : string → result (list hit).
Variable _recent_events : list json.
Variable provider profile model : string.
Variable dry_run allow_cloud : bool.
Variable plan_with_ollama : string → json → result json.
Variable plan_with_openai : string → json → bool → result json.
Variable plan_with_anthropic : string → json → bool → result json.

Abbreviation event :=
  (process_event other file_facts retrieve _recent_events provider profile model
                 dry_run allow_cloud plan_with_ollama plan_with_openai
                 plan_with_anthropic).
Abbreviation pass :=
  (process_lines model_validate_json other file_facts retrieve _recent_events
                 provider profile model dry_run allow_cloud plan_with_ollama
                 plan_with_openai plan_with_anthropic).
Abbreviation agent :=
  (run_agent model_validate_json other file_facts retrieve _recent_events
             provider profile model dry_run allow_cloud plan_with_ollama
             plan_with_openai plan_with_anthropic).
Abbreviation events := (valid_events model_validate_json).
Abbreviation parse := (parse_line model_validate_json).
Abbreviation provider_plan :=
  (call_provider provider model dry_run allow_cloud plan_with_ollama
                 plan_with_openai plan_with_anthropic).
Abbreviation payload := (payload_of _recent_events profile).

(** The topics of a fact set whose categories are dicts. *)
Lemma derive_topics_Ok facts :
  categories_are_dicts facts →
  ∃ ts, derive_topics facts = Ok ts ∧ 1 ≤ length ts ≤ 4.
Proof.
  intros Hd. unfold derive_topics.
  rewrite !(sub_get_leaf facts) by (done || (unfold categories; repeat constructor)).
  rewrite !or_lazy_Ok.
  repeat match goal with |- context [bool_decide ?P] => destruct (bool_decide P) end;
    (eexists; split; [vm_compute; reflexivity | simpl; lia]).
Qed.

Lemma mapM_all_Ok {A B} (f : A → result B) (l : list A) :
  (∀ x, ∃ y, f x = Ok y) → ∃ ys, mapM f l = Ok ys ∧ length ys = length l.
Proof.
  intros Hf. induction l as [|x l (ys & Hys & Hlen)]; [by exists []|].
  destruct (Hf x) as [y Hy]. exists (y :: ys). simpl. rewrite Hy, Hys.
  split; [done | simpl; by rewrite Hlen].
Qed.

(** With a store that can be read, an event reaches the provider call,
    and its record holds what [_coerce_plan] makes of the answer. *)
Lemma process_event_readable evt :
  (∀ t, ∃ hits, retrieve t = Ok hits) →
  ∃ hits, event evt
          = (plan ← _coerce_plan (provider_plan (payload evt (facts_of other file_facts evt) hits));
             Ok (Audit (ts evt) (cmd evt) (cwd evt) (exit evt)
                       (facts_of other file_facts evt) plan)).
Proof.
  intros Hread. unfold process_event. cbv zeta.
  destruct (derive_topics_Ok (facts_of other file_facts evt)) as (ts & -> & _).
  { apply event_facts_are_dicts. }
  rewrite bind_Ok.
  destruct (mapM_all_Ok retrieve (retrieval_topics ts) Hread) as (hs & -> & _).
  rewrite bind_Ok. by exists (concat hs).
Qed.

Lemma valid_events_app l1 l2 : events (l1 ++ l2) = events l1 ++ events l2.
Proof. unfold valid_events. apply omap_app. Qed.

Lemma valid_events_concat passes :
  events (concat passes) = concat (events <$> passes).
Proof.
  induction passes as [|l ls IH]; [done|]. simpl.
  by rewrite valid_events_app, IH.
Qed.

(** A pass in which every event is audited with a plan that the summary
    can print. *)
Lemma process_lines_records (rec : LogEvent → audit_record) lines :
  (∀ evt, evt ∈ events lines →
          event evt = Ok (rec evt) ∧ print_summary (a_plan (rec evt)) = Ok ()) →
  pass lines = (rec <$> events lines, None).
Proof.
  induction lines as [|line rest IH]; intros Hok; [done|].
  unfold valid_events in *. simpl in *.
  destruct (parse line) as [evt|] eqn:Hp; [|by apply IH].
  destruct (Hok evt) as [-> ->]; [left|].
  rewrite IH; [done|]. intros x Hx. apply Hok. by right.
Qed.

Lemma run_agent_records (rec : LogEvent → audit_record) passes :
  (∀ evt, evt ∈ events (concat passes) →
          event evt = Ok (rec evt) ∧ print_summary (a_plan (rec evt)) = Ok ()) →
  agent passes = rec <$> events (concat passes).
Proof.
  induction passes as [|lines rest IH]; intros Hok; [done|].
  unfold run_agent in *. rewrite fmap_cons. cbn [concat].
  rewrite valid_events_app, fmap_app. f_equal.
  - rewrite (process_lines_records rec); [done|].
    intros evt Hevt. apply Hok. cbn [concat].
    rewrite valid_events_app. apply elem_of_app. by left.
  - apply IH. intros evt Hevt. apply Hok. cbn [concat].
    rewrite valid_events_app. apply elem_of_app. by right.
Qed.

(** X19. When no exception leaves the loop body, the audit log receives
    exactly one record per parseable event, in the order of the lines of
    the session log, however the lines fall into passes; blank and invalid
    lines leave no record. *)
Theorem audit_one_record_per_event (passes : list (list string)) :
  (∀ evt, evt ∈ valid_events model_validate_json (concat passes) →
     ∃ r, process_event other file_facts retrieve _recent_events provider
            profile model dry_run allow_cloud plan_with_ollama plan_with_openai
            plan_with_anthropic evt = Ok r
          ∧ print_summary (a_plan r) = Ok ()) →
  Forall2 (λ evt r,
             process_event other file_facts retrieve _recent_events provider
               profile model dry_run allow_cloud plan_with_ollama
               plan_with_openai plan_with_anthropic evt = Ok r
             ∧ a_cmd r = cmd evt ∧ a_ts r = ts evt ∧ a_cwd r = cwd evt
             ∧ a_exit r = exit evt)
          (valid_events model_validate_json (concat passes))
          (run_agent model_validate_json other file_facts retrieve
             _recent_events provider profile model dry_run allow_cloud
             plan_with_ollama plan_with_openai plan_with_anthropic passes).
Proof.
  intros Hok.
  set (rec := λ evt, match event evt with
                     | Ok r => r
                     | Raise _ => Audit None "" None 0 ∅ (Coerced [] [] [])
                     end).
  rewrite (run_agent_records rec).
  - apply Forall2_fmap_r, Forall_Forall2_diag, Forall_forall.
    intros evt Hevt. destruct (Hok evt Hevt) as (r & Hr & _).
    unfold compose, rec. cbv beta. rewrite Hr. split; [done|].
    revert Hr. unfold process_event. cbv zeta.
    destruct (derive_topics _); [rewrite bind_Ok | by rewrite bind_Raise].
    destruct (mapM _ _); [rewrite bind_Ok | by rewrite bind_Raise].
    destruct (_coerce_plan _); [rewrite bind_Ok | by rewrite bind_Raise].
    by intros [= <-].
  - intros evt Hevt. destruct (Hok evt Hevt) as (r & Hr & Hs).
    unfold rec. cbv beta. by rewrite Hr.
Qed.

(** The plan the agent writes when the provider call raises. *)
Lemma coerce_note_plan (ns : list string) :
  _coerce_plan (plan_json (note_plan ns)) = Ok (Coerced [] (JStr <$> ns) []).
Proof. reflexivity. Qed.

Lemma print_summary_notes (ns : list string) :
  print_summary (Coerced [] (JStr <$> ns) []) = Ok ().
Proof.
  unfold print_summary. simpl.
  assert (forallb (λ n, match n with JStr _ => true | _ => false end)
                  (JStr <$> ns) = true) as ->; [|done].
  by induction ns.
Qed.


(** X21. In a dry run no backend decides anything: with a store that can
    be read, every parseable event gets its record, in order, with the
    facts of the event and the dry-run note, whatever the backends would
    do. *)
Theorem dry_run_audits_every_event (passes : list (list string)) :
  (∀ t, ∃ hits, retrieve t = Ok hits) →
  dry_run = true →
  run_agent model_validate_json other file_facts retrieve _recent_events
    provider profile model dry_run allow_cloud plan_with_ollama
    plan_with_openai plan_with_anthropic passes
  = (λ evt, Audit (ts evt) (cmd evt) (cwd evt) (exit evt)
                  (facts_of other file_facts evt)
                  (Coerced [] [JStr "dry-run enabled: no model call"] []))
    <$> valid_events model_validate_json (concat passes).
Proof.
  intros Hread Hdry.
  apply run_agent_records. intros evt _.
  destruct (process_event_readable evt Hread) as [hits ->].
  unfold call_provider. rewrite Hdry, coerce_note_plan, bind_Ok.
  split; [done | apply (print_summary_notes [_])].
Qed.

(** X22. Topic derivation cannot raise on the facts of an event, whatever
    the extraction of the command and of the files returned: it gives
    between one and four topics, and retrieval is asked about one to three
    of them. *)
Theorem event_topics_never_raise (x : gmap string value)
    (xs : list (gmap string value)) :
  ∃ ts, derive_topics (event_facts x xs) = Ok ts
        ∧ 1 ≤ length ts ≤ 4
        ∧ 1 ≤ length (retrieval_topics ts) ≤ 3.
Proof.
  destruct (derive_topics_Ok (event_facts x xs)) as (ts & Hts & Hlen).
  { apply event_facts_are_dicts. }
  exists ts. split; [done|]. split; [done|].
  unfold retrieval_topics. rewrite length_take. lia.
Qed.

End AgentEvents.

Lemma audit_one_record_per_event_witness :
  length (Agent.run_agent Agent.sample_validate Extract.no_matches Agent.no_files
            Agent.store_empty [] "local" "prod-safe" "m1" false false
            Agent.backend_ok Agent.backend_null Agent.backend_null
            AgentSamples.sample_passes)
  = 2.
Proof.
  refine (eq_sym (Forall2_length _ _ _
            (audit_one_record_per_event Agent.sample_validate Extract.no_matches
               Agent.no_files Agent.store_empty [] "local" "prod-safe" "m1" false
               false Agent.backend_ok Agent.backend_null Agent.backend_null
               AgentSamples.sample_passes _))).
  intros evt Hevt.
  apply elem_of_cons in Hevt as [->|Hevt];
    [|apply elem_of_cons in Hevt as [->|Hevt]; [|by apply elem_of_nil in Hevt]];
    (eexists; split; vm_compute; reflexivity).
Defined.


Lemma dry_run_audits_every_event_witness :
  Agent.a_plan
    <$> Agent.run_agent Agent.sample_validate Extract.no_matches Agent.no_files
          Agent.store_empty [] "openai" "prod-safe" "m1" true false
          AgentSamples.backend_down AgentSamples.hosted_down
          AgentSamples.hosted_down AgentSamples.sample_passes
  = [Plan.Coerced [] [Py.JStr "dry-run enabled: no model call"] [];
     Plan.Coerced [] [Py.JStr "dry-run enabled: no model call"] []].
Proof.
  rewrite (dry_run_audits_every_event Agent.sample_validate Extract.no_matches
             Agent.no_files Agent.store_empty [] "openai" "prod-safe" "m1" true
             false AgentSamples.backend_down AgentSamples.hosted_down
             AgentSamples.hosted_down).
  - vm_compute. reflexivity.
  - intros t. by eexists.
  - reflexivity.
Defined.

(** ** What [_coerce_plan] accepts *)

Section CoercePlan.
Import Py Plan Iterable.

Lemma to_list_Raise v : (∃ e, to_list v = Raise e) ↔ not_iterable v.
Proof.
  unfold not_iterable. destruct v; simpl; split;
    try (intros [e [=]]); try (intros [[=] | [[? [=]] | [? [=]]]]); eauto.
Qed.

Lemma to_list_cases v : (∃ l, to_list v = Ok l) ∨ not_iterable v.
Proof. unfold not_iterable. destruct v; simpl; eauto. Qed.

Lemma field_raises k d :
  (∃ e, to_list (get_or k (JList []) d) = Raise e)
  ↔ ∃ v, assoc k d = Some v ∧ not_iterable v.
Proof.
  unfold get_or. rewrite to_list_Raise. destruct (assoc k d) as [v|]; simpl.
  - split; [by exists v | by intros (? & [= ->] & ?)].
  - split; [|by intros (? & [=] & _)].
    intros [[=] | [[? [=]] | [? [=]]]].
Qed.

Lemma coerce_plan_raises d :
  (∃ e, _coerce_plan (JDict d) = Raise e)
  ↔ (∃ e, to_list (get_or "next_actions" (JList []) d) = Raise e)
    ∨ (∃ e, to_list (get_or "notes" (JList []) d) = Raise e)
    ∨ (∃ e, to_list (get_or "escalation_paths" (JList []) d) = Raise e).
Proof.
  unfold _coerce_plan.
  destruct (to_list (get_or "next_actions" _ d)) as [na|e1];
    [rewrite bind_Ok | rewrite bind_Raise; split; eauto].
  destruct (to_list (get_or "notes" _ d)) as [ns|e2];
    [rewrite bind_Ok | rewrite bind_Raise; split; eauto].
  destruct (to_list (get_or "escalation_paths" _ d)) as [es|e3];
    [rewrite bind_Ok | rewrite bind_Raise; split; eauto].
  split; [by intros [? [=]] | by intros [[? [=]] | [[? [=]] | [? [=]]]]].
Qed.

(** X23. [_coerce_plan] invents nothing and checks nothing. A result that
    is no dict gives a plan without actions and with one note that is not
    empty. For a dict, the three lists are returned entry by entry as they
    are; a missing one is empty, a string given for one is split into its
    characters, and the call raises exactly when one of the three is
    present and is null, a boolean or a number. *)
Theorem coerce_plan_fields :
  (∀ obj, (∀ d, obj ≠ JDict d) →
     ∃ n, _coerce_plan obj = Ok (Coerced [] [JStr n] []) ∧ n ≠ "")
  ∧ (∀ d, (∃ e, _coerce_plan (JDict d) = Raise e)
          ↔ ∃ k v, k ∈ ["next_actions"; "notes"; "escalation_paths"]
                   ∧ assoc k d = Some v ∧ not_iterable v)
  ∧ (∀ d c, _coerce_plan (JDict d) = Ok c →
       (∀ l, assoc "next_actions" d = Some (JList l) → c_next_actions c = l)
       ∧ (∀ l, assoc "notes" d = Some (JList l) → c_notes c = l)
       ∧ (∀ l, assoc "escalation_paths" d = Some (JList l) →
               c_escalation_paths c = l)
       ∧ (assoc "next_actions" d = None → c_next_actions c = [])
       ∧ (assoc "notes" d = None → c_notes c = [])
       ∧ (assoc "escalation_paths" d = None → c_escalation_paths c = [])
       ∧ (∀ s, assoc "notes" d = Some (JStr s) → c_notes c = JStr <$> chars s)).
Proof.
  split_and!.
  - intros obj Hobj. unfold _coerce_plan.
    destruct obj as [| | |s| |d];
      try (by exists "empty_model_response"); [|by destruct (Hobj d)].
    destruct (truthy (JStr (strip s))) eqn:Hs;
      [|by exists "empty_model_response"].
    exists (strip s). split; [done|]. by apply truthy_str_ne.
  - intros d. rewrite coerce_plan_raises, !field_raises. split.
    + intros [(v & ? & ?) | [(v & ? & ?) | (v & ? & ?)]]; eexists _, v;
        (split_and!; [|done..]); apply (bool_decide_unpack _); by vm_compute.
    + intros (k & v & Hk & Hv & Hn).
      repeat (apply elem_of_cons in Hk as [->|Hk]); eauto.
      by apply elem_of_nil in Hk.
  - intros d c. unfold _coerce_plan, get_or.
    destruct (to_list (default (JList []) (assoc "next_actions" d))) as [na|] eqn:Hna;
      [rewrite bind_Ok | by rewrite bind_Raise].
    destruct (to_list (default (JList []) (assoc "notes" d))) as [ns|] eqn:Hns;
      [rewrite bind_Ok | by rewrite bind_Raise].
    destruct (to_list (default (JList []) (assoc "escalation_paths" d))) as [es|] eqn:Hes;
      [rewrite bind_Ok | by rewrite bind_Raise].
    intros [= <-]. simpl.
    split_and!; intros; simplify_option_eq; simpl in *; congruence.
Qed.

End CoercePlan.

(** ** The payload of the agent and the prompts of the backends *)

Section PayloadProofs.
Import Facts Py Plan Providers Ollama Agent.

Variable json_dumps : json → string.
Variable py_repr : json → string.
Variable _redact_text : string → string.
Variable TEMPLATE_format : string → string.
Variable instruction : string → string → string → string → string → string → string.
Variable _recent_events : list json.
Variable profile : string.

Lemma mapM_result_Ok {A B} (f : A → result B) (l : list A) :
  Forall (λ x, ∃ y, f x = Ok y) l → ∃ ys, mapM f l = Ok ys.
Proof.
  induction 1 as [|x l [y Hy] _ [ys Hys]]; [by exists []|].
  exists (y :: ys). simpl. by rewrite Hy, Hys.
Qed.

Lemma bind_Ok_ex {A B} (r : result A) (f : A → result B) :
  (∃ a, r = Ok a ∧ ∃ b, f a = Ok b) → ∃ b, (r ≫= f) = Ok b.
Proof. intros (a & -> & b & Hb). by exists b. Qed.

(** One statement of a prompt builder that returns. *)
Lemma assoc_here {A} k (v : A) d : assoc k ((k, v) :: d) = Some v.
Proof. simpl. by rewrite String.eqb_refl. Qed.

Lemma assoc_next {A} k k' (v : A) d : k' ≠ k → assoc k ((k', v) :: d) = assoc k d.
Proof. intros Hne. simpl. by rewrite (proj2 (String.eqb_neq _ _) Hne). Qed.

Local Ltac norm :=
  unfold get_or; cbn [map walk];
  repeat first [ rewrite assoc_here | rewrite assoc_next by done ];
  cbn [default from_option]; unfold id.

Local Ltac step :=
  apply bind_Ok_ex; eexists; split; [reflexivity | cbv beta; norm].

(** X24. No prompt builder can fail on a payload the agent builds, with
    or without redaction: the OpenAI blob and the prompt of the local
    backend are always built, and the Anthropic prompt is built whenever
    the recent events are dicts. So an exception of the provider call
    comes from the provider, never from the shape of the payload. *)
Theorem agent_payloads_build_prompts (evt : LogEvent)
    (facts : gmap string value) (retrieved : list hit) (allow_cloud : bool) :
  let payload := payload_of _recent_events profile evt facts retrieved in
  (∃ blob, _user_payload json_dumps (redact _redact_text payload allow_cloud)
           = Ok blob)
  ∧ (∃ prompt, Ollama._build_prompt json_dumps py_repr instruction payload
               = Ok prompt)
  ∧ (Forall (λ e, ∃ d, e = JDict d) _recent_events →
     ∃ prompt, build_prompt json_dumps TEMPLATE_format
                 (redact _redact_text payload allow_cloud) = Ok prompt).
Proof.
  cbv zeta. unfold payload_of.
  assert (∀ l, or_else (JList l) (JList []) = JList l) as Hor by (by intros []).
  assert (∀ evs, Forall (λ e, ∃ d, e = JDict d) evs →
            ∃ cmds, mapM (dict_get "cmd") (last_n 6 evs) = Ok cmds) as Hcmds.
  { intros evs Hevs. apply mapM_result_Ok. unfold last_n.
    apply Forall_drop. eapply Forall_impl; [exact Hevs|].
    intros e [d ->]. by eexists. }
  split_and!.
  - unfold redact, _user_payload. destruct allow_cloud; repeat step; by eexists.
  - unfold Ollama._build_prompt. repeat first [ rewrite Hor | step ].
    destruct (mapM_result_Ok (snippet_line py_repr)
                (take 4 (snippet <$> take 4 retrieved))) as [ls Hls].
    { apply Forall_take, Forall_fmap, Forall_forall. intros h _.
      unfold snippet_line, snippet. repeat step. by eexists. }
    apply bind_Ok_ex. exists ls. split; [exact Hls|].
    repeat first [ rewrite Hor | step ]. by eexists.
  - intros Hdicts. unfold redact, build_prompt. destruct allow_cloud.
    + repeat step. destruct (Hcmds _ Hdicts) as [cmds Hc].
      apply bind_Ok_ex. exists cmds. split; [exact Hc|]. by eexists.
    + repeat step.
      destruct (Hcmds (map (walk _redact_text) _recent_events)) as [cmds Hc].
      { apply Forall_fmap. eapply Forall_impl; [exact Hdicts|].
        intros e [d ->]. simpl. by eexists. }
      apply bind_Ok_ex. exists cmds. split; [exact Hc|]. by eexists.
Qed.

End PayloadProofs.

(** ** Failures of the backends are notes *)

Section BackendProofs.
Import Facts Py Plan Providers Ollama Agent Backends.

Variable json_loads : string → option json.
Variable json_dumps : json → string.
Variable py_repr : json → string.
Variable _redact_text : string → string.
Variable env : gmap string string.
Variable system_prompt : string.
Variable openai_create : bool → request → result string.
Variable TEMPLATE_format : string → string.
Variable anthropic_post : string → string → result response.
Variable instruction : string → string → string → string → string → string → string.
Variable get_version : nat → result response.
Variable popen_serve : bool.
Variable get_tags : result response.
Variable run_pull : nat → string → pull_outcome.
Variable post_generate : nat → string → string → result response.



Variable model_validate_json : string → option LogEvent.
Variable other : string → Extract.matches.
Variable file_facts : LogEvent → list (gmap string value).
Variable retrieve : string → result (list hit).
Variable _recent_events : list json.
Variable provider profile : string.
Variable dry_run : bool.
Variable plan_with_openai : string → json → bool → result json.




End BackendProofs.

